(** * Analyzer: typed expression trees of the SQL semantic analysis

    A shallow embedding of [Analyzer/Analyzer.cpp]: operator type promotion
    ([BinOper::analyze_type_info], [common_string_type],
    [common_numeric_type]), casting of expressions and of literals
    ([add_cast], [Constant::do_cast] and its helpers), copying and
    comparing trees ([deep_copy], [operator==]), predicate classification
    ([group_predicates], [collect_rte_idx]) and
    [BinOper::normalize_simple_predicate].

    Conventions.
    - A C++ [int] is a [Z]; signed overflow is undefined in C++, so sums of
      dimensions and scales are plain [Z] sums.  Conversions between integer
      widths wrap ([sint]).
    - A function that can throw or abort returns a [result]: [Ok v],
      [Throw msg] for [throw std::runtime_error(msg)], [Abort] for a failed
      [CHECK] and [Undefined] for a null or dangling dereference.
    - [std::string*] payloads live in a string heap ([heap]); a method that
      allocates, frees or overwrites strings threads the heap.
    - A method that mutates its receiver returns the receiver's new state
      next to its C++ return value. *)

From stdpp Require Import base option list gmap strings.
From Stdlib Require Import ZArith Lia.

Local Open Scope Z_scope.
Local Set Warnings "-clear-no-such-hyp".

(** ** Results of fallible code *)

Inductive result (A : Type) : Type :=
| Ok (a : A)
| Throw (what : string)
| Abort
| Undefined.

Arguments Ok {A} a.
Arguments Throw {A} what.
Arguments Abort {A}.
Arguments Undefined {A}.

Definition bind {A B : Type} (r : result A) (k : A -> result B) : result B :=
  match r with
  | Ok a => k a
  | Throw w => Throw w
  | Abort => Abort
  | Undefined => Undefined
  end.

Declare Scope result_scope.
Delimit Scope result_scope with result.
Notation "'perform' x := r 'in' k" := (bind r (fun x => k))
  (at level 10, x name, r at level 100, k at level 200,
   format "'[v' 'perform'  x  :=  r  'in' '/' k ']'") : result_scope.
Notation "'perform' ' p := r 'in' k" := (bind r (fun y => match y with p => k end))
  (at level 10, p pattern, r at level 100, k at level 200,
   format "'[v' 'perform'  ' p  :=  r  'in' '/' k ']'") : result_scope.
Local Open Scope result_scope.

Definition is_Ok {A : Type} (r : result A) : bool :=
  match r with Ok _ => true | _ => false end.

(** ** SQL types ([Shared/sqltypes.h], [Shared/sqldefs.h]) *)

(** Modelled from the spec: the enumeration [SQLTypes] of
    [Shared/sqltypes.h] is not part of the sources; the kinds are those
    listed in the data model of the specification. *)
Inductive SQLTypes : Type :=
| kNULLT | kBOOLEAN | kCHAR | kVARCHAR | kNUMERIC | kDECIMAL | kINT
| kSMALLINT | kFLOAT | kDOUBLE | kTIME | kTIMESTAMP | kBIGINT | kTEXT
| kDATE.

(** Modelled from the spec: the enumeration [EncodingType] of
    [Shared/sqltypes.h] is not part of the sources; the compression is NONE
    or DICT. *)
Inductive EncodingType : Type := kENCODING_NONE | kENCODING_DICT.

(** Modelled from the spec: the enumeration [SQLOps] of [Shared/sqldefs.h]
    is not part of the sources; the operators are those the data model
    lists for [BinOper] and [UOper]. *)
Inductive SQLOps : Type :=
| kEQ | kNE | kLT | kLE | kGT | kGE | kAND | kOR
| kPLUS | kMINUS | kMULTIPLY | kDIVIDE | kMODULO | kARRAY_AT
| kNOT | kUMINUS | kISNULL | kEXISTS | kCAST | kUNNEST.

(** Modelled from the spec: the enumeration [SQLQualifier] of
    [Shared/sqldefs.h] is not part of the sources; the qualifier of a
    [BinOper] is ONE, ANY or ALL. *)
Inductive SQLQualifier : Type := kONE | kANY | kALL.

#[global] Instance SQLTypes_eq_dec : EqDecision SQLTypes.
Proof. solve_decision. Defined.
#[global] Instance EncodingType_eq_dec : EqDecision EncodingType.
Proof. solve_decision. Defined.
#[global] Instance SQLOps_eq_dec : EqDecision SQLOps.
Proof. solve_decision. Defined.
#[global] Instance SQLQualifier_eq_dec : EqDecision SQLQualifier.
Proof. solve_decision. Defined.

(** Modelled from the spec: the macro [IS_LOGIC] of [Shared/sqldefs.h] is
    not part of the sources; logic is AND, OR, NOT. *)
Definition IS_LOGIC (op : SQLOps) : bool :=
  match op with kAND | kOR | kNOT => true | _ => false end.

(** Modelled from the spec: the macro [IS_COMPARISON] of
    [Shared/sqldefs.h] is not part of the sources; the comparisons are the
    six relational operators. *)
Definition IS_COMPARISON (op : SQLOps) : bool :=
  match op with kEQ | kNE | kLT | kLE | kGT | kGE => true | _ => false end.

(** Modelled from the spec: the macro [IS_ARITHMETIC] of
    [Shared/sqldefs.h] is not part of the sources; arithmetic is PLUS,
    MINUS, MULTIPLY, DIVIDE, MODULO. *)
Definition IS_ARITHMETIC (op : SQLOps) : bool :=
  match op with
  | kPLUS | kMINUS | kMULTIPLY | kDIVIDE | kMODULO => true
  | _ => false
  end.

(** Modelled from the spec: the macro [COMMUTE_COMPARISON] of
    [Shared/sqldefs.h] is not part of the sources; it maps EQ to EQ, NE to
    NE, LT to GT, LE to GE and back. *)
Definition COMMUTE_COMPARISON (op : SQLOps) : SQLOps :=
  match op with
  | kLT => kGT
  | kLE => kGE
  | kGT => kLT
  | kGE => kLE
  | other => other
  end.

(** Modelled from the spec: the class [SQLTypeInfo] of [Shared/sqltypes.h]
    is not part of the sources.  Its essential attributes are the kind, the
    dimension, the scale, nullability, the string encoding and the
    dictionary id; the element kind [subtype] is the last argument of the
    seven-argument constructor the sources call.  The storage size is
    derived from the other attributes, so it is no field here and
    [set_fixed_size] has nothing to store. *)
Record SQLTypeInfo : Type := mkSQLTypeInfo {
  get_type : SQLTypes;
  get_subtype : SQLTypes;
  get_dimension : Z;
  get_scale : Z;
  get_notnull : bool;
  get_compression : EncodingType;
  get_comp_param : Z
}.

#[global] Instance SQLTypeInfo_eq_dec : EqDecision SQLTypeInfo.
Proof. solve_decision. Defined.

(** Modelled from the spec: the constructors, setters and predicates of
    [SQLTypeInfo] below are declared in [Shared/sqltypes.h], which is not
    part of the sources.  This one is [SQLTypeInfo(t, d, s, n, c, p, st)]. *)
Definition SQLTypeInfo7 (t : SQLTypes) (d s : Z) (n : bool)
    (c : EncodingType) (p : Z) (st : SQLTypes) : SQLTypeInfo :=
  mkSQLTypeInfo t st d s n c p.

(** Modelled from the spec: [SQLTypeInfo(t, d, s, n)], of no element kind,
    not compressed. *)
Definition SQLTypeInfo4 (t : SQLTypes) (d s : Z) (n : bool) : SQLTypeInfo :=
  mkSQLTypeInfo t kNULLT d s n kENCODING_NONE 0.

(** Modelled from the spec: [SQLTypeInfo(t, n)], of dimension and scale
    0. *)
Definition SQLTypeInfo2 (t : SQLTypes) (n : bool) : SQLTypeInfo :=
  mkSQLTypeInfo t kNULLT 0 0 n kENCODING_NONE 0.

(** Modelled from the spec: [SQLTypeInfo()], the nullable type NULLT. *)
Definition SQLTypeInfo0 : SQLTypeInfo := SQLTypeInfo2 kNULLT false.

(** Modelled from the spec: the setter of [notnull]. *)
Definition set_notnull (ti : SQLTypeInfo) (n : bool) : SQLTypeInfo :=
  mkSQLTypeInfo (get_type ti) (get_subtype ti) (get_dimension ti)
    (get_scale ti) n (get_compression ti) (get_comp_param ti).

(** Modelled from the spec: the setter of [compression]. *)
Definition set_compression (ti : SQLTypeInfo) (c : EncodingType) : SQLTypeInfo :=
  mkSQLTypeInfo (get_type ti) (get_subtype ti) (get_dimension ti)
    (get_scale ti) (get_notnull ti) c (get_comp_param ti).

(** Modelled from the spec: the setter of [comp_param]. *)
Definition set_comp_param (ti : SQLTypeInfo) (p : Z) : SQLTypeInfo :=
  mkSQLTypeInfo (get_type ti) (get_subtype ti) (get_dimension ti)
    (get_scale ti) (get_notnull ti) (get_compression ti) p.

(** Modelled from the spec: [set_fixed_size] recomputes the derived
    storage size, which is no field here. *)
Definition set_fixed_size (ti : SQLTypeInfo) : SQLTypeInfo := ti.

(** Modelled from the spec: [operator==] of [SQLTypeInfo]; equality is
    field-wise. *)
Definition ti_eqb (a b : SQLTypeInfo) : bool := bool_decide (a = b).

(** Modelled from the spec: [is_number], the integer, floating-point and
    decimal kinds. *)
Definition is_number (ti : SQLTypeInfo) : bool :=
  match get_type ti with
  | kINT | kSMALLINT | kBIGINT | kFLOAT | kDOUBLE | kNUMERIC | kDECIMAL => true
  | _ => false
  end.

(** Modelled from the spec: [is_integer], the three integer widths. *)
Definition is_integer (ti : SQLTypeInfo) : bool :=
  match get_type ti with
  | kINT | kSMALLINT | kBIGINT => true
  | _ => false
  end.

(** Modelled from the spec: [is_string], the kinds CHAR, VARCHAR and
    TEXT. *)
Definition is_string (ti : SQLTypeInfo) : bool :=
  match get_type ti with
  | kCHAR | kVARCHAR | kTEXT => true
  | _ => false
  end.

(** Modelled from the spec: [is_time], the temporal kinds TIME, TIMESTAMP
    and DATE. *)
Definition is_time (ti : SQLTypeInfo) : bool :=
  match get_type ti with
  | kTIME | kTIMESTAMP | kDATE => true
  | _ => false
  end.

(** Modelled from the spec: [get_type_name], the SQL name of the kind,
    quoted in messages. *)
Definition get_type_name (ti : SQLTypeInfo) : string :=
  match get_type ti with
  | kNULLT => "NULL"
  | kBOOLEAN => "BOOLEAN"
  | kCHAR => "CHAR"
  | kVARCHAR => "VARCHAR"
  | kNUMERIC => "NUMERIC"
  | kDECIMAL => "DECIMAL"
  | kINT => "INTEGER"
  | kSMALLINT => "SMALLINT"
  | kFLOAT => "FLOAT"
  | kDOUBLE => "DOUBLE"
  | kTIME => "TIME"
  | kTIMESTAMP => "TIMESTAMP"
  | kBIGINT => "BIGINT"
  | kTEXT => "TEXT"
  | kDATE => "DATE"
  end.

(** ** Numeric and string promotion *)

(** [BinOper::common_numeric_type] *)
Definition common_numeric_type (type1 type2 : SQLTypeInfo) : result SQLTypeInfo :=
  if negb (is_number type1 && is_number type2) then Abort
  else if bool_decide (get_type type1 = get_type type2) then
    Ok (SQLTypeInfo4 (get_type type1)
          (Z.max (get_dimension type1) (get_dimension type2))
          (Z.max (get_scale type1) (get_scale type2))
          false)
  else
    perform common_type :=
      match get_type type1 with
      | kSMALLINT =>
          match get_type type2 with
          | kINT => Ok (SQLTypeInfo2 kINT false)
          | kBIGINT => Ok (SQLTypeInfo2 kBIGINT false)
          | kFLOAT => Ok (SQLTypeInfo2 kFLOAT false)
          | kDOUBLE => Ok (SQLTypeInfo2 kDOUBLE false)
          | kNUMERIC | kDECIMAL =>
              Ok (SQLTypeInfo4 kNUMERIC
                    (Z.max (5 + get_scale type2) (get_dimension type2))
                    (get_scale type2) false)
          | _ => Abort
          end
      | kINT =>
          match get_type type2 with
          | kSMALLINT => Ok (SQLTypeInfo2 kINT false)
          | kBIGINT => Ok (SQLTypeInfo2 kBIGINT false)
          | kFLOAT => Ok (SQLTypeInfo2 kFLOAT false)
          | kDOUBLE => Ok (SQLTypeInfo2 kDOUBLE false)
          | kNUMERIC | kDECIMAL =>
              Ok (SQLTypeInfo4 kNUMERIC
                    (Z.max (Z.min 19 (10 + get_scale type2)) (get_dimension type2))
                    (get_scale type2) false)
          | _ => Abort
          end
      | kBIGINT =>
          match get_type type2 with
          | kSMALLINT => Ok (SQLTypeInfo2 kBIGINT false)
          | kINT => Ok (SQLTypeInfo2 kBIGINT false)
          | kFLOAT => Ok (SQLTypeInfo2 kFLOAT false)
          | kDOUBLE => Ok (SQLTypeInfo2 kDOUBLE false)
          | kNUMERIC | kDECIMAL =>
              Ok (SQLTypeInfo4 kNUMERIC 19 (get_scale type2) false)
          | _ => Abort
          end
      | kFLOAT =>
          match get_type type2 with
          | kSMALLINT => Ok (SQLTypeInfo2 kFLOAT false)
          | kINT => Ok (SQLTypeInfo2 kFLOAT false)
          | kBIGINT => Ok (SQLTypeInfo2 kFLOAT false)
          | kDOUBLE => Ok (SQLTypeInfo2 kDOUBLE false)
          | kNUMERIC | kDECIMAL => Ok (SQLTypeInfo2 kFLOAT false)
          | _ => Abort
          end
      | kDOUBLE =>
          match get_type type2 with
          | kSMALLINT | kINT | kBIGINT | kFLOAT | kNUMERIC | kDECIMAL =>
              Ok (SQLTypeInfo2 kDOUBLE false)
          | _ => Abort
          end
      | kNUMERIC | kDECIMAL =>
          match get_type type2 with
          | kSMALLINT =>
              Ok (SQLTypeInfo4 kNUMERIC
                    (Z.max (5 + get_scale type1) (get_dimension type1))
                    (get_scale type1) false)
          | kINT =>
              Ok (SQLTypeInfo4 kNUMERIC
                    (Z.max (Z.min 19 (10 + get_scale type1)) (get_dimension type2))
                    (get_scale type1) false)
          | kBIGINT => Ok (SQLTypeInfo4 kNUMERIC 19 (get_scale type1) false)
          | kFLOAT => Ok (SQLTypeInfo2 kFLOAT false)
          | kDOUBLE => Ok (SQLTypeInfo2 kDOUBLE false)
          | kNUMERIC | kDECIMAL =>
              let common_scale := Z.max (get_scale type1) (get_scale type2) in
              Ok (SQLTypeInfo4 kNUMERIC
                    (Z.max (get_dimension type1 - get_scale type1)
                           (get_dimension type2 - get_scale type2)
                     + common_scale)
                    common_scale false)
          | _ => Abort
          end
      | _ => Abort
      end in
    Ok (set_fixed_size common_type).

(** Modelled from the spec: the macro [TRANSIENT_DICT] of
    [Shared/sqltypes.h] is not part of the sources.  It is a parameter of
    everything that uses it; this is the instance the specification
    describes, the involution [-id - 2]. *)
Definition spec_TRANSIENT_DICT (id : Z) : Z := - id - 2.

(** Modelled from the spec: the macro [TRANSIENT_DICT_ID] of
    [Shared/sqltypes.h] is not part of the sources.  It is a parameter of
    everything that uses it; this instance is the negative id that
    [spec_TRANSIENT_DICT] fixes. *)
Definition spec_TRANSIENT_DICT_ID : Z := -1.

Section StringPromotion.

Variable TRANSIENT_DICT : Z -> Z.

(** [BinOper::common_string_type] *)
Definition common_string_type (type1 type2 : SQLTypeInfo) : result SQLTypeInfo :=
  if negb (is_string type1 && is_string type2) then Abort
  else
    let '(comp, comp_param) :=
      if bool_decide (get_compression type1 = kENCODING_DICT)
         && bool_decide (get_compression type2 = kENCODING_DICT) then
        if bool_decide (get_comp_param type1 = get_comp_param type2)
           || bool_decide (get_comp_param type1 = TRANSIENT_DICT (get_comp_param type2))
        then (kENCODING_DICT, Z.min (get_comp_param type1) (get_comp_param type2))
        else (kENCODING_NONE, 0)
      else if bool_decide (get_compression type1 = kENCODING_DICT)
              && bool_decide (get_compression type2 = kENCODING_NONE) then
        (kENCODING_NONE, get_comp_param type1)
      else if bool_decide (get_compression type1 = kENCODING_NONE)
              && bool_decide (get_compression type2 = kENCODING_DICT) then
        (kENCODING_NONE, get_comp_param type2)
      else
        (kENCODING_NONE, Z.max (get_comp_param type1) (get_comp_param type2)) in
    if bool_decide (get_type type1 = kTEXT) || bool_decide (get_type type2 = kTEXT)
    then Ok (SQLTypeInfo7 kTEXT 0 0 false comp comp_param kNULLT)
    else Ok (SQLTypeInfo7 kVARCHAR
               (Z.max (get_dimension type1) (get_dimension type2))
               0 false comp comp_param kNULLT).

End StringPromotion.

(** [BinOper::analyze_type_info]: the result type and the types the two
    operands are to be cast to ([*new_left_type], [*new_right_type]). *)
Definition analyze_type_info (op : SQLOps) (left_type right_type : SQLTypeInfo)
    : result (SQLTypeInfo * SQLTypeInfo * SQLTypeInfo) :=
  perform '(result_type, new_left_type, new_right_type) :=
    (if IS_LOGIC op then
       if bool_decide (get_type left_type ≠ kBOOLEAN)
          || bool_decide (get_type right_type ≠ kBOOLEAN)
       then Throw "non-boolean operands cannot be used in logic operations."
       else Ok (SQLTypeInfo2 kBOOLEAN false, left_type, right_type)
     else if IS_COMPARISON op then
       perform '(new_left_type, new_right_type) :=
         (if negb (ti_eqb left_type right_type) then
            if is_number left_type && is_number right_type then
              perform common_type := common_numeric_type left_type right_type in
              Ok (set_notnull common_type (get_notnull left_type),
                  set_notnull common_type (get_notnull right_type))
            else if is_time left_type && is_time right_type then
              match get_type left_type with
              | kTIMESTAMP =>
                  match get_type right_type with
                  | kTIME => Throw "Cannont compare between TIMESTAMP and TIME."
                  | kDATE => Ok (left_type, left_type)
                  | kTIMESTAMP =>
                      Ok (SQLTypeInfo4 kTIMESTAMP
                            (Z.max (get_dimension left_type) (get_dimension right_type))
                            0 (get_notnull left_type),
                          SQLTypeInfo4 kTIMESTAMP
                            (Z.max (get_dimension left_type) (get_dimension right_type))
                            0 (get_notnull right_type))
                  | _ => Abort
                  end
              | kTIME =>
                  match get_type right_type with
                  | kTIMESTAMP => Throw "Cannont compare between TIME and TIMESTAMP."
                  | kDATE => Throw "Cannont compare between TIME and DATE."
                  | kTIME =>
                      Ok (SQLTypeInfo4 kTIME
                            (Z.max (get_dimension left_type) (get_dimension right_type))
                            0 (get_notnull left_type),
                          SQLTypeInfo4 kTIME
                            (Z.max (get_dimension left_type) (get_dimension right_type))
                            0 (get_notnull right_type))
                  | _ => Abort
                  end
              | kDATE =>
                  match get_type right_type with
                  | kTIMESTAMP => Ok (right_type, right_type)
                  | kDATE => Ok (left_type, left_type)
                  | kTIME => Throw "Cannont compare between DATE and TIME."
                  | _ => Abort
                  end
              | _ => Abort
              end
            else if is_string left_type && is_time right_type then
              Ok (set_notnull right_type (get_notnull left_type), right_type)
            else if is_time left_type && is_string right_type then
              Ok (left_type, set_notnull left_type (get_notnull right_type))
            else if is_string left_type && is_string right_type then
              Ok (left_type, right_type)
            else
              Throw ("Cannot compare between " +:+ get_type_name left_type
                     +:+ " and " +:+ get_type_name right_type)
          else Ok (left_type, right_type)) in
       Ok (SQLTypeInfo2 kBOOLEAN false, new_left_type, new_right_type)
     else if IS_ARITHMETIC op then
       if negb (is_number left_type) || negb (is_number right_type) then
         Throw "non-numeric operands in arithmetic operations."
       else if bool_decide (op = kMODULO)
               && (negb (is_integer left_type) || negb (is_integer right_type)) then
         Throw "non-integer operands in modulo operation."
       else
         perform common_type := common_numeric_type left_type right_type in
         Ok (common_type,
             set_notnull common_type (get_notnull left_type),
             set_notnull common_type (get_notnull right_type))
     else Throw "invalid binary operator type.") in
  Ok (set_notnull result_type (get_notnull left_type && get_notnull right_type),
      new_left_type, new_right_type).

(** The error kind the specification calls IncomparableTemporals: the four
    messages thrown for a TIME operand against a TIMESTAMP or DATE one. *)
Definition IncomparableTemporals (what : string) : Prop :=
  what = "Cannont compare between TIMESTAMP and TIME."
  \/ what = "Cannont compare between TIME and TIMESTAMP."
  \/ what = "Cannont compare between TIME and DATE."
  \/ what = "Cannont compare between DATE and TIME.".

(** ** Literal values and the string heap *)

(** A [std::string*]: [None] is [nullptr], [Some p] an address of the
    string heap. *)
Definition string_ptr : Type := option nat.

(** Modelled from the spec: the union [Datum] of [Shared/sqltypes.h] is
    not part of the sources; its members are those the sources read and
    write.  The member last written is the tag.  The two floating-point
    members hold the bit pattern of the value; arithmetic and comparison on
    them are parameters ([Externals]). *)
Inductive Datum : Type :=
| boolval (b : bool)
| smallintval (v : Z)
| intval (v : Z)
| bigintval (v : Z)
| timeval (v : Z)
| floatval (bits : Z)
| doubleval (bits : Z)
| stringval (s : string_ptr).

#[global] Instance Datum_eq_dec : EqDecision Datum.
Proof. solve_decision. Defined.

(** Reading a member of the union other than the one last written is
    undefined. *)
Definition get_boolval (d : Datum) : result bool :=
  match d with boolval b => Ok b | _ => Undefined end.
Definition get_smallintval (d : Datum) : result Z :=
  match d with smallintval v => Ok v | _ => Undefined end.
Definition get_intval (d : Datum) : result Z :=
  match d with intval v => Ok v | _ => Undefined end.
Definition get_bigintval (d : Datum) : result Z :=
  match d with bigintval v => Ok v | _ => Undefined end.
Definition get_timeval (d : Datum) : result Z :=
  match d with timeval v => Ok v | _ => Undefined end.
Definition get_floatval (d : Datum) : result Z :=
  match d with floatval v => Ok v | _ => Undefined end.
Definition get_doubleval (d : Datum) : result Z :=
  match d with doubleval v => Ok v | _ => Undefined end.
Definition get_stringval (d : Datum) : result string_ptr :=
  match d with stringval s => Ok s | _ => Undefined end.

(** The heap of [std::string] objects: address [p] holds [Some s] while the
    string is allocated and [None] once it is deleted. *)
Abbreviation heap := (list (option string)).

(** [*p] *)
Definition deref (h : heap) (p : string_ptr) : result string :=
  match p with
  | Some a =>
      match h !! a with
      | Some (Some s) => Ok s
      | _ => Undefined
      end
  | None => Undefined
  end.

(** [new std::string(s)] *)
Definition new_string (h : heap) (s : string) : nat * heap :=
  (length h, h ++ [Some s]).

(** [delete p] *)
Definition delete_string (h : heap) (p : string_ptr) : result heap :=
  match p with
  | Some a =>
      match h !! a with
      | Some (Some _) => Ok (<[a := None]> h)
      | _ => Undefined
      end
  | None => Ok h
  end.

(** [*p = s] *)
Definition assign_string (h : heap) (p : string_ptr) (s : string) : result heap :=
  match p with
  | Some a =>
      match h !! a with
      | Some (Some _) => Ok (<[a := Some s]> h)
      | _ => Undefined
      end
  | None => Undefined
  end.

(** Two's complement value of the low [w] bits of [z]: the conversion to a
    signed integer type of width [w]. *)
Definition sint (w : Z) (z : Z) : Z :=
  (z + 2 ^ (w - 1)) mod 2 ^ w - 2 ^ (w - 1).

(** [static_cast<size_t>(z)] *)
Definition to_size_t (z : Z) : Z := z mod 2 ^ 64.

(** [s.substr(0, n)] *)
Definition substr0 (s : string) (n : Z) : string :=
  String.substring 0 (Z.to_nat n) s.

(** Modelled from the spec: the null sentinel [NULL_SMALLINT] of
    [Shared/sqltypes.h] is INT16_MIN. *)
Definition NULL_SMALLINT : Z := - 2 ^ 15.

(** Modelled from the spec: the null sentinel [NULL_INT] is INT32_MIN. *)
Definition NULL_INT : Z := - 2 ^ 31.

(** Modelled from the spec: the null sentinel [NULL_BIGINT] is
    INT64_MIN. *)
Definition NULL_BIGINT : Z := - 2 ^ 63.

(** Modelled from the spec: what the analyzer takes from the headers and
    modules that are not part of the sources, as parameters of the
    development: [TRANSIENT_DICT_ID], [TRANSIENT_DICT],
    [SQLTypeInfo::is_castable], the sentinels [NULL_BOOLEAN], [NULL_FLOAT]
    and [NULL_DOUBLE], the helpers [StringToDatum] and [DatumToString], and
    floating-point conversion, arithmetic and comparison (on bit
    patterns). *)
Record Externals : Type := mkExternals {
  TRANSIENT_DICT_ID : Z;
  TRANSIENT_DICT : Z -> Z;
  is_castable : SQLTypeInfo -> SQLTypeInfo -> bool;
  NULL_BOOLEAN : bool;
  NULL_FLOAT : Z;
  NULL_DOUBLE : Z;
  StringToDatum : string -> SQLTypeInfo -> result Datum;
  DatumToString : Datum -> SQLTypeInfo -> string;
  (** [(double)z] and [(float)z] for an integer [z] *)
  double_of_int : Z -> Z;
  float_of_int : Z -> Z;
  (** the integer part of a [double] and of a [float] *)
  int_of_double : Z -> Z;
  int_of_float : Z -> Z;
  double_of_float : Z -> Z;
  float_of_double : Z -> Z;
  (** [x * 10] and [x / 10] *)
  double_mul10 : Z -> Z;
  double_div10 : Z -> Z;
  float_mul10 : Z -> Z;
  float_div10 : Z -> Z;
  (** [x == y] *)
  double_eq : Z -> Z -> bool;
  float_eq : Z -> Z -> bool
}.

(** ** Expressions *)

(** Modelled from the spec: the enumeration [Var::WhichRow] of
    [Analyzer.h] is not part of the sources. *)
Inductive WhichRow : Type := kINPUT_OUTER | kINPUT_INNER | kOUTPUT | kGROUPBY.

(** Modelled from the spec: the enumeration [SQLAgg] of [Shared/sqldefs.h]
    is not part of the sources. *)
Inductive SQLAgg : Type := kAVG | kMIN | kMAX | kSUM | kCOUNT.

#[global] Instance WhichRow_eq_dec : EqDecision WhichRow.
Proof. solve_decision. Defined.
#[global] Instance SQLAgg_eq_dec : EqDecision SQLAgg.
Proof. solve_decision. Defined.

Scheme All for option.
Scheme All for list.
Scheme All for prod.

(** Modelled from the spec: the classes of the node family are declared
    in [Analyzer.h], which is not part of the sources; the variants and
    their members are those of the data model of the specification, under
    the names the sources use.  Every node carries the two members of the
    base class [Expr], [type_info] and [contains_agg], first.  A
    [std::shared_ptr] that the sources test against or set to [nullptr] is
    an [option]; the tree owns its children, so two handles denote two
    nodes. *)
Inductive Expr : Type :=
| ColumnVar (type_info : SQLTypeInfo) (contains_agg : bool)
    (table_id column_id rte_idx : Z)
| Var (type_info : SQLTypeInfo) (contains_agg : bool)
    (table_id column_id rte_idx : Z) (which_row : WhichRow) (varno : Z)
| Constant (type_info : SQLTypeInfo) (contains_agg : bool)
    (is_null : bool) (constval : Datum)
| UOper (type_info : SQLTypeInfo) (contains_agg : bool)
    (optype : SQLOps) (operand : option Expr)
| BinOper (type_info : SQLTypeInfo) (contains_agg : bool)
    (optype : SQLOps) (qualifier : SQLQualifier)
    (left_operand right_operand : Expr)
| Subquery (type_info : SQLTypeInfo) (contains_agg : bool)
| InValues (type_info : SQLTypeInfo) (contains_agg : bool)
    (arg : Expr) (value_list : list Expr)
| CharLengthExpr (type_info : SQLTypeInfo) (contains_agg : bool)
    (arg : Expr) (calc_encoded_length : bool)
| LikeExpr (type_info : SQLTypeInfo) (contains_agg : bool)
    (arg like_expr : Expr) (escape_expr : option Expr)
    (is_ilike is_simple : bool)
| AggExpr (type_info : SQLTypeInfo) (contains_agg : bool)
    (aggtype : SQLAgg) (arg : option Expr) (is_distinct : bool)
| CaseExpr (type_info : SQLTypeInfo) (contains_agg : bool)
    (expr_pair_list : list (Expr * Expr)) (else_expr : option Expr)
| ExtractExpr (type_info : SQLTypeInfo) (contains_agg : bool)
    (field : Z) (from_expr : Expr)
| DatetruncExpr (type_info : SQLTypeInfo) (contains_agg : bool)
    (field : Z) (from_expr : Expr).

Definition get_type_info (e : Expr) : SQLTypeInfo :=
  match e with
  | ColumnVar ti _ _ _ _ | Var ti _ _ _ _ _ _ | Constant ti _ _ _
  | UOper ti _ _ _ | BinOper ti _ _ _ _ _ | Subquery ti _
  | InValues ti _ _ _ | CharLengthExpr ti _ _ _ | LikeExpr ti _ _ _ _ _ _
  | AggExpr ti _ _ _ _ | CaseExpr ti _ _ _ | ExtractExpr ti _ _ _
  | DatetruncExpr ti _ _ _ => ti
  end.

Definition get_contains_agg (e : Expr) : bool :=
  match e with
  | ColumnVar _ ca _ _ _ | Var _ ca _ _ _ _ _ | Constant _ ca _ _
  | UOper _ ca _ _ | BinOper _ ca _ _ _ _ | Subquery _ ca
  | InValues _ ca _ _ | CharLengthExpr _ ca _ _ | LikeExpr _ ca _ _ _ _ _
  | AggExpr _ ca _ _ _ | CaseExpr _ ca _ _ | ExtractExpr _ ca _ _
  | DatetruncExpr _ ca _ _ => ca
  end.

Definition is_Constant (e : Expr) : bool :=
  match e with Constant _ _ _ _ => true | _ => false end.

Definition is_Subquery (e : Expr) : bool :=
  match e with Subquery _ _ => true | _ => false end.

(** How [add_cast] hands back its [std::shared_ptr<Expr>] result:
    [shared_from_this] is the receiver itself, [other e] another node [e]
    (a node just made, or one the receiver held). *)
Inductive handle : Type :=
| shared_from_this
| other (e : Expr).

(** The node a handle denotes, given the receiver's state after the call. *)
Definition pointee (this : Expr) (r : handle) : Expr :=
  match r with
  | shared_from_this => this
  | other e => e
  end.

(** [n] rounds of a loop body [f]: [for (int i = 0; i < n; i++) x = f(x);] *)
Definition loop {A : Type} (n : Z) (f : A -> A) (x : A) : A :=
  Nat.iter (Z.to_nat n) f x.

(** [v *= 10] and [v /= 10] on an [int64_t]; the product wraps. *)
Definition mul10 (v : Z) : Z := sint 64 (v * 10).
Definition div10 (v : Z) : Z := Z.quot v 10.

Section Analyzer.

Variable X : Externals.

(** *** Literals *)

(** [Constant::set_null_value]: the payload of a null literal of type
    [ti]. *)
Definition set_null_value (ti : SQLTypeInfo) (h : heap) : Datum * heap :=
  match get_type ti with
  | kBOOLEAN => (boolval (NULL_BOOLEAN X), h)
  | kINT => (intval NULL_INT, h)
  | kSMALLINT => (smallintval NULL_SMALLINT, h)
  | kBIGINT | kNUMERIC | kDECIMAL => (bigintval NULL_BIGINT, h)
  | kTIME | kTIMESTAMP | kDATE => (timeval NULL_BIGINT, h)
  | kVARCHAR | kCHAR | kTEXT =>
      let '(p, h') := new_string h ""%string in (stringval (Some p), h')
  | kFLOAT => (floatval (NULL_FLOAT X), h)
  | kDOUBLE => (doubleval (NULL_DOUBLE X), h)
  | kNULLT => (bigintval 0, h)
  end.

(** [Constant::cast_number]: the new [type_info] and [constval]. *)
Definition cast_number (type_info : SQLTypeInfo) (constval : Datum)
    (new_type_info : SQLTypeInfo) : result (SQLTypeInfo * Datum) :=
  perform constval' :=
    match get_type type_info with
    | kINT =>
        match get_type new_type_info with
        | kINT => Ok constval
        | kSMALLINT =>
            perform v := get_intval constval in Ok (smallintval (sint 16 v))
        | kBIGINT =>
            perform v := get_intval constval in Ok (bigintval (sint 64 v))
        | kDOUBLE =>
            perform v := get_intval constval in Ok (doubleval (double_of_int X v))
        | kFLOAT =>
            perform v := get_intval constval in Ok (floatval (float_of_int X v))
        | kNUMERIC | kDECIMAL =>
            perform v := get_intval constval in
            Ok (bigintval (loop (get_scale new_type_info) mul10 (sint 64 v)))
        | _ => Abort
        end
    | kSMALLINT =>
        match get_type new_type_info with
        | kINT =>
            perform v := get_smallintval constval in Ok (intval (sint 32 v))
        | kSMALLINT => Ok constval
        | kBIGINT =>
            perform v := get_smallintval constval in Ok (bigintval (sint 64 v))
        | kDOUBLE =>
            perform v := get_smallintval constval in Ok (doubleval (double_of_int X v))
        | kFLOAT =>
            perform v := get_smallintval constval in Ok (floatval (float_of_int X v))
        | kNUMERIC | kDECIMAL =>
            perform v := get_smallintval constval in
            Ok (bigintval (loop (get_scale new_type_info) mul10 (sint 64 v)))
        | _ => Abort
        end
    | kBIGINT =>
        match get_type new_type_info with
        | kINT =>
            perform v := get_bigintval constval in Ok (intval (sint 32 v))
        | kSMALLINT =>
            perform v := get_bigintval constval in Ok (smallintval (sint 16 v))
        | kBIGINT => Ok constval
        | kDOUBLE =>
            perform v := get_bigintval constval in Ok (doubleval (double_of_int X v))
        | kFLOAT =>
            perform v := get_bigintval constval in Ok (floatval (float_of_int X v))
        | kNUMERIC | kDECIMAL =>
            perform v := get_bigintval constval in
            Ok (bigintval (loop (get_scale new_type_info) mul10 v))
        | _ => Abort
        end
    | kDOUBLE =>
        match get_type new_type_info with
        | kINT =>
            perform v := get_doubleval constval in
            Ok (intval (sint 32 (int_of_double X v)))
        | kSMALLINT =>
            perform v := get_doubleval constval in
            Ok (smallintval (sint 16 (int_of_double X v)))
        | kBIGINT =>
            perform v := get_doubleval constval in
            Ok (bigintval (sint 64 (int_of_double X v)))
        | kDOUBLE => Ok constval
        | kFLOAT =>
            perform v := get_doubleval constval in
            Ok (floatval (float_of_double X v))
        | kNUMERIC | kDECIMAL =>
            perform v := get_doubleval constval in
            Ok (bigintval (sint 64 (int_of_double X
                  (loop (get_scale new_type_info) (double_mul10 X) v))))
        | _ => Abort
        end
    | kFLOAT =>
        match get_type new_type_info with
        | kINT =>
            perform v := get_floatval constval in
            Ok (intval (sint 32 (int_of_float X v)))
        | kSMALLINT =>
            perform v := get_floatval constval in
            Ok (smallintval (sint 16 (int_of_float X v)))
        | kBIGINT =>
            perform v := get_floatval constval in
            Ok (bigintval (sint 64 (int_of_float X v)))
        | kDOUBLE =>
            perform v := get_floatval constval in
            Ok (doubleval (double_of_float X v))
        | kFLOAT => Ok constval
        | kNUMERIC | kDECIMAL =>
            perform v := get_floatval constval in
            Ok (bigintval (sint 64 (int_of_float X
                  (loop (get_scale new_type_info) (float_mul10 X) v))))
        | _ => Abort
        end
    | kNUMERIC | kDECIMAL =>
        match get_type new_type_info with
        | kINT =>
            perform v := get_bigintval constval in
            Ok (intval (sint 32 (loop (get_scale type_info) div10 v)))
        | kSMALLINT =>
            perform v := get_bigintval constval in
            Ok (smallintval (sint 16 (loop (get_scale type_info) div10 v)))
        | kBIGINT =>
            perform v := get_bigintval constval in
            Ok (bigintval (loop (get_scale type_info) div10 v))
        | kDOUBLE =>
            perform v := get_bigintval constval in
            Ok (doubleval (loop (get_scale type_info) (double_div10 X)
                             (double_of_int X v)))
        | kFLOAT =>
            perform v := get_bigintval constval in
            Ok (floatval (loop (get_scale type_info) (float_div10 X)
                            (float_of_int X v)))
        | kNUMERIC | kDECIMAL =>
            if bool_decide (get_scale new_type_info > get_scale type_info) then
              perform v := get_bigintval constval in
              Ok (bigintval
                    (loop (get_scale new_type_info - get_scale type_info) mul10 v))
            else if bool_decide (get_scale new_type_info < get_scale type_info) then
              perform v := get_bigintval constval in
              Ok (bigintval
                    (loop (get_scale type_info - get_scale new_type_info) div10 v))
            else Ok constval
        | _ => Abort
        end
    | kTIMESTAMP =>
        match get_type new_type_info with
        | kINT =>
            perform v := get_timeval constval in Ok (intval (sint 32 v))
        | kSMALLINT =>
            perform v := get_timeval constval in Ok (smallintval (sint 16 v))
        | kBIGINT =>
            perform v := get_timeval constval in Ok (bigintval (sint 64 v))
        | kDOUBLE =>
            perform v := get_timeval constval in Ok (doubleval (double_of_int X v))
        | kFLOAT =>
            perform v := get_timeval constval in Ok (floatval (float_of_int X v))
        | kNUMERIC | kDECIMAL =>
            perform v := get_timeval constval in
            Ok (bigintval (loop (get_scale new_type_info) mul10 (sint 64 v)))
        | _ => Abort
        end
    | kBOOLEAN =>
        match get_type new_type_info with
        | kINT =>
            perform b := get_boolval constval in Ok (intval (if b then 1 else 0))
        | kSMALLINT =>
            perform b := get_boolval constval in Ok (smallintval (if b then 1 else 0))
        | kBIGINT =>
            perform b := get_boolval constval in Ok (bigintval (if b then 1 else 0))
        | kDOUBLE =>
            perform b := get_boolval constval in
            Ok (doubleval (double_of_int X (if b then 1 else 0)))
        | kFLOAT =>
            perform b := get_boolval constval in
            Ok (floatval (float_of_int X (if b then 1 else 0)))
        | kNUMERIC | kDECIMAL =>
            perform b := get_boolval constval in
            Ok (bigintval (loop (get_scale new_type_info) mul10 (if b then 1 else 0)))
        | _ => Abort
        end
    | _ => Abort
    end in
  Ok (new_type_info, constval').

(** [Constant::cast_string] *)
Definition cast_string (constval : Datum) (h : heap)
    (new_type_info : SQLTypeInfo) : result (SQLTypeInfo * Datum * heap) :=
  perform s := get_stringval constval in
  if bool_decide (s ≠ None) && bool_decide (get_type new_type_info ≠ kTEXT) then
    perform str := deref h s in
    if bool_decide (to_size_t (get_dimension new_type_info)
                    < Z.of_nat (String.length str)) then
      (* truncate string *)
      let '(p, h1) :=
        new_string h (substr0 str (to_size_t (get_dimension new_type_info))) in
      perform h2 := delete_string h1 s in
      Ok (new_type_info, stringval (Some p), h2)
    else Ok (new_type_info, constval, h)
  else Ok (new_type_info, constval, h).

(** [Constant::cast_from_string] *)
Definition cast_from_string (constval : Datum) (h : heap)
    (new_type_info : SQLTypeInfo) : result (SQLTypeInfo * Datum * heap) :=
  perform s := get_stringval constval in
  perform str := deref h s in
  perform d := StringToDatum X str new_type_info in
  perform h1 := delete_string h s in
  Ok (new_type_info, d, h1).

(** [Constant::cast_to_string]: the member [stringval] is overwritten with
    the new string's address before [DatumToString] reads [constval]. *)
Definition cast_to_string (type_info : SQLTypeInfo) (h : heap)
    (str_type_info : SQLTypeInfo) : result (SQLTypeInfo * Datum * heap) :=
  let '(p, h1) := new_string h ""%string in
  let constval := stringval (Some p) in
  perform h2 := assign_string h1 (Some p) (DatumToString X constval type_info) in
  perform str := deref h2 (Some p) in
  perform h3 :=
    (if bool_decide (get_type str_type_info ≠ kTEXT)
        && bool_decide (Z.of_nat (String.length str)
                        > to_size_t (get_dimension str_type_info))
     then
       (* truncate the string *)
       assign_string h2 (Some p)
         (substr0 str (to_size_t (get_dimension str_type_info)))
     else Ok h2) in
  Ok (str_type_info, constval, h3).

(** [Constant::do_cast] *)
Definition do_cast (type_info : SQLTypeInfo) (constval : Datum) (h : heap)
    (new_type_info : SQLTypeInfo) : result (SQLTypeInfo * Datum * heap) :=
  if ti_eqb type_info new_type_info then Ok (type_info, constval, h)
  else if is_number new_type_info
          && (is_number type_info
              || bool_decide (get_type type_info = kTIMESTAMP)
              || bool_decide (get_type type_info = kBOOLEAN)) then
    perform '(ti, d) := cast_number type_info constval new_type_info in
    Ok (ti, d, h)
  else if is_string new_type_info && is_string type_info then
    cast_string constval h new_type_info
  else if is_string type_info then
    cast_from_string constval h new_type_info
  else if is_string new_type_info then
    cast_to_string type_info h new_type_info
  else Throw "Invalid cast.".

(** *** Constructors

    The constructors that do not take [type_info] and [contains_agg] as they
    are; they are declared in [Analyzer.h]. *)

(** Modelled from the spec: the constructor of [ColumnVar] is not part of
    the sources; a leaf has [contains_agg = false]. *)
Definition makeColumnVar (ti : SQLTypeInfo) (table_id column_id rte_idx : Z) : Expr :=
  ColumnVar ti false table_id column_id rte_idx.

(** Modelled from the spec: the constructor of [Var] is not part of the
    sources; a leaf has [contains_agg = false]. *)
Definition makeVar (ti : SQLTypeInfo) (table_id column_id rte_idx : Z)
    (which_row : WhichRow) (varno : Z) : Expr :=
  Var ti false table_id column_id rte_idx which_row varno.

(** Modelled from the spec: the constructor of [Constant] is not part of
    the sources; a null literal holds the null sentinel of its kind, so the
    constructor ends with [set_null_value] when [is_null] is set. *)
Definition makeConstant (ti : SQLTypeInfo) (is_null : bool) (d : Datum)
    (h : heap) : Expr * heap :=
  if is_null then
    let '(d', h') := set_null_value ti h in (Constant ti false is_null d', h')
  else (Constant ti false is_null d, h).

(** Modelled from the spec: the constructor of [InValues] is not part of
    the sources; an IN predicate is BOOLEAN, nullable as its argument is. *)
Definition makeInValues (arg : Expr) (value_list : list Expr) : Expr :=
  InValues (SQLTypeInfo2 kBOOLEAN (get_notnull (get_type_info arg))) false
    arg value_list.

(** Modelled from the spec: the constructor of [CharLengthExpr] is not
    part of the sources; a length is INT, nullable as its argument is. *)
Definition makeCharLengthExpr (arg : Expr) (calc_encoded_length : bool) : Expr :=
  CharLengthExpr (SQLTypeInfo2 kINT (get_notnull (get_type_info arg))) false
    arg calc_encoded_length.

(** Modelled from the spec: the constructor of [LikeExpr] is not part of
    the sources; a LIKE predicate is BOOLEAN, nullable as its argument
    is. *)
Definition makeLikeExpr (arg like_expr : Expr) (escape_expr : option Expr)
    (is_ilike is_simple : bool) : Expr :=
  LikeExpr (SQLTypeInfo2 kBOOLEAN (get_notnull (get_type_info arg))) false
    arg like_expr escape_expr is_ilike is_simple.

(** Modelled from the spec: the constructor of [AggExpr] is not part of
    the sources; an [AggExpr] has [contains_agg = true]. *)
Definition makeAggExpr (ti : SQLTypeInfo) (aggtype : SQLAgg)
    (arg : option Expr) (is_distinct : bool) : Expr :=
  AggExpr ti true aggtype arg is_distinct.

(** *** deep_copy

    The arguments of a constructor call are copied from left to right. *)

(** The loop of [InValues::deep_copy] over [value_list]:
    [new_value_list.push_back(p->deep_copy())], [copy] being
    [deep_copy]. *)
Definition copy_values (copy : Expr -> heap -> result (Expr * heap))
    : list Expr -> heap -> result (list Expr * heap) :=
  fix each (l : list Expr) (h : heap) :=
    match l with
    | [] => Ok ([], h)
    | p :: l' =>
        perform '(p', h1) := copy p h in
        perform '(l'', h2) := each l' h1 in
        Ok (p' :: l'', h2)
    end.

(** The loop of [CaseExpr::deep_copy] over [expr_pair_list]. *)
Definition copy_pairs (copy : Expr -> heap -> result (Expr * heap))
    : list (Expr * Expr) -> heap -> result (list (Expr * Expr) * heap) :=
  fix each (l : list (Expr * Expr)) (h : heap) :=
    match l with
    | [] => Ok ([], h)
    | (first, second) :: l' =>
        perform '(first', h1) := copy first h in
        perform '(second', h2) := copy second h1 in
        perform '(l'', h3) := each l' h2 in
        Ok ((first', second') :: l'', h3)
    end.

Fixpoint deep_copy (this : Expr) (h : heap) {struct this} : result (Expr * heap) :=
  match this with
  | ColumnVar type_info _ table_id column_id rte_idx =>
      Ok (makeColumnVar type_info table_id column_id rte_idx, h)
  | Var type_info _ table_id column_id rte_idx which_row varno =>
      Ok (makeVar type_info table_id column_id rte_idx which_row varno, h)
  | Constant type_info _ is_null constval =>
      perform '(d, h1) :=
        (if is_string type_info && negb is_null then
           perform s := get_stringval constval in
           perform str := deref h s in
           let '(p, h1) := new_string h str in
           Ok (stringval (Some p), h1)
         else Ok (constval, h)) in
      Ok (makeConstant type_info is_null d h1)
  | UOper type_info contains_agg optype operand =>
      match operand with
      | None => Undefined
      | Some o =>
          perform '(o', h1) := deep_copy o h in
          Ok (UOper type_info contains_agg optype (Some o'), h1)
      end
  | BinOper type_info contains_agg optype qualifier left_operand right_operand =>
      perform '(l', h1) := deep_copy left_operand h in
      perform '(r', h2) := deep_copy right_operand h1 in
      Ok (BinOper type_info contains_agg optype qualifier l' r', h2)
  | Subquery _ _ =>
      (* not supported yet. *)
      Abort
  | InValues _ _ arg value_list =>
      perform '(new_value_list, h1) := copy_values deep_copy value_list h in
      perform '(arg', h2) := deep_copy arg h1 in
      Ok (makeInValues arg' new_value_list, h2)
  | CharLengthExpr _ _ arg calc_encoded_length =>
      perform '(arg', h1) := deep_copy arg h in
      Ok (makeCharLengthExpr arg' calc_encoded_length, h1)
  | LikeExpr _ _ arg like_expr escape_expr is_ilike is_simple =>
      perform '(arg', h1) := deep_copy arg h in
      perform '(like_expr', h2) := deep_copy like_expr h1 in
      perform '(escape_expr', h3) :=
        match escape_expr with
        | Some e => perform '(e', h3) := deep_copy e h2 in Ok (Some e', h3)
        | None => Ok (None, h2)
        end in
      Ok (makeLikeExpr arg' like_expr' escape_expr' is_ilike is_simple, h3)
  | AggExpr type_info _ aggtype arg is_distinct =>
      perform '(arg', h1) :=
        match arg with
        | None => Ok (None, h)
        | Some a => perform '(a', h1) := deep_copy a h in Ok (Some a', h1)
        end in
      Ok (makeAggExpr type_info aggtype arg' is_distinct, h1)
  | CaseExpr type_info contains_agg expr_pair_list else_expr =>
      perform '(new_list, h1) := copy_pairs deep_copy expr_pair_list h in
      perform '(else_expr', h2) :=
        match else_expr with
        | None => Ok (None, h1)
        | Some e => perform '(e', h2) := deep_copy e h1 in Ok (Some e', h2)
        end in
      Ok (CaseExpr type_info contains_agg new_list else_expr', h2)
  | ExtractExpr type_info contains_agg field from_expr =>
      perform '(from_expr', h1) := deep_copy from_expr h in
      Ok (ExtractExpr type_info contains_agg field from_expr', h1)
  | DatetruncExpr type_info contains_agg field from_expr =>
      perform '(from_expr', h1) := deep_copy from_expr h in
      Ok (DatetruncExpr type_info contains_agg field from_expr', h1)
  end.

(** *** operator==

    The two operands are distinct nodes: a comparison of two handles
    ([get() == get()]) holds only when both are null. *)

(** [Datum_equal] *)
Definition Datum_equal (h : heap) (ti : SQLTypeInfo) (val1 val2 : Datum) : result bool :=
  match get_type ti with
  | kBOOLEAN =>
      perform a := get_boolval val1 in
      perform b := get_boolval val2 in
      Ok (bool_decide (a = b))
  | kCHAR | kVARCHAR | kTEXT =>
      perform p := get_stringval val1 in
      perform q := get_stringval val2 in
      perform a := deref h p in
      perform b := deref h q in
      Ok (bool_decide (a = b))
  | kNUMERIC | kDECIMAL | kBIGINT =>
      perform a := get_bigintval val1 in
      perform b := get_bigintval val2 in
      Ok (bool_decide (a = b))
  | kINT =>
      perform a := get_intval val1 in
      perform b := get_intval val2 in
      Ok (bool_decide (a = b))
  | kSMALLINT =>
      perform a := get_smallintval val1 in
      perform b := get_smallintval val2 in
      Ok (bool_decide (a = b))
  | kFLOAT =>
      perform a := get_floatval val1 in
      perform b := get_floatval val2 in
      Ok (float_eq X a b)
  | kDOUBLE =>
      perform a := get_doubleval val1 in
      perform b := get_doubleval val2 in
      Ok (double_eq X a b)
  | kTIME | kTIMESTAMP =>
      perform a := get_timeval val1 in
      perform b := get_timeval val2 in
      Ok (bool_decide (a = b))
  | _ => Abort
  end.

(** [dynamic_cast<const Var*>]: the members [which_row] and [varno]. *)
Definition as_Var (e : Expr) : option (WhichRow * Z) :=
  match e with
  | Var _ _ _ _ _ which_row varno => Some (which_row, varno)
  | _ => None
  end.

(** [ColumnVar::operator==], which [Var] inherits; the receiver has the
    members [table_id], [column_id] and [rte_idx]. *)
Definition ColumnVar_equal (this : Expr) (table_id column_id rte_idx : Z)
    (rhs : Expr) : bool :=
  match rhs with
  | ColumnVar _ _ rhs_table_id rhs_column_id rhs_rte_idx
  | Var _ _ rhs_table_id rhs_column_id rhs_rte_idx _ _ =>
      if bool_decide (rte_idx ≠ -1) then
        bool_decide (table_id = rhs_table_id)
        && bool_decide (column_id = rhs_column_id)
        && bool_decide (rte_idx = rhs_rte_idx)
      else
        match as_Var this with
        | None => false
        | Some (which_row, varno) =>
            match as_Var rhs with
            | None => false
            | Some (rhs_which_row, rhs_varno) =>
                bool_decide (which_row = rhs_which_row)
                && bool_decide (varno = rhs_varno)
            end
        end
  | _ => false
  end.

(** The loop of [InValues::operator==] over the two value lists, which
    have the same length; [eq] is the comparison of two nodes. *)
Definition equal_values (eq : Expr -> Expr -> result bool)
    : list Expr -> list Expr -> result bool :=
  fix each (l q : list Expr) :=
    match l with
    | [] => Ok true
    | p :: l' =>
        match q with
        | [] => Undefined
        | q0 :: q' =>
            perform b := eq p q0 in
            if negb b then Ok false else each l' q'
        end
    end.

(** The loop of [CaseExpr::operator==] over the two lists of pairs, which
    have the same length. *)
Definition equal_pairs (eq : Expr -> Expr -> result bool)
    : list (Expr * Expr) -> list (Expr * Expr) -> result bool :=
  fix each (l it : list (Expr * Expr)) :=
    match l with
    | [] => Ok true
    | (first, second) :: l' =>
        match it with
        | [] => Undefined
        | (it_first, it_second) :: it' =>
            perform b := eq first it_first in
            if negb b then Ok false
            else
              perform b := eq second it_second in
              if negb b then Ok false else each l' it'
        end
    end.

(** [*this == rhs] *)
Fixpoint equals (h : heap) (this rhs : Expr) {struct this} : result bool :=
  match this with
  | ColumnVar _ _ table_id column_id rte_idx
  | Var _ _ table_id column_id rte_idx _ _ =>
      Ok (ColumnVar_equal this table_id column_id rte_idx rhs)
  | Constant type_info _ is_null constval =>
      match rhs with
      | Constant rhs_type_info _ rhs_is_null rhs_constval =>
          if negb (ti_eqb type_info rhs_type_info)
             || negb (bool_decide (is_null = rhs_is_null))
          then Ok false
          else Datum_equal h type_info constval rhs_constval
      | _ => Ok false
      end
  | UOper _ _ optype operand =>
      match rhs with
      | UOper _ _ rhs_optype rhs_operand =>
          if bool_decide (optype = rhs_optype) then
            match operand, rhs_operand with
            | Some o, Some ro => equals h o ro
            | _, _ => Undefined
            end
          else Ok false
      | _ => Ok false
      end
  | BinOper _ _ optype _ left_operand right_operand =>
      match rhs with
      | BinOper _ _ rhs_optype _ rhs_left_operand rhs_right_operand =>
          if bool_decide (optype = rhs_optype) then
            perform b := equals h left_operand rhs_left_operand in
            if b then equals h right_operand rhs_right_operand else Ok false
          else Ok false
      | _ => Ok false
      end
  | Subquery _ _ =>
      (* Modelled from the spec: the comparison of a Subquery is declared in
         Analyzer.h; operations on the placeholder are unsupported. *)
      Abort
  | CharLengthExpr _ _ arg calc_encoded_length =>
      match rhs with
      | CharLengthExpr _ _ rhs_arg rhs_calc_encoded_length =>
          perform b := equals h arg rhs_arg in
          if negb b || negb (bool_decide (calc_encoded_length = rhs_calc_encoded_length))
          then Ok false
          else Ok true
      | _ => Ok false
      end
  | LikeExpr _ _ arg like_expr escape_expr is_ilike _ =>
      match rhs with
      | LikeExpr _ _ rhs_arg rhs_like_expr rhs_escape_expr rhs_is_ilike _ =>
          perform b := equals h arg rhs_arg in
          if negb b then Ok false
          else
            perform b := equals h like_expr rhs_like_expr in
            if negb b || negb (bool_decide (is_ilike = rhs_is_ilike)) then Ok false
            else
              match escape_expr, rhs_escape_expr with
              | None, None => Ok true
              | Some e, Some re => equals h e re
              | _, _ => Ok false
              end
      | _ => Ok false
      end
  | InValues _ _ arg value_list =>
      match rhs with
      | InValues _ _ rhs_arg rhs_value_list =>
          perform b := equals h arg rhs_arg in
          if negb b then Ok false
          else if negb (bool_decide (length value_list = length rhs_value_list))
          then Ok false
          else equal_values (equals h) value_list rhs_value_list
      | _ => Ok false
      end
  | AggExpr _ _ aggtype arg is_distinct =>
      match rhs with
      | AggExpr _ _ rhs_aggtype rhs_arg rhs_is_distinct =>
          if negb (bool_decide (aggtype = rhs_aggtype))
             || negb (bool_decide (is_distinct = rhs_is_distinct))
          then Ok false
          else
            match arg, rhs_arg with
            | None, None => Ok true
            | Some a, Some ra => equals h a ra
            | _, _ => Ok false
            end
      | _ => Ok false
      end
  | CaseExpr _ _ expr_pair_list else_expr =>
      match rhs with
      | CaseExpr _ _ rhs_expr_pair_list rhs_else_expr =>
          if negb (bool_decide (length expr_pair_list = length rhs_expr_pair_list))
          then Ok false
          else if negb (bool_decide (is_Some else_expr <-> is_Some rhs_else_expr))
          then Ok false
          else
            perform b := equal_pairs (equals h) expr_pair_list rhs_expr_pair_list in
            if negb b then Ok false
            else
              match else_expr, rhs_else_expr with
              | None, _ => Ok true
              | Some e, Some re => equals h e re
              | Some _, None => Undefined
              end
      | _ => Ok false
      end
  | ExtractExpr _ _ field from_expr =>
      match rhs with
      | ExtractExpr _ _ rhs_field rhs_from_expr =>
          if bool_decide (field = rhs_field) then equals h from_expr rhs_from_expr
          else Ok false
      | _ => Ok false
      end
  | DatetruncExpr _ _ field from_expr =>
      match rhs with
      | DatetruncExpr _ _ rhs_field rhs_from_expr =>
          if bool_decide (field = rhs_field) then equals h from_expr rhs_from_expr
          else Ok false
      | _ => Ok false
      end
  end.

(** *** add_cast *)

(** [Expr::add_cast], the implementation of the base class: the receiver is
    not changed. *)
Definition Expr_add_cast (this : Expr) (new_type_info : SQLTypeInfo) : result handle :=
  let type_info := get_type_info this in
  if ti_eqb new_type_info type_info then Ok shared_from_this
  else if is_string new_type_info && is_string type_info
          && bool_decide (get_compression new_type_info = kENCODING_DICT)
          && bool_decide (get_compression type_info = kENCODING_DICT)
          && (bool_decide (get_comp_param new_type_info = get_comp_param type_info)
              || bool_decide (get_comp_param new_type_info
                              = TRANSIENT_DICT X (get_comp_param type_info)))
  then Ok shared_from_this
  else if negb (is_castable X type_info new_type_info) then
    Throw ("Cannot CAST from " +:+ get_type_name type_info +:+ " to "
           +:+ get_type_name new_type_info)
  else if negb (is_Constant this) && is_string new_type_info
          && bool_decide (get_compression new_type_info = kENCODING_DICT)
          && bool_decide (get_comp_param new_type_info <= TRANSIENT_DICT_ID X)
  then
    if is_string type_info
       && bool_decide (get_compression type_info ≠ kENCODING_DICT)
    then Throw "Cannot group by string columns which are not dictionary encoded."
    else Throw "Internal error: Cannot apply transient dictionary encoding to non-literal expression yet."
  else Ok (other (UOper new_type_info (get_contains_agg this) kCAST (Some this))).

(** The type [CaseExpr::add_cast] casts the branches to: the local [ti]. *)
Definition CaseExpr_cast_type (type_info new_type_info : SQLTypeInfo) : SQLTypeInfo :=
  if is_string new_type_info
     && bool_decide (get_compression new_type_info = kENCODING_DICT)
     && bool_decide (get_comp_param new_type_info = TRANSIENT_DICT_ID X)
     && is_string type_info
     && bool_decide (get_compression type_info = kENCODING_NONE)
     && bool_decide (get_comp_param type_info > TRANSIENT_DICT_ID X)
  then set_comp_param new_type_info (TRANSIENT_DICT X (get_comp_param type_info))
  else new_type_info.

(** The loop of [CaseExpr::add_cast] over [expr_pair_list]:
    [p.second = p.second->add_cast(ti)] for every pair, [cast] being
    [add_cast(ti)]. *)
Definition cast_pairs (cast : Expr -> heap -> result (Expr * heap * handle))
    : list (Expr * Expr) -> heap -> result (list (Expr * Expr) * heap) :=
  fix each (l : list (Expr * Expr)) (h : heap) :=
    match l with
    | [] => Ok ([], h)
    | (first, second) :: l' =>
        perform '(second1, h1, r) := cast second h in
        perform '(l1, h2) := each l' h1 in
        Ok ((first, pointee second1 r) :: l1, h2)
    end.

(** [add_cast] with its overrides in [Constant], [UOper], [CaseExpr] and
    [Subquery]: the receiver after the call, the heap after the call and
    the handle returned. *)
Fixpoint add_cast (this : Expr) (h : heap) (new_type_info : SQLTypeInfo)
    {struct this} : result (Expr * heap * handle) :=
  match this with
  | Constant type_info contains_agg is_null constval =>
      if is_null then
        let '(d, h1) := set_null_value new_type_info h in
        Ok (Constant new_type_info contains_agg is_null d, h1, shared_from_this)
      else if bool_decide (get_compression new_type_info ≠ get_compression type_info) then
        perform '(ti1, d1, h1) :=
          (if bool_decide (get_compression new_type_info ≠ kENCODING_NONE) then
             let new_ti := set_compression new_type_info kENCODING_NONE in
             do_cast type_info constval h new_ti
           else Ok (type_info, constval, h)) in
        let this1 := Constant ti1 contains_agg is_null d1 in
        perform r := Expr_add_cast this1 new_type_info in
        Ok (this1, h1, r)
      else
        perform '(ti1, d1, h1) := do_cast type_info constval h new_type_info in
        Ok (Constant ti1 contains_agg is_null d1, h1, shared_from_this)
  | UOper type_info contains_agg optype operand =>
      if bool_decide (optype ≠ kCAST) then
        perform r := Expr_add_cast this new_type_info in Ok (this, h, r)
      else if is_string type_info && is_string new_type_info
              && bool_decide (get_compression new_type_info = kENCODING_DICT)
              && bool_decide (get_compression type_info = kENCODING_NONE) then
        match operand with
        | None => Undefined
        | Some o =>
            let oti := get_type_info o in
            if is_string oti
               && bool_decide (get_compression oti = kENCODING_DICT)
               && (bool_decide (get_comp_param oti = get_comp_param new_type_info)
                   || bool_decide (get_comp_param oti
                                   = TRANSIENT_DICT X (get_comp_param new_type_info)))
            then
              let result := o in
              Ok (UOper type_info contains_agg optype None, h, other result)
            else
              perform r := Expr_add_cast this new_type_info in Ok (this, h, r)
        end
      else
        perform r := Expr_add_cast this new_type_info in Ok (this, h, r)
  | CaseExpr type_info contains_agg expr_pair_list else_expr =>
      let ti := CaseExpr_cast_type type_info new_type_info in
      perform '(expr_pair_list1, h1) :=
        cast_pairs (fun second h => add_cast second h ti) expr_pair_list h in
      perform '(else_expr1, h2) :=
        match else_expr with
        | Some e =>
            perform '(e1, h2, r) := add_cast e h1 ti in
            Ok (Some (pointee e1 r), h2)
        | None => Ok (None, h1)
        end in
      Ok (CaseExpr ti contains_agg expr_pair_list1 else_expr1, h2, shared_from_this)
  | Subquery _ _ =>
      (* not supported yet. *)
      Abort
  | _ =>
      perform r := Expr_add_cast this new_type_info in Ok (this, h, r)
  end.

(** *** collect_rte_idx and group_predicates *)

(** [collect_rte_idx]: the overrides of [CaseExpr], [ExtractExpr] and
    [DatetruncExpr] are in the sources.

    Modelled from the spec: the other overrides are declared in
    [Analyzer.h], which is not part of the sources; [collect_rte_idx] is the
    transitive union of the [rte_idx] values in the reachable [ColumnVar]
    leaves. *)
Fixpoint collect_rte_idx (this : Expr) (rte_idx_set : gset Z) {struct this}
    : result (gset Z) :=
  match this with
  | ColumnVar _ _ _ _ rte_idx | Var _ _ _ _ rte_idx _ _ =>
      Ok ({[ rte_idx ]} ∪ rte_idx_set)
  | Constant _ _ _ _ | Subquery _ _ => Ok rte_idx_set
  | UOper _ _ _ operand =>
      match operand with
      | Some o => collect_rte_idx o rte_idx_set
      | None => Undefined
      end
  | BinOper _ _ _ _ left_operand right_operand =>
      perform s1 := collect_rte_idx left_operand rte_idx_set in
      collect_rte_idx right_operand s1
  | InValues _ _ arg value_list =>
      perform s1 := collect_rte_idx arg rte_idx_set in
      (fix each (l : list Expr) (s : gset Z) : result (gset Z) :=
         match l with
         | [] => Ok s
         | p :: l' => perform s1 := collect_rte_idx p s in each l' s1
         end) value_list s1
  | CharLengthExpr _ _ arg _ => collect_rte_idx arg rte_idx_set
  | LikeExpr _ _ arg like_expr escape_expr _ _ =>
      perform s1 := collect_rte_idx arg rte_idx_set in
      perform s2 := collect_rte_idx like_expr s1 in
      match escape_expr with
      | Some e => collect_rte_idx e s2
      | None => Ok s2
      end
  | AggExpr _ _ _ arg _ =>
      match arg with
      | Some a => collect_rte_idx a rte_idx_set
      | None => Ok rte_idx_set
      end
  | CaseExpr _ _ expr_pair_list else_expr =>
      perform s1 :=
        (fix each (l : list (Expr * Expr)) (s : gset Z) : result (gset Z) :=
           match l with
           | [] => Ok s
           | (first, second) :: l' =>
               perform s1 := collect_rte_idx first s in
               perform s2 := collect_rte_idx second s1 in
               each l' s2
           end) expr_pair_list rte_idx_set in
      match else_expr with
      | Some e => collect_rte_idx e s1
      | None => Ok s1
      end
  | ExtractExpr _ _ _ from_expr => collect_rte_idx from_expr rte_idx_set
  | DatetruncExpr _ _ _ from_expr => collect_rte_idx from_expr rte_idx_set
  end.

(** The three lists [group_predicates] appends to. *)
Record predicates : Type := mkPredicates {
  scan_predicates : list Expr;
  join_predicates : list Expr;
  const_predicates : list Expr
}.

(** The tail every override of [group_predicates] ends with. *)
Definition push_by_size (this : Expr) (rte_idx_set : gset Z) (ps : predicates)
    : predicates :=
  if bool_decide (1 < size rte_idx_set)%nat then
    mkPredicates (scan_predicates ps) (join_predicates ps ++ [this])
      (const_predicates ps)
  else if bool_decide (size rte_idx_set = 1)%nat then
    mkPredicates (scan_predicates ps ++ [this]) (join_predicates ps)
      (const_predicates ps)
  else
    mkPredicates (scan_predicates ps) (join_predicates ps)
      (const_predicates ps ++ [this]).

(** [group_predicates]: the overrides of [ColumnVar] (which [Var] inherits),
    [UOper], [BinOper], [InValues], [CharLengthExpr], [LikeExpr], [AggExpr],
    [CaseExpr], [ExtractExpr] and [DatetruncExpr] are in the sources.

    Modelled from the spec: the implementation for [Constant] and
    [Subquery] is declared in [Analyzer.h], which is not part of the
    sources; a node that is no AND is appended by the size of the set of
    range-table indices it references, which is empty for both. *)
Fixpoint group_predicates (this : Expr) (ps : predicates) {struct this}
    : result predicates :=
  match this with
  | ColumnVar type_info _ _ _ _ | Var type_info _ _ _ _ _ _ =>
      if bool_decide (get_type type_info = kBOOLEAN) then
        Ok (mkPredicates (scan_predicates ps ++ [this]) (join_predicates ps)
              (const_predicates ps))
      else Ok ps
  | Constant _ _ _ _ | Subquery _ _ => Ok (push_by_size this ∅ ps)
  | UOper _ _ _ operand =>
      match operand with
      | None => Undefined
      | Some o =>
          perform rte_idx_set := collect_rte_idx o ∅ in
          Ok (push_by_size this rte_idx_set ps)
      end
  | BinOper _ _ optype _ left_operand right_operand =>
      if bool_decide (optype = kAND) then
        perform ps1 := group_predicates left_operand ps in
        group_predicates right_operand ps1
      else
        perform s1 := collect_rte_idx left_operand ∅ in
        perform rte_idx_set := collect_rte_idx right_operand s1 in
        Ok (push_by_size this rte_idx_set ps)
  | InValues _ _ arg _ | CharLengthExpr _ _ arg _ | LikeExpr _ _ arg _ _ _ _ =>
      perform rte_idx_set := collect_rte_idx arg ∅ in
      Ok (push_by_size this rte_idx_set ps)
  | AggExpr _ _ _ arg _ =>
      match arg with
      | None => Undefined
      | Some a =>
          perform rte_idx_set := collect_rte_idx a ∅ in
          Ok (push_by_size this rte_idx_set ps)
      end
  | CaseExpr _ _ _ _ =>
      perform rte_idx_set := collect_rte_idx this ∅ in
      Ok (push_by_size this rte_idx_set ps)
  | ExtractExpr _ _ _ from_expr | DatetruncExpr _ _ _ from_expr =>
      perform rte_idx_set := collect_rte_idx from_expr ∅ in
      Ok (push_by_size this rte_idx_set ps)
  end.

(** *** normalize_simple_predicate *)

Definition is_ColumnVar (e : Expr) : bool :=
  match e with ColumnVar _ _ _ _ _ => true | _ => false end.

Definition get_rte_idx (e : Expr) : Z :=
  match e with
  | ColumnVar _ _ _ _ rte_idx | Var _ _ _ _ rte_idx _ _ => rte_idx
  | _ => -1
  end.

(** [BinOper::normalize_simple_predicate]: the handle returned ([None] is
    [nullptr]), the value left in the out-parameter [rte_idx], and the heap.

    Modelled from the spec: for the other nodes the method is declared in
    [Analyzer.h], which is not part of the sources; anything that is not
    the pattern returns the null sentinel and leaves [rte_idx] at -1. *)
Definition normalize_simple_predicate (this : Expr) (h : heap)
    : result (option Expr * Z * heap) :=
  match this with
  | BinOper type_info contains_agg optype qualifier left_operand right_operand =>
      if negb (IS_COMPARISON optype) || bool_decide (qualifier ≠ kONE) then
        Ok (None, -1, h)
      else if is_ColumnVar left_operand && is_Constant right_operand then
        let rte_idx := get_rte_idx left_operand in
        perform '(copy, h1) := deep_copy this h in
        Ok (Some copy, rte_idx, h1)
      else if is_Constant left_operand && is_ColumnVar right_operand then
        let rte_idx := get_rte_idx right_operand in
        perform '(r', h1) := deep_copy right_operand h in
        perform '(l', h2) := deep_copy left_operand h1 in
        Ok (Some (BinOper type_info contains_agg (COMMUTE_COMPARISON optype)
                    qualifier r' l'), rte_idx, h2)
      else Ok (None, -1, h)
  | _ => Ok (None, -1, h)
  end.

End Analyzer.

(** ** Abbreviations for types *)

Definition DECIMAL (d s : Z) : SQLTypeInfo := SQLTypeInfo4 kDECIMAL d s false.
Definition NUMERIC (d s : Z) : SQLTypeInfo := SQLTypeInfo4 kNUMERIC d s false.
Definition INT : SQLTypeInfo := SQLTypeInfo2 kINT false.

(** [VARCHAR(d)] stored with encoding [c] and dictionary [cp] *)
Definition VARCHAR (d : Z) (c : EncodingType) (cp : Z) : SQLTypeInfo :=
  SQLTypeInfo7 kVARCHAR d 0 false c cp kNULLT.

Definition is_decimal (ti : SQLTypeInfo) : bool :=
  match get_type ti with kNUMERIC | kDECIMAL => true | _ => false end.

(** The kind and the dimension [common_string_type] gives to its result. *)
Definition common_string_kind (type1 type2 : SQLTypeInfo) : SQLTypes * Z :=
  if bool_decide (get_type type1 = kTEXT) || bool_decide (get_type type2 = kTEXT)
  then (kTEXT, 0)
  else (kVARCHAR, Z.max (get_dimension type1) (get_dimension type2)).

(** ** An instance of the parameters *)

(** Modelled from the spec: [SQLTypeInfo::is_castable] is not part of the
    sources; castability goes by families: a number with a number, a
    boolean or a TIMESTAMP; a string with anything; temporal kinds as far
    as the comparison matrix allows. *)
Definition spec_is_castable (from to : SQLTypeInfo) : bool :=
  (is_number from && is_number to)
  || (is_number from && bool_decide (get_type to = kBOOLEAN))
  || (bool_decide (get_type from = kBOOLEAN) && is_number to)
  || (is_number from && bool_decide (get_type to = kTIMESTAMP))
  || (bool_decide (get_type from = kTIMESTAMP) && is_number to)
  || is_string from || is_string to
  || (is_time from && is_time to
      && negb (bool_decide (get_type from = kTIME) && negb (bool_decide (get_type to = kTIME)))
      && negb (negb (bool_decide (get_type from = kTIME)) && bool_decide (get_type to = kTIME))).

(** Modelled from the spec: an instance of the parameters, with
    [spec_TRANSIENT_DICT] and the smallest normal [float] and [double] as
    null sentinels.  The helpers that parse and print literals and the
    floating-point operations are left trivial: the instance serves to run
    the definitions on literals without floating-point payloads. *)
Definition example_externals : Externals := {|
  TRANSIENT_DICT_ID := spec_TRANSIENT_DICT_ID;
  TRANSIENT_DICT := spec_TRANSIENT_DICT;
  is_castable := spec_is_castable;
  NULL_BOOLEAN := true;
  NULL_FLOAT := 8388608;
  NULL_DOUBLE := 4503599627370496;
  StringToDatum := fun _ _ => Throw "StringToDatum";
  DatumToString := fun _ _ => ""%string;
  double_of_int := fun z => z;
  float_of_int := fun z => z;
  int_of_double := fun z => z;
  int_of_float := fun z => z;
  double_of_float := fun z => z;
  float_of_double := fun z => z;
  double_mul10 := fun z => z;
  double_div10 := fun z => z;
  float_mul10 := fun z => z;
  float_div10 := fun z => z;
  double_eq := Z.eqb;
  float_eq := Z.eqb
|}.

(** ** Null sentinels, from the specification

    The payload a null literal of type [ti] holds according to the table of
    the specification: NULL_BOOLEAN for BOOLEAN, NULL_INT for INT,
    NULL_SMALLINT for SMALLINT, NULL_BIGINT for BIGINT, NUMERIC and DECIMAL,
    NULL_FLOAT for FLOAT, NULL_DOUBLE for DOUBLE, NULL_BIGINT as a 64-bit
    time for TIME, TIMESTAMP and DATE, the empty string for the string
    kinds and 0 for NULLT. *)
Definition null_sentinel_spec (X : Externals) (h : heap) (ti : SQLTypeInfo)
    (d : Datum) : Prop :=
  match get_type ti with
  | kBOOLEAN => d = boolval (NULL_BOOLEAN X)
  | kINT => d = intval NULL_INT
  | kSMALLINT => d = smallintval NULL_SMALLINT
  | kBIGINT | kNUMERIC | kDECIMAL => d = bigintval NULL_BIGINT
  | kFLOAT => d = floatval (NULL_FLOAT X)
  | kDOUBLE => d = doubleval (NULL_DOUBLE X)
  | kTIME | kTIMESTAMP | kDATE => d = timeval NULL_BIGINT
  | kCHAR | kVARCHAR | kTEXT =>
      exists p : nat, d = stringval (Some p) /\ h !! p = Some (Some ""%string)
  | kNULLT => d = bigintval 0
  end.

(** The payload of a literal can be read: a string literal that is not
    null points to an allocated string. *)
Definition Constant_readable (h : heap) (e : Expr) : Prop :=
  match e with
  | Constant type_info _ is_null constval =>
      is_string type_info = true -> is_null = false ->
      exists (p : nat) (s : string),
        constval = stringval (Some p) /\ h !! p = Some (Some s)
  | _ => True
  end.

(** ** Conjuncts and their classes

    What [group_predicates] is measured against. *)

(** The conjuncts of a predicate, from left to right: what is left when
    the AND nodes are flattened away. *)
Fixpoint conjuncts (e : Expr) : list Expr :=
  match e with
  | BinOper _ _ optype _ left_operand right_operand =>
      if bool_decide (optype = kAND)
      then conjuncts left_operand ++ conjuncts right_operand
      else [e]
  | _ => [e]
  end.

Definition is_AND (e : Expr) : bool :=
  match e with
  | BinOper _ _ optype _ _ _ => bool_decide (optype = kAND)
  | _ => false
  end.

Inductive category : Type := scan | join | const.

#[global] Instance category_eq_dec : EqDecision category.
Proof. solve_decision. Defined.

(** more than one index: join; exactly one: scan; none: const *)
Definition category_of_size (n : nat) : category :=
  match n with
  | O => const
  | S O => scan
  | S (S _) => join
  end.

(** The range-table indices a node references: the [rte_idx] of every
    [ColumnVar] leaf that can be reached from it. *)
Fixpoint referenced_rte_idx (e : Expr) : gset Z :=
  match e with
  | ColumnVar _ _ _ _ rte_idx | Var _ _ _ _ rte_idx _ _ => {[ rte_idx ]}
  | Constant _ _ _ _ | Subquery _ _ => ∅
  | UOper _ _ _ operand =>
      match operand with Some o => referenced_rte_idx o | None => ∅ end
  | BinOper _ _ _ _ left_operand right_operand =>
      referenced_rte_idx left_operand ∪ referenced_rte_idx right_operand
  | InValues _ _ arg value_list =>
      referenced_rte_idx arg ∪ ⋃ (map referenced_rte_idx value_list)
  | CharLengthExpr _ _ arg _ => referenced_rte_idx arg
  | LikeExpr _ _ arg like_expr escape_expr _ _ =>
      referenced_rte_idx arg ∪ referenced_rte_idx like_expr
      ∪ match escape_expr with Some e => referenced_rte_idx e | None => ∅ end
  | AggExpr _ _ _ arg _ =>
      match arg with Some a => referenced_rte_idx a | None => ∅ end
  | CaseExpr _ _ expr_pair_list else_expr =>
      ⋃ (map (fun p => referenced_rte_idx (fst p) ∪ referenced_rte_idx (snd p))
           expr_pair_list)
      ∪ match else_expr with Some e => referenced_rte_idx e | None => ∅ end
  | ExtractExpr _ _ _ from_expr | DatetruncExpr _ _ _ from_expr =>
      referenced_rte_idx from_expr
  end.

(** The range-table indices [group_predicates] looks at in a node that is
    no AND: for [InValues] and [LikeExpr] those referenced below [arg] (the
    value list, the pattern and the escape are not visited), for the other
    nodes all that the node references. *)
Definition visited_rte_idx (e : Expr) : gset Z :=
  match e with
  | InValues _ _ arg _ | LikeExpr _ _ arg _ _ _ _ => referenced_rte_idx arg
  | _ => referenced_rte_idx e
  end.

(** The set [group_predicates] fills by its calls of [collect_rte_idx] at a
    node that is no AND. *)
Definition gathered_rte_idx (e : Expr) : result (gset Z) :=
  match e with
  | InValues _ _ arg _ | LikeExpr _ _ arg _ _ _ _ => collect_rte_idx arg ∅
  | AggExpr _ _ _ arg _ =>
      match arg with
      | Some a => collect_rte_idx a ∅
      | None => Undefined
      end
  | _ => collect_rte_idx e ∅
  end.

(** The indices of the conjunct [e] can be gathered: no null pointer is
    met on the way. *)
Definition gatherable (e : Expr) : Prop := is_Ok (gathered_rte_idx e) = true.

(** The list a conjunct goes to, if any: a [ColumnVar] or [Var] goes to
    scan when it is BOOLEAN and to no list otherwise; another node goes by
    the number of indices visited. *)
Definition class_of (e : Expr) : option category :=
  match e with
  | ColumnVar type_info _ _ _ _ | Var type_info _ _ _ _ _ _ =>
      if bool_decide (get_type type_info = kBOOLEAN) then Some scan else None
  | _ => Some (category_of_size (size (visited_rte_idx e)))
  end.

Definition no_predicates : predicates := mkPredicates [] [] [].

(** Where [group_predicates] puts a conjunct [c]. *)
Definition append_conjunct (ps : predicates) (c : Expr) : predicates :=
  match class_of c with
  | Some scan =>
      mkPredicates (scan_predicates ps ++ [c]) (join_predicates ps)
        (const_predicates ps)
  | Some join =>
      mkPredicates (scan_predicates ps) (join_predicates ps ++ [c])
        (const_predicates ps)
  | Some const =>
      mkPredicates (scan_predicates ps) (join_predicates ps)
        (const_predicates ps ++ [c])
  | None => ps
  end.

(** The conjuncts of class [k] among [l], in their order. *)
Definition of_class (k : category) (l : list Expr) : list Expr :=
  filter (fun c => class_of c = Some k) l.

(** ** Expressions for the examples: columns [a] and [b] of a first table
    and [b] of a second, and integer literals *)
Definition BOOL : SQLTypeInfo := SQLTypeInfo2 kBOOLEAN false.
Definition t1_a : Expr := ColumnVar INT false 1 1 0.
Definition t1_b : Expr := ColumnVar INT false 1 2 0.
Definition t2_b : Expr := ColumnVar INT false 2 2 1.
Definition lit (v : Z) : Expr := Constant INT false false (intval v).

(** ** The observable state of a tree

    Two trees are the same to an observer when they differ at most in
    where the strings of their literals are stored: they have the same
    shape ([erase_payloads]) and their literals hold, one by one, the same
    payload or equal strings ([same_payload]). *)

(** The payloads of the literals of a tree, in the order of traversal. *)
Fixpoint payloads (e : Expr) : list Datum :=
  match e with
  | ColumnVar _ _ _ _ _ | Var _ _ _ _ _ _ _ | Subquery _ _ => []
  | Constant _ _ _ constval => [constval]
  | UOper _ _ _ operand =>
      match operand with Some o => payloads o | None => [] end
  | BinOper _ _ _ _ left_operand right_operand =>
      payloads left_operand ++ payloads right_operand
  | InValues _ _ arg value_list =>
      payloads arg ++ flat_map payloads value_list
  | CharLengthExpr _ _ arg _ => payloads arg
  | LikeExpr _ _ arg like_expr escape_expr _ _ =>
      payloads arg ++ payloads like_expr
      ++ match escape_expr with Some e => payloads e | None => [] end
  | AggExpr _ _ _ arg _ =>
      match arg with Some a => payloads a | None => [] end
  | CaseExpr _ _ expr_pair_list else_expr =>
      flat_map (fun p => payloads (fst p) ++ payloads (snd p)) expr_pair_list
      ++ match else_expr with Some e => payloads e | None => [] end
  | ExtractExpr _ _ _ from_expr | DatetruncExpr _ _ _ from_expr =>
      payloads from_expr
  end.

(** The tree with the payload of every literal blanked. *)
Fixpoint erase_payloads (e : Expr) : Expr :=
  match e with
  | ColumnVar _ _ _ _ _ | Var _ _ _ _ _ _ _ | Subquery _ _ => e
  | Constant type_info contains_agg is_null _ =>
      Constant type_info contains_agg is_null (bigintval 0)
  | UOper type_info contains_agg optype operand =>
      UOper type_info contains_agg optype
        match operand with Some o => Some (erase_payloads o) | None => None end
  | BinOper type_info contains_agg optype qualifier left_operand right_operand =>
      BinOper type_info contains_agg optype qualifier
        (erase_payloads left_operand) (erase_payloads right_operand)
  | InValues type_info contains_agg arg value_list =>
      InValues type_info contains_agg (erase_payloads arg)
        (map erase_payloads value_list)
  | CharLengthExpr type_info contains_agg arg calc_encoded_length =>
      CharLengthExpr type_info contains_agg (erase_payloads arg) calc_encoded_length
  | LikeExpr type_info contains_agg arg like_expr escape_expr is_ilike is_simple =>
      LikeExpr type_info contains_agg (erase_payloads arg) (erase_payloads like_expr)
        match escape_expr with Some e => Some (erase_payloads e) | None => None end
        is_ilike is_simple
  | AggExpr type_info contains_agg aggtype arg is_distinct =>
      AggExpr type_info contains_agg aggtype
        match arg with Some a => Some (erase_payloads a) | None => None end
        is_distinct
  | CaseExpr type_info contains_agg expr_pair_list else_expr =>
      CaseExpr type_info contains_agg
        (map (fun p => (erase_payloads (fst p), erase_payloads (snd p)))
           expr_pair_list)
        match else_expr with Some e => Some (erase_payloads e) | None => None end
  | ExtractExpr type_info contains_agg field from_expr =>
      ExtractExpr type_info contains_agg field (erase_payloads from_expr)
  | DatetruncExpr type_info contains_agg field from_expr =>
      DatetruncExpr type_info contains_agg field (erase_payloads from_expr)
  end.

(** The same payload: the same member with the same value or, for two
    strings, equal contents, the first read in [h] and the second in [h']. *)
Definition same_payload (h h' : heap) (d d' : Datum) : Prop :=
  d = d'
  \/ exists (p p' : nat) (s : string),
       d = stringval (Some p) /\ d' = stringval (Some p')
       /\ h !! p = Some (Some s) /\ h' !! p' = Some (Some s).

(** [a] in heap [h] and [b] in heap [h'] are the same to an observer. *)
Definition same_expr (h : heap) (a : Expr) (h' : heap) (b : Expr) : Prop :=
  erase_payloads a = erase_payloads b
  /\ Forall2 (same_payload h h') (payloads a) (payloads b).

(** The nodes whose [add_cast] is that of the base class or of [UOper]. *)
Definition plain_cast (e : Expr) : bool :=
  match e with
  | Constant _ _ _ _ | CaseExpr _ _ _ _ | Subquery _ _ => false
  | _ => true
  end.

(** The test of the second shortcut of [Expr::add_cast]: the target and
    the type of the receiver are both DICT-encoded string types, and the
    dictionary of the target is that of the receiver or its transient
    counterpart. *)
Definition dict_shortcut (X : Externals) (new_type_info type_info : SQLTypeInfo)
    : bool :=
  is_string new_type_info && is_string type_info
  && bool_decide (get_compression new_type_info = kENCODING_DICT)
  && bool_decide (get_compression type_info = kENCODING_DICT)
  && (bool_decide (get_comp_param new_type_info = get_comp_param type_info)
      || bool_decide (get_comp_param new_type_info
                      = TRANSIENT_DICT X (get_comp_param type_info))).

(** A branch that the cast of a CASE to the type [T] has nothing to do
    on: it has the type [T], or its [add_cast] is that of the base class
    or of [UOper] and the DICT shortcut applies to it (its dimension and
    nullability may then differ from those of [T]). *)
Definition left_alone (X : Externals) (T : SQLTypeInfo) (e : Expr) : Prop :=
  get_type_info e = T
  \/ (plain_cast e = true /\ dict_shortcut X T (get_type_info e) = true).

(** The trees [add_cast] to their own type finds nothing to do on: no
    [Subquery]; a null literal holds the null sentinel of its kind (the
    invariant of the data model); the THEN and ELSE branches of a
    [CaseExpr], which the cast is pushed into, are left alone by a cast to
    the type of the [CaseExpr] and are such trees themselves. *)
Fixpoint cast_settled (X : Externals) (h : heap) (e : Expr) : Prop :=
  match e with
  | Subquery _ _ => False
  | Constant type_info _ is_null constval =>
      is_null = true -> null_sentinel_spec X h type_info constval
  | CaseExpr type_info _ expr_pair_list else_expr =>
      foldr and True
        (map (fun p => left_alone X type_info (snd p)
                       /\ cast_settled X h (snd p)) expr_pair_list)
      /\ match else_expr with
         | Some e => left_alone X type_info e /\ cast_settled X h e
         | None => True
         end
  | _ => True
  end.

(** [add_cast] of a settled tree to its own type, run in a heap [h] that
    extends the heap [h0] the tree is observed in: the receiver itself is
    returned, with its type, and is the same to an observer; the heap only
    grows. *)
Definition unchanged_by_own_cast (X : Externals) (e : Expr) : Prop :=
  forall (h0 h : heap),
    h0 `prefix_of` h ->
    cast_settled X h0 e ->
    exists e' h',
      add_cast X e h (get_type_info e) = Ok (e', h', shared_from_this)
      /\ get_type_info e' = get_type_info e
      /\ same_expr h0 e h' e'
      /\ h `prefix_of` h'.

(** ** Trees that can be compared with their copy *)

(** The payload [d] of a literal of type [ti] can be compared: the member
    of the union is the one of the kind of [ti], a string is allocated in
    [h], a floating-point value equals itself, and the kind is one
    [Datum_equal] has a case for (not DATE, not NULLT). *)
Definition payload_fits (X : Externals) (h : heap) (ti : SQLTypeInfo)
    (d : Datum) : Prop :=
  match get_type ti with
  | kBOOLEAN => exists b, d = boolval b
  | kCHAR | kVARCHAR | kTEXT =>
      exists (p : nat) (s : string),
        d = stringval (Some p) /\ h !! p = Some (Some s)
  | kNUMERIC | kDECIMAL | kBIGINT => exists v, d = bigintval v
  | kINT => exists v, d = intval v
  | kSMALLINT => exists v, d = smallintval v
  | kFLOAT => exists v, d = floatval v /\ float_eq X v v = true
  | kDOUBLE => exists v, d = doubleval v /\ double_eq X v v = true
  | kTIME | kTIMESTAMP => exists v, d = timeval v
  | kDATE | kNULLT => False
  end.

(** The trees [operator==] finds equal to their copy: no [Subquery] and
    no null [operand]; a [ColumnVar] that is no [Var] has an [rte_idx] other
    than -1; the payload of every literal fits its type, and that of a null
    literal is the null sentinel. *)
Fixpoint comparable (X : Externals) (h : heap) (e : Expr) : Prop :=
  match e with
  | ColumnVar _ _ _ _ rte_idx => rte_idx <> -1
  | Var _ _ _ _ _ _ _ => True
  | Constant type_info _ is_null constval =>
      payload_fits X h type_info constval
      /\ (is_null = true -> null_sentinel_spec X h type_info constval)
  | UOper _ _ _ operand =>
      match operand with Some o => comparable X h o | None => False end
  | BinOper _ _ _ _ left_operand right_operand =>
      comparable X h left_operand /\ comparable X h right_operand
  | Subquery _ _ => False
  | InValues _ _ arg value_list =>
      comparable X h arg /\ foldr and True (map (comparable X h) value_list)
  | CharLengthExpr _ _ arg _ => comparable X h arg
  | LikeExpr _ _ arg like_expr escape_expr _ _ =>
      comparable X h arg /\ comparable X h like_expr
      /\ match escape_expr with Some e => comparable X h e | None => True end
  | AggExpr _ _ _ arg _ =>
      match arg with Some a => comparable X h a | None => True end
  | CaseExpr _ _ expr_pair_list else_expr =>
      foldr and True
        (map (fun p => comparable X h (fst p) /\ comparable X h (snd p))
           expr_pair_list)
      /\ match else_expr with Some e => comparable X h e | None => True end
  | ExtractExpr _ _ _ from_expr | DatetruncExpr _ _ _ from_expr =>
      comparable X h from_expr
  end.

(** A payload that is no string allocated in [h]: a string it points to
    was allocated later. *)
Definition fresh_payload (h : heap) (d : Datum) : Prop :=
  forall p : nat, d = stringval (Some p) -> (length h <= p)%nat.

(** [deep_copy] of a comparable tree, run in a heap [h] that extends the
    heap [h0] the tree is observed in: the copy exists, the heap only
    grows, every string of the copy is newly allocated, and the copy is
    found equal to the tree in every later heap. *)
Definition copies_well (X : Externals) (e : Expr) : Prop :=
  forall (h0 h : heap),
    h0 `prefix_of` h ->
    comparable X h0 e ->
    exists e' h',
      deep_copy X e h = Ok (e', h')
      /\ h `prefix_of` h'
      /\ Forall (fresh_payload h) (payloads e')
      /\ forall hf, h' `prefix_of` hf -> equals X hf e' e = Ok true.

(** ** The chain of numeric kinds

    The place of a numeric kind in the order SMALLINT, INT, BIGINT,
    NUMERIC or DECIMAL, FLOAT, DOUBLE; 0 for the other kinds. *)
Definition promotion_rank (t : SQLTypes) : nat :=
  match t with
  | kSMALLINT => 1
  | kINT => 2
  | kBIGINT => 3
  | kNUMERIC | kDECIMAL => 4
  | kFLOAT => 5
  | kDOUBLE => 6
  | _ => 0
  end.

(** The two dictionary ids are the same or the first is the transient
    counterpart of the second: the test of [common_string_type]. *)
Definition same_dictionary (TRANSIENT_DICT : Z -> Z) (cp1 cp2 : Z) : bool :=
  bool_decide (cp1 = cp2) || bool_decide (cp1 = TRANSIENT_DICT cp2).

(** No [CHECK] failed and no invalid pointer was followed: the call
    answered or threw. *)
Definition checks_pass {A : Type} (r : result A) : Prop :=
  match r with
  | Ok _ | Throw _ => True
  | Abort | Undefined => False
  end.

(** ** Literals of a kind

    The width in bits of an integer kind, and the member of the union an
    integer literal of the kind holds. *)
Definition integer_bits (t : SQLTypes) : Z :=
  match t with
  | kSMALLINT => 16
  | kINT => 32
  | kBIGINT => 64
  | _ => 0
  end.

Definition integer_datum (t : SQLTypes) (v : Z) : Datum :=
  match t with
  | kSMALLINT => smallintval v
  | kINT => intval v
  | _ => bigintval v
  end.

(** [v] is a value of the signed integer type of [w] bits. *)
Definition in_range (w : Z) (v : Z) : Prop :=
  - 2 ^ (w - 1) <= v < 2 ^ (w - 1).

(** The payload [d] of a literal of type [ti] holds the member of the
    union the code reads for the kind of [ti], and a string is allocated
    in [h]. *)
Definition member_of_kind (h : heap) (ti : SQLTypeInfo) (d : Datum) : Prop :=
  match get_type ti with
  | kBOOLEAN => exists b, d = boolval b
  | kSMALLINT => exists v, d = smallintval v
  | kINT => exists v, d = intval v
  | kBIGINT | kNUMERIC | kDECIMAL => exists v, d = bigintval v
  | kFLOAT => exists v, d = floatval v
  | kDOUBLE => exists v, d = doubleval v
  | kTIME | kTIMESTAMP | kDATE => exists v, d = timeval v
  | kCHAR | kVARCHAR | kTEXT =>
      exists (p : nat) (s : string),
        d = stringval (Some p) /\ h !! p = Some (Some s)
  | kNULLT => True
  end.

(** ** What a cast reaches

    [t] is the type [T] that was asked for, or [T] and [t] are both
    DICT-encoded string types (of dictionaries that may differ). *)
Definition cast_reached (T t : SQLTypeInfo) : Prop :=
  t = T
  \/ (is_string T = true /\ get_compression T = kENCODING_DICT
      /\ is_string t = true /\ get_compression t = kENCODING_DICT).

(** * Further methods of the analyzer *)

(** ** decompress *)

(** [Expr::decompress]: the handle returned; the receiver is not
    changed. *)
Definition decompress (this : Expr) : handle :=
  let type_info := get_type_info this in
  if bool_decide (get_compression type_info = kENCODING_NONE) then shared_from_this
  else
    let new_type_info :=
      set_comp_param (set_compression type_info kENCODING_NONE) 0 in
    other (UOper new_type_info (get_contains_agg this) kCAST (Some this)).

(** ** add_unique *)

(** The loop of [Expr::add_unique] over [expr_list]: whether some element
    is found equal to the receiver. *)
Definition found_equal (X : Externals) (h : heap) (this : Expr)
    : list Expr -> result bool :=
  fix each (expr_list : list Expr) :=
    match expr_list with
    | [] => Ok false
    | e :: rest =>
        perform b := equals X h e this in
        if b then Ok true else each rest
    end.

(** [Expr::add_unique]: the list after the call. *)
Definition add_unique (X : Externals) (h : heap) (this : Expr)
    (expr_list : list Expr) : result (list Expr) :=
  perform found := found_equal X h this expr_list in
  if found then Ok expr_list else Ok (expr_list ++ [this]).

(** ** Counters *)

(** [i++] on an [int]: a signed overflow is undefined. *)
Definition int_succ (i : Z) : result Z :=
  if bool_decide (i < 2 ^ 31 - 1) then Ok (i + 1) else Undefined.

(** ** Target lists *)

(** Modelled from the spec: the class [TargetEntry] is declared in
    [Analyzer.h], which is not part of the sources; a target entry has a
    name, an expression and an unnest flag. *)
Record TargetEntry : Type := mkTargetEntry {
  get_resname : string;
  get_expr : Expr;
  get_unnest : bool
}.

(** [dynamic_cast<const ColumnVar*>(e)]: the cast succeeds on a
    [ColumnVar] and on a [Var], its subclass; the members [type_info],
    [table_id], [column_id] and [rte_idx]. *)
Definition as_ColumnVar (e : Expr) : option (SQLTypeInfo * Z * Z * Z) :=
  match e with
  | ColumnVar type_info _ table_id column_id rte_idx
  | Var type_info _ table_id column_id rte_idx _ _ =>
      Some (type_info, table_id, column_id, rte_idx)
  | _ => None
  end.

(** The dynamic type of the node is [AggExpr]. *)
Definition is_AggExpr (e : Expr) : bool :=
  match e with AggExpr _ _ _ _ _ => true | _ => false end.

(** [ColumnVar::rewrite_with_targetlist]; the receiver has the members
    [table_id] and [column_id]. *)
Definition ColumnVar_rewrite_with_targetlist (X : Externals)
    (table_id column_id : Z) : list TargetEntry -> heap -> result (Expr * heap) :=
  fix each (tlist : list TargetEntry) (h : heap) :=
    match tlist with
    | [] => Throw "Internal error: cannot find ColumnVar in targetlist."
    | tle :: rest =>
        let e := get_expr tle in
        match as_ColumnVar e with
        | Some (_, colvar_table_id, colvar_column_id, _) =>
            if bool_decide (table_id = colvar_table_id)
               && bool_decide (column_id = colvar_column_id)
            then deep_copy X e h
            else each rest h
        | None => each rest h
        end
    end.

(** The loop of [ColumnVar::rewrite_with_child_targetlist], entered with
    the counter [varno]. *)
Definition child_targetlist_loop (table_id column_id : Z)
    : list TargetEntry -> Z -> result Expr :=
  fix each (tlist : list TargetEntry) (varno : Z) :=
    match tlist with
    | [] => Throw "Internal error: cannot find ColumnVar in child targetlist."
    | tle :: rest =>
        match as_ColumnVar (get_expr tle) with
        | None =>
            Throw "Internal Error: targetlist in rewrite_with_child_targetlist is not all columns."
        | Some (colvar_type_info, colvar_table_id, colvar_column_id, colvar_rte_idx) =>
            if bool_decide (table_id = colvar_table_id)
               && bool_decide (column_id = colvar_column_id)
            then Ok (makeVar colvar_type_info colvar_table_id colvar_column_id
                       colvar_rte_idx kINPUT_OUTER varno)
            else
              perform varno1 := int_succ varno in
              each rest varno1
        end
    end.

(** [ColumnVar::rewrite_with_child_targetlist] *)
Definition ColumnVar_rewrite_with_child_targetlist (table_id column_id : Z)
    (tlist : list TargetEntry) : result Expr :=
  child_targetlist_loop table_id column_id tlist 1.

(** The loop of [ColumnVar::rewrite_agg_to_var], entered with the counter
    [varno]. *)
Definition agg_to_var_loop (table_id column_id : Z)
    : list TargetEntry -> Z -> result Expr :=
  fix each (tlist : list TargetEntry) (varno : Z) :=
    match tlist with
    | [] =>
        Throw "Internal error: cannot find ColumnVar from having clause in targetlist."
    | tle :: rest =>
        let e := get_expr tle in
        let next :=
          perform varno1 := int_succ varno in
          each rest varno1 in
        if negb (is_AggExpr e) then
          match as_ColumnVar e with
          | None =>
              Throw "Internal Error: targetlist in rewrite_agg_to_var is not all columns and aggregates."
          | Some (colvar_type_info, colvar_table_id, colvar_column_id, colvar_rte_idx) =>
              if bool_decide (table_id = colvar_table_id)
                 && bool_decide (column_id = colvar_column_id)
              then Ok (makeVar colvar_type_info colvar_table_id colvar_column_id
                         colvar_rte_idx kINPUT_OUTER varno)
              else next
          end
        else next
    end.

(** [ColumnVar::rewrite_agg_to_var] *)
Definition ColumnVar_rewrite_agg_to_var (table_id column_id : Z)
    (tlist : list TargetEntry) : result Expr :=
  agg_to_var_loop table_id column_id tlist 1.

(** ** Range table entries *)

(** Modelled from the spec: [ColumnDescriptor] and [TableDescriptor] are
    declared in the catalog's headers, which are not part of the sources;
    the members are those the sources read. *)
Record ColumnDescriptor : Type := mkColumnDescriptor {
  columnId : Z;
  columnName : string;
  columnType : SQLTypeInfo
}.

Record TableDescriptor : Type := mkTableDescriptor {
  tableId : Z
}.

(** Modelled from the spec: the two queries of [Catalog_Namespace::Catalog]
    the sources call, as parameters: all columns of a table (with or
    without system columns and virtual columns), and the column of a table
    with a name ([None] is [nullptr]). *)
Record Catalog : Type := mkCatalog {
  getAllColumnMetadataForTable : Z -> bool -> bool -> list ColumnDescriptor;
  getMetadataForColumn : Z -> string -> option ColumnDescriptor
}.

(** Modelled from the spec: the class [RangeTblEntry] is declared in
    [Analyzer.h]; a range table entry has an alias, the descriptor of its
    table (a pointer) and the column descriptors cached from the catalog.
    The view query, which the sources below do not touch, is left out. *)
Record RangeTblEntry : Type := mkRangeTblEntry {
  get_rangevar : string;
  table_desc : option TableDescriptor;
  column_descs : list ColumnDescriptor
}.

(** [table_desc->tableId] *)
Definition table_desc_tableId (rte : RangeTblEntry) : result Z :=
  match table_desc rte with
  | Some td => Ok (tableId td)
  | None => Undefined
  end.

(** [RangeTblEntry::add_all_column_descs]: the entry after the call. *)
Definition add_all_column_descs (catalog : Catalog) (rte : RangeTblEntry)
    : result RangeTblEntry :=
  perform tid := table_desc_tableId rte in
  Ok (mkRangeTblEntry (get_rangevar rte) (table_desc rte)
        (getAllColumnMetadataForTable catalog tid true true)).

(** [RangeTblEntry::expand_star_in_targetlist]: the entry and the target
    list after the call. *)
Definition expand_star_in_targetlist (catalog : Catalog) (rte : RangeTblEntry)
    (tlist : list TargetEntry) (rte_idx : Z)
    : result (RangeTblEntry * list TargetEntry) :=
  perform tid := table_desc_tableId rte in
  let column_descs := getAllColumnMetadataForTable catalog tid false true in
  let tlist' :=
    fold_left
      (fun tlist col_desc =>
         let cv := makeColumnVar (columnType col_desc) tid (columnId col_desc) rte_idx in
         let tle := mkTargetEntry (columnName col_desc) cv false in
         tlist ++ [tle])
      column_descs tlist in
  Ok (mkRangeTblEntry (get_rangevar rte) (table_desc rte) column_descs, tlist').

(** The loop of [RangeTblEntry::get_column_desc] over the cache. *)
Fixpoint cached_column_desc (column_descs : list ColumnDescriptor) (name : string)
    : option ColumnDescriptor :=
  match column_descs with
  | [] => None
  | cd :: rest =>
      if bool_decide (columnName cd = name) then Some cd
      else cached_column_desc rest name
  end.

(** [RangeTblEntry::get_column_desc]: the descriptor returned ([None] is
    [nullptr]) and the entry after the call. *)
Definition get_column_desc (catalog : Catalog) (rte : RangeTblEntry) (name : string)
    : result (option ColumnDescriptor * RangeTblEntry) :=
  match cached_column_desc (column_descs rte) name with
  | Some cd => Ok (Some cd, rte)
  | None =>
      perform tid := table_desc_tableId rte in
      match getMetadataForColumn catalog tid name with
      | Some cd =>
          Ok (Some cd,
              mkRangeTblEntry (get_rangevar rte) (table_desc rte)
                (column_descs rte ++ [cd]))
      | None => Ok (None, rte)
      end
  end.

(** ** The range table of a query *)

(** The loop of [Query::get_rte_idx] over [rangetable], entered with the
    counter [rte_idx]. *)
Fixpoint rte_idx_loop (rangetable : list RangeTblEntry) (name : string)
    (rte_idx : Z) : result Z :=
  match rangetable with
  | [] => Ok (-1)
  | rte :: rest =>
      if bool_decide (get_rangevar rte = name) then Ok rte_idx
      else
        perform rte_idx1 := int_succ rte_idx in
        rte_idx_loop rest name rte_idx1
  end.

(** [Query::get_rte_idx]; of the members of [Query] it reads
    [rangetable] only. *)
Definition Query_get_rte_idx (rangetable : list RangeTblEntry) (name : string)
    : result Z :=
  rte_idx_loop rangetable name 0.

(** [Query::add_rte]: the member [rangetable] after the call. *)
Definition Query_add_rte (rangetable : list RangeTblEntry) (rte : RangeTblEntry)
    : list RangeTblEntry :=
  rangetable ++ [rte].

(** ** check_group_by *)

Section CheckGroupBy.

(** [check_group_by] of the nodes for which it is not defined in the
    sources ([Constant], [Subquery], [InValues], [CharLengthExpr],
    [LikeExpr], [AggExpr]): declared in [Analyzer.h], a parameter here. *)
Variable Expr_check_group_by : Expr -> list Expr -> result unit.

(** [ColumnVar::check_group_by]; the receiver has the members [table_id]
    and [column_id]. *)
Fixpoint ColumnVar_check_group_by (table_id column_id : Z) (groupby : list Expr)
    : result unit :=
  match groupby with
  | [] =>
      Throw "expressions in the SELECT or HAVING clause must be an aggregate function or an expression over GROUP BY columns."
  | e :: rest =>
      match as_ColumnVar e with
      | Some (_, c_table_id, c_column_id, _) =>
          if bool_decide (table_id = c_table_id)
             && bool_decide (column_id = c_column_id)
          then Ok tt
          else ColumnVar_check_group_by table_id column_id rest
      | None => ColumnVar_check_group_by table_id column_id rest
      end
  end.

(** The loop of [CaseExpr::check_group_by] over [expr_pair_list]; [check]
    is [check_group_by(groupby)]. *)
Definition check_pairs (check : Expr -> result unit)
    : list (Expr * Expr) -> result unit :=
  fix each (l : list (Expr * Expr)) :=
    match l with
    | [] => Ok tt
    | (first, second) :: l' =>
        perform _ := check first in
        perform _ := check second in
        each l'
    end.

(** [check_group_by] with its overrides in [ColumnVar], [Var], [UOper],
    [BinOper], [CaseExpr], [ExtractExpr] and [DatetruncExpr]. *)
Fixpoint check_group_by (this : Expr) (groupby : list Expr) {struct this}
    : result unit :=
  match this with
  | ColumnVar _ _ table_id column_id _ =>
      ColumnVar_check_group_by table_id column_id groupby
  | Var _ _ _ _ _ which_row _ =>
      if bool_decide (which_row ≠ kGROUPBY) then
        Throw "Internal error: invalid VAR in GROUP BY or HAVING."
      else Ok tt
  | UOper _ _ _ operand =>
      match operand with
      | Some o => check_group_by o groupby
      | None => Undefined
      end
  | BinOper _ _ _ _ left_operand right_operand =>
      perform _ := check_group_by left_operand groupby in
      check_group_by right_operand groupby
  | CaseExpr _ _ expr_pair_list else_expr =>
      perform _ := check_pairs (fun e => check_group_by e groupby) expr_pair_list in
      match else_expr with
      | Some e => check_group_by e groupby
      | None => Ok tt
      end
  | ExtractExpr _ _ _ from_expr | DatetruncExpr _ _ _ from_expr =>
      check_group_by from_expr groupby
  | _ => Expr_check_group_by this groupby
  end.

End CheckGroupBy.

(** ** Column references in a target list *)

(** The node is a column reference ([ColumnVar] or [Var]) to the column
    [column_id] of the table [table_id]: the test of the three rewrites of
    [ColumnVar] and of [ColumnVar::check_group_by]. *)
Definition refers_to (table_id column_id : Z) (e : Expr) : bool :=
  match as_ColumnVar e with
  | Some (_, t, c, _) => bool_decide (table_id = t) && bool_decide (column_id = c)
  | None => false
  end.

(** The target entry [expand_star_in_targetlist] makes for a column. *)
Definition star_entry (table_id rte_idx : Z) (col_desc : ColumnDescriptor)
    : TargetEntry :=
  mkTargetEntry (columnName col_desc)
    (makeColumnVar (columnType col_desc) table_id (columnId col_desc) rte_idx)
    false.

(** An instance of the catalog: one table, 7, with the columns [x] and
    [y]. *)
Definition example_catalog : Catalog := {|
  getAllColumnMetadataForTable := fun tid _ _ =>
    if bool_decide (tid = 7) then
      [mkColumnDescriptor 1 "x" INT; mkColumnDescriptor 2 "y" (VARCHAR 10 kENCODING_DICT 3)]
    else [];
  getMetadataForColumn := fun tid name =>
    if bool_decide (tid = 7) then
      if bool_decide (name = "x"%string) then Some (mkColumnDescriptor 1 "x" INT)
      else if bool_decide (name = "y"%string)
           then Some (mkColumnDescriptor 2 "y" (VARCHAR 10 kENCODING_DICT 3))
           else None
    else None
|}.

(** ** What check_group_by looks at *)

(** The trees [check_group_by] walks by the code of the sources alone:
    column references and, over such trees, [UOper] with an operand,
    [BinOper], [CaseExpr], [ExtractExpr] and [DatetruncExpr]. *)
Fixpoint walked_by_sources (e : Expr) : Prop :=
  match e with
  | ColumnVar _ _ _ _ _ | Var _ _ _ _ _ _ _ => True
  | UOper _ _ _ operand =>
      match operand with Some o => walked_by_sources o | None => False end
  | BinOper _ _ _ _ left_operand right_operand =>
      walked_by_sources left_operand /\ walked_by_sources right_operand
  | CaseExpr _ _ expr_pair_list else_expr =>
      foldr and True
        (map (fun p => walked_by_sources (fst p) /\ walked_by_sources (snd p))
           expr_pair_list)
      /\ match else_expr with Some e => walked_by_sources e | None => True end
  | ExtractExpr _ _ _ from_expr | DatetruncExpr _ _ _ from_expr =>
      walked_by_sources from_expr
  | _ => False
  end.

(** The column references of a tree, in the order of traversal. *)
Fixpoint column_refs (e : Expr) : list Expr :=
  match e with
  | ColumnVar _ _ _ _ _ | Var _ _ _ _ _ _ _ => [e]
  | Constant _ _ _ _ | Subquery _ _ => []
  | UOper _ _ _ operand =>
      match operand with Some o => column_refs o | None => [] end
  | BinOper _ _ _ _ left_operand right_operand =>
      column_refs left_operand ++ column_refs right_operand
  | InValues _ _ arg value_list =>
      column_refs arg ++ flat_map column_refs value_list
  | CharLengthExpr _ _ arg _ => column_refs arg
  | LikeExpr _ _ arg like_expr escape_expr _ _ =>
      column_refs arg ++ column_refs like_expr
      ++ match escape_expr with Some e => column_refs e | None => [] end
  | AggExpr _ _ _ arg _ =>
      match arg with Some a => column_refs a | None => [] end
  | CaseExpr _ _ expr_pair_list else_expr =>
      flat_map (fun p => column_refs (fst p) ++ column_refs (snd p)) expr_pair_list
      ++ match else_expr with Some e => column_refs e | None => [] end
  | ExtractExpr _ _ _ from_expr | DatetruncExpr _ _ _ from_expr =>
      column_refs from_expr
  end.

(** A column reference that may stand outside an aggregate: a [Var] of
    the GROUP BY row, or a [ColumnVar] of a column that some entry of the
    GROUP BY list refers to. *)
Definition grouped (groupby : list Expr) (e : Expr) : Prop :=
  match e with
  | Var _ _ _ _ _ which_row _ => which_row = kGROUPBY
  | ColumnVar _ _ table_id column_id _ =>
      exists g, g ∈ groupby /\ refers_to table_id column_id g = true
  | _ => True
  end.

(** ** What operator== does not look at

    The tree with the members blanked that the comparison of two nodes
    never reads: [type_info] and [contains_agg] of every node that is no
    literal, [contains_agg] of a literal, the qualifier of a [BinOper] and
    the flag [is_simple] of a [LikeExpr]. *)
Fixpoint erase_unread (e : Expr) : Expr :=
  match e with
  | ColumnVar _ _ table_id column_id rte_idx =>
      ColumnVar SQLTypeInfo0 false table_id column_id rte_idx
  | Var _ _ table_id column_id rte_idx which_row varno =>
      Var SQLTypeInfo0 false table_id column_id rte_idx which_row varno
  | Constant type_info _ is_null constval =>
      Constant type_info false is_null constval
  | UOper _ _ optype operand =>
      UOper SQLTypeInfo0 false optype
        match operand with Some o => Some (erase_unread o) | None => None end
  | BinOper _ _ optype _ left_operand right_operand =>
      BinOper SQLTypeInfo0 false optype kONE
        (erase_unread left_operand) (erase_unread right_operand)
  | Subquery _ _ => Subquery SQLTypeInfo0 false
  | InValues _ _ arg value_list =>
      InValues SQLTypeInfo0 false (erase_unread arg) (map erase_unread value_list)
  | CharLengthExpr _ _ arg calc_encoded_length =>
      CharLengthExpr SQLTypeInfo0 false (erase_unread arg) calc_encoded_length
  | LikeExpr _ _ arg like_expr escape_expr is_ilike _ =>
      LikeExpr SQLTypeInfo0 false (erase_unread arg) (erase_unread like_expr)
        match escape_expr with Some e => Some (erase_unread e) | None => None end
        is_ilike false
  | AggExpr _ _ aggtype arg is_distinct =>
      AggExpr SQLTypeInfo0 false aggtype
        match arg with Some a => Some (erase_unread a) | None => None end
        is_distinct
  | CaseExpr _ _ expr_pair_list else_expr =>
      CaseExpr SQLTypeInfo0 false
        (map (fun p => (erase_unread (fst p), erase_unread (snd p))) expr_pair_list)
        match else_expr with Some e => Some (erase_unread e) | None => None end
  | ExtractExpr _ _ field from_expr =>
      ExtractExpr SQLTypeInfo0 false field (erase_unread from_expr)
  | DatetruncExpr _ _ field from_expr =>
      DatetruncExpr SQLTypeInfo0 false field (erase_unread from_expr)
  end.

(** ** get_domain *)

Section GetDomain.

Variable X : Externals.

(** The heap the nodes are compared in. *)
Variable h : heap.

(** [get_domain] of the nodes other than [CaseExpr]: declared in
    [Analyzer.h], a parameter here.  A [DomainSet] is the list
    [add_unique] takes. *)
Variable Expr_get_domain : Expr -> list Expr -> result (list Expr).

(** The body of the loop of [CaseExpr::get_domain] for the THEN result
    [second]: the domain set after it, and whether the loop goes on
    ([false] is the [return] on an empty set).  [get_domain] is the call
    [p.second->get_domain(domain_set)].  In the branch of a CAST whose
    operand is no literal, [p.second] is a [UOper], so its cast to
    [ColumnVar] is null and the call below is reached. *)
Definition domain_of_then (get_domain : Expr -> list Expr -> result (list Expr))
    (second : Expr) (domain_set : list Expr) : result (list Expr * bool) :=
  let recurse :=
    perform domain_set1 := get_domain second domain_set in
    Ok (domain_set1, negb (bool_decide (domain_set1 = []))) in
  if is_Constant second then
    perform domain_set1 := add_unique X h second domain_set in
    Ok (domain_set1, true)
  else if bool_decide (is_Some (as_ColumnVar second)) then
    perform domain_set1 := add_unique X h second domain_set in
    Ok (domain_set1, true)
  else
    match second with
    | UOper _ _ optype operand =>
        if bool_decide (optype = kCAST) then
          match operand with
          | Some (Constant _ _ _ _) =>
              perform domain_set1 := add_unique X h second domain_set in
              Ok (domain_set1, true)
          | _ => recurse
          end
        else recurse
    | _ => recurse
    end.

(** The loop of [CaseExpr::get_domain] over [expr_pair_list]. *)
Definition domain_of_pairs (get_domain : Expr -> list Expr -> result (list Expr))
    : list (Expr * Expr) -> list Expr -> result (list Expr * bool) :=
  fix each (l : list (Expr * Expr)) (domain_set : list Expr) :=
    match l with
    | [] => Ok (domain_set, true)
    | (_, second) :: l' =>
        perform '(domain_set1, go_on) := domain_of_then get_domain second domain_set in
        if go_on then each l' domain_set1 else Ok (domain_set1, false)
    end.

(** The part of [CaseExpr::get_domain] for [else_expr], which is not
    null.  For a CAST of a literal it is the literal that is added; for a
    CAST of anything else, [else_expr] being a [UOper], nothing is. *)
Definition domain_of_else (get_domain : Expr -> list Expr -> result (list Expr))
    (else_expr : Expr) (domain_set : list Expr) : result (list Expr) :=
  if is_Constant else_expr then add_unique X h else_expr domain_set
  else if bool_decide (is_Some (as_ColumnVar else_expr)) then
    add_unique X h else_expr domain_set
  else
    match else_expr with
    | UOper _ _ optype operand =>
        if bool_decide (optype = kCAST) then
          match operand with
          | Some (Constant _ _ _ _ as c) => add_unique X h c domain_set
          | _ => Ok domain_set
          end
        else get_domain else_expr domain_set
    | _ => get_domain else_expr domain_set
    end.

(** [get_domain] with its override in [CaseExpr]: the domain set after
    the call. *)
Fixpoint get_domain (this : Expr) (domain_set : list Expr) {struct this}
    : result (list Expr) :=
  match this with
  | CaseExpr _ _ expr_pair_list else_expr =>
      perform '(domain_set1, go_on) :=
        domain_of_pairs get_domain expr_pair_list domain_set in
      if go_on then
        match else_expr with
        | Some e => domain_of_else get_domain e domain_set1
        | None => Ok domain_set1
        end
      else Ok domain_set1
  | _ => Expr_get_domain this domain_set
  end.

End GetDomain.

(** [add_unique] of the nodes of [l], one after the other. *)
Fixpoint add_all_unique (X : Externals) (h : heap) (l : list Expr)
    (domain_set : list Expr) : result (list Expr) :=
  match l with
  | [] => Ok domain_set
  | e :: l' =>
      perform domain_set1 := add_unique X h e domain_set in
      add_all_unique X h l' domain_set1
  end.

(** A literal or a column reference: the values [CaseExpr::get_domain]
    adds as they are. *)
Definition is_plain_value (e : Expr) : bool :=
  is_Constant e || bool_decide (is_Some (as_ColumnVar e)).

(** A CAST node, and a CAST node over a literal. *)
Definition is_cast (e : Expr) : bool :=
  match e with
  | UOper _ _ optype _ => bool_decide (optype = kCAST)
  | _ => false
  end.

Definition is_cast_of_literal (e : Expr) : bool :=
  match e with
  | UOper _ _ optype (Some (Constant _ _ _ _)) => bool_decide (optype = kCAST)
  | _ => false
  end.

(** What the ELSE result [e], a literal, a column reference or a CAST,
    contributes to the domain: itself, or the literal under the CAST, or
    nothing. *)
Definition added_for_else (e : Expr) : list Expr :=
  if is_plain_value e then [e]
  else
    match e with
    | UOper _ _ _ (Some (Constant _ _ _ _ as c)) => [c]
    | _ => []
    end.

(** * Properties *)

(** ** Type promotion: properties *)

Example common_numeric_type_S1 :
  common_numeric_type (SQLTypeInfo2 kSMALLINT false) (DECIMAL 10 2)
  = Ok (NUMERIC 10 2).
Proof. reflexivity. Qed.

Example common_numeric_type_int_decimal :
  common_numeric_type INT (DECIMAL 18 2) = Ok (NUMERIC 18 2).
Proof. reflexivity. Qed.

(** X2.  Away from the DECIMAL-with-INT pair the promotion is symmetric. *)
Lemma common_numeric_type_sym_other (A B : SQLTypeInfo) :
  ~ (is_decimal A = true /\ get_type B = kINT) ->
  ~ (is_decimal B = true /\ get_type A = kINT) ->
  common_numeric_type A B = common_numeric_type B A.
Proof.
  intros HAB HBA. unfold common_numeric_type, is_number, is_decimal in *.
  destruct A as [tA sA dA scA nA cA pA], B as [tB sB dB scB nB cB pB].
  simpl in *.
  destruct tA, tB; simpl; try reflexivity;
    try (exfalso; tauto);
    unfold SQLTypeInfo4, set_fixed_size;
    rewrite ?(Z.max_comm dA dB), ?(Z.max_comm scA scB),
            ?(Z.max_comm (dA - scA) (dB - scB)); reflexivity.
Qed.

(** C1. [common_numeric_type] is not symmetric on DECIMAL with INT:
    with the DECIMAL first, the branch for INT takes the dimension of the
    INT operand where the mirrored branch takes that of the DECIMAL one.
    For DECIMAL(18,2) and INT the two orders give NUMERIC(12,2) and
    NUMERIC(18,2); the dimension [max(min(19, 10 + s), d)] is 18. *)
Theorem common_numeric_type_decimal_int_differs :
  common_numeric_type (DECIMAL 18 2) INT = Ok (NUMERIC 12 2)
  /\ common_numeric_type INT (DECIMAL 18 2) = Ok (NUMERIC 18 2)
  /\ Z.max (Z.min 19 (10 + 2)) 18 = 18
  /\ common_numeric_type (DECIMAL 18 2) INT <> common_numeric_type INT (DECIMAL 18 2).
Proof. repeat split; try reflexivity. discriminate. Qed.

Example common_string_type_S3_equal :
  common_string_type spec_TRANSIENT_DICT
    (VARCHAR 10 kENCODING_DICT 3) (VARCHAR 20 kENCODING_DICT 3)
  = Ok (VARCHAR 20 kENCODING_DICT 3).
Proof. reflexivity. Qed.

(** C2, as stated, fails: for VARCHAR(10, DICT, cp=3) and
    VARCHAR(20, DICT, cp=5), whose dictionaries are unrelated, the result is
    VARCHAR(20, NONE) with [comp_param] 0, not 5. *)
Lemma common_string_type_unrelated_dict_not_max :
  common_string_type spec_TRANSIENT_DICT
    (VARCHAR 10 kENCODING_DICT 3) (VARCHAR 20 kENCODING_DICT 5)
  = Ok (VARCHAR 20 kENCODING_NONE 0)
  /\ 3 <> 5 /\ 3 <> spec_TRANSIENT_DICT 5 /\ 5 <> spec_TRANSIENT_DICT 3
  /\ ~ (exists r,
          common_string_type spec_TRANSIENT_DICT
            (VARCHAR 10 kENCODING_DICT 3) (VARCHAR 20 kENCODING_DICT 5) = Ok r
          /\ get_comp_param r = Z.max 3 5).
Proof.
  repeat split; try discriminate.
  intros (r & Hr & Hcp). vm_compute in Hr. inversion Hr; subst r.
  vm_compute in Hcp. discriminate.
Qed.

(** C2, amended.  For two DICT-encoded string types: when the
    [comp_param]s are equal, or the first is [TRANSIENT_DICT] of the
    second, the result keeps DICT with the smaller [comp_param]; otherwise
    the result has compression NONE and [comp_param] 0.  The result is TEXT
    (dimension 0) when either side is TEXT and VARCHAR with the larger
    dimension otherwise. *)
Theorem common_string_type_dict_dict (TRANSIENT_DICT : Z -> Z)
    (type1 type2 : SQLTypeInfo) :
  is_string type1 = true -> is_string type2 = true ->
  get_compression type1 = kENCODING_DICT ->
  get_compression type2 = kENCODING_DICT ->
  let kind := fst (common_string_kind type1 type2) in
  let dim := snd (common_string_kind type1 type2) in
  (get_comp_param type1 = get_comp_param type2
   \/ get_comp_param type1 = TRANSIENT_DICT (get_comp_param type2) ->
   common_string_type TRANSIENT_DICT type1 type2
   = Ok (SQLTypeInfo7 kind dim 0 false kENCODING_DICT
           (Z.min (get_comp_param type1) (get_comp_param type2)) kNULLT))
  /\ (get_comp_param type1 <> get_comp_param type2 ->
      get_comp_param type1 <> TRANSIENT_DICT (get_comp_param type2) ->
      common_string_type TRANSIENT_DICT type1 type2
      = Ok (SQLTypeInfo7 kind dim 0 false kENCODING_NONE 0 kNULLT)).
Proof.
  intros Hs1 Hs2 Hc1 Hc2. unfold common_string_kind, common_string_type.
  rewrite Hs1, Hs2, Hc1, Hc2. simpl.
  destruct (bool_decide (get_type type1 = kTEXT) || bool_decide (get_type type2 = kTEXT));
    (split; [intros Hrel | intros Hne1 Hne2]).
  - destruct Hrel as [Heq | Heq].
    + rewrite (bool_decide_eq_true_2 _ Heq). reflexivity.
    + rewrite (bool_decide_eq_true_2 _ Heq), orb_true_r. reflexivity.
  - rewrite (bool_decide_eq_false_2 _ Hne1), (bool_decide_eq_false_2 _ Hne2).
    reflexivity.
  - destruct Hrel as [Heq | Heq].
    + rewrite (bool_decide_eq_true_2 _ Heq). reflexivity.
    + rewrite (bool_decide_eq_true_2 _ Heq), orb_true_r. reflexivity.
  - rewrite (bool_decide_eq_false_2 _ Hne1), (bool_decide_eq_false_2 _ Hne2).
    reflexivity.
Qed.

(** The amended C2 at VARCHAR(10, DICT, 3) with VARCHAR(20, DICT, 3), and
    at the unrelated dictionaries 3 and 5. *)
Lemma common_string_type_dict_dict_witness :
  common_string_type spec_TRANSIENT_DICT
    (VARCHAR 10 kENCODING_DICT 3) (VARCHAR 20 kENCODING_DICT 3)
  = Ok (VARCHAR 20 kENCODING_DICT 3)
  /\ common_string_type spec_TRANSIENT_DICT
       (VARCHAR 10 kENCODING_DICT 3) (VARCHAR 20 kENCODING_DICT 5)
     = Ok (VARCHAR 20 kENCODING_NONE 0).
Proof.
  split.
  - apply (common_string_type_dict_dict spec_TRANSIENT_DICT
             (VARCHAR 10 kENCODING_DICT 3) (VARCHAR 20 kENCODING_DICT 3));
      try reflexivity.
    left. reflexivity.
  - apply (common_string_type_dict_dict spec_TRANSIENT_DICT
             (VARCHAR 10 kENCODING_DICT 3) (VARCHAR 20 kENCODING_DICT 5));
      try reflexivity; vm_compute; discriminate.
Defined.

(** ** Comparison of temporal operands *)

Example analyze_type_info_S2_timestamp_date :
  analyze_type_info kEQ (SQLTypeInfo4 kTIMESTAMP 0 0 false) (SQLTypeInfo2 kDATE false)
  = Ok (SQLTypeInfo2 kBOOLEAN false,
        SQLTypeInfo4 kTIMESTAMP 0 0 false, SQLTypeInfo4 kTIMESTAMP 0 0 false).
Proof. reflexivity. Qed.

Example analyze_type_info_S2_time_date :
  analyze_type_info kEQ (SQLTypeInfo2 kTIME false) (SQLTypeInfo2 kDATE false)
  = Throw "Cannont compare between TIME and DATE.".
Proof. reflexivity. Qed.

Lemma comparison_not_logic op : IS_COMPARISON op = true -> IS_LOGIC op = false.
Proof. destruct op; simpl; congruence. Qed.

Lemma ti_eqb_false_type (a b : SQLTypeInfo) :
  get_type a <> get_type b -> ti_eqb a b = false.
Proof. intros H. apply bool_decide_eq_false_2. congruence. Qed.

(** What a comparison of two types of the same temporal kind [k]
    answers: BOOLEAN, and both operands of kind [k] with the larger of the
    two dimensions. *)
Lemma analyze_type_info_same_kind op (k : SQLTypes) (l r : SQLTypeInfo) :
  IS_COMPARISON op = true ->
  k = kTIMESTAMP \/ k = kTIME ->
  get_type l = k -> get_type r = k ->
  exists res nl nr,
    analyze_type_info op l r = Ok (res, nl, nr)
    /\ get_type res = kBOOLEAN
    /\ get_type nl = k /\ get_type nr = k
    /\ get_dimension nl = Z.max (get_dimension l) (get_dimension r)
    /\ get_dimension nr = Z.max (get_dimension l) (get_dimension r).
Proof.
  intros Hop Hk Hl Hr. unfold analyze_type_info.
  rewrite (comparison_not_logic _ Hop), Hop.
  destruct (ti_eqb l r) eqn:Heq.
  - apply bool_decide_eq_true_1 in Heq. subst r. simpl.
    eexists _, _, _. split; [reflexivity |].
    simpl. rewrite Z.max_id. tauto.
  - simpl. unfold is_number, is_time. rewrite Hl, Hr.
    destruct Hk as [-> | ->]; simpl;
      (eexists _, _, _; split; [reflexivity |]); simpl; tauto.
Qed.

(** C3. For every comparison operator the temporal matrix holds:
    TIMESTAMP against DATE, in either order, coerces both operands to the
    type of the TIMESTAMP side and answers BOOLEAN; TIMESTAMP against
    TIMESTAMP and TIME against TIME coerce both operands to that kind with
    the larger of the two dimensions; TIME against TIMESTAMP or DATE, in
    either order, throws one of the IncomparableTemporals messages. *)
Theorem analyze_type_info_temporal_matrix (op : SQLOps) (l r : SQLTypeInfo) :
  IS_COMPARISON op = true ->
  (get_type l = kTIMESTAMP -> get_type r = kDATE ->
   exists res, analyze_type_info op l r = Ok (res, l, l)
               /\ get_type res = kBOOLEAN)
  /\ (get_type l = kDATE -> get_type r = kTIMESTAMP ->
      exists res, analyze_type_info op l r = Ok (res, r, r)
                  /\ get_type res = kBOOLEAN)
  /\ (forall k, k = kTIMESTAMP \/ k = kTIME ->
      get_type l = k -> get_type r = k ->
      exists res nl nr,
        analyze_type_info op l r = Ok (res, nl, nr)
        /\ get_type res = kBOOLEAN
        /\ get_type nl = k /\ get_type nr = k
        /\ get_dimension nl = Z.max (get_dimension l) (get_dimension r)
        /\ get_dimension nr = Z.max (get_dimension l) (get_dimension r))
  /\ ((get_type l = kTIME /\ (get_type r = kTIMESTAMP \/ get_type r = kDATE))
      \/ ((get_type l = kTIMESTAMP \/ get_type l = kDATE) /\ get_type r = kTIME) ->
      exists what, analyze_type_info op l r = Throw what
                   /\ IncomparableTemporals what).
Proof.
  intros Hop. pose proof (comparison_not_logic _ Hop) as Hlog.
  split; [| split; [| split]].
  - intros Hl Hr. unfold analyze_type_info. rewrite Hlog, Hop.
    rewrite ti_eqb_false_type by congruence. simpl.
    unfold is_number, is_time. rewrite Hl, Hr. simpl.
    eexists. split; reflexivity.
  - intros Hl Hr. unfold analyze_type_info. rewrite Hlog, Hop.
    rewrite ti_eqb_false_type by congruence. simpl.
    unfold is_number, is_time. rewrite Hl, Hr. simpl.
    eexists. split; reflexivity.
  - intros k Hk Hl Hr. exact (analyze_type_info_same_kind op k l r Hop Hk Hl Hr).
  - intros Hcase. unfold analyze_type_info, IncomparableTemporals.
    rewrite Hlog, Hop.
    rewrite ti_eqb_false_type by (intuition congruence). simpl.
    unfold is_number, is_time.
    destruct Hcase as [[Hl [Hr | Hr]] | [[Hl | Hl] Hr]]; rewrite Hl, Hr; simpl;
      eexists; (split; [reflexivity |]); tauto.
Qed.

(** The matrix at EQ, TIMESTAMP(0) against DATE. *)
Lemma analyze_type_info_temporal_matrix_witness :
  IS_COMPARISON kEQ = true
  /\ exists res,
       analyze_type_info kEQ (SQLTypeInfo4 kTIMESTAMP 0 0 false) (SQLTypeInfo2 kDATE false)
       = Ok (res, SQLTypeInfo4 kTIMESTAMP 0 0 false, SQLTypeInfo4 kTIMESTAMP 0 0 false)
       /\ get_type res = kBOOLEAN.
Proof.
  split; [reflexivity |].
  apply (analyze_type_info_temporal_matrix kEQ
           (SQLTypeInfo4 kTIMESTAMP 0 0 false) (SQLTypeInfo2 kDATE false));
    reflexivity.
Defined.

(** ** Casting a string literal *)

Lemma is_string_not_number ti : is_string ti = true -> is_number ti = false.
Proof. unfold is_string, is_number. destruct (get_type ti); congruence. Qed.

Lemma length_substring_0 (n : nat) (s : string) :
  (n <= String.length s)%nat -> String.length (String.substring 0 n s) = n.
Proof.
  revert s. induction n as [| n IH]; intros s Hn.
  - destruct s; reflexivity.
  - destruct s as [| c s]; simpl in *; [lia |].
    rewrite IH by lia. reflexivity.
Qed.

Lemma to_size_t_small z : 0 <= z < 2 ^ 31 -> to_size_t z = z.
Proof. intros Hz. unfold to_size_t. apply Z.mod_small. lia. Qed.

Lemma do_cast_same_type (X : Externals) ti d h : do_cast X ti d h ti = Ok (ti, d, h).
Proof. unfold do_cast, ti_eqb. rewrite bool_decide_eq_true_2 by reflexivity. reflexivity. Qed.

Example do_cast_hello_world_11_to_5 :
  do_cast example_externals (VARCHAR 11 kENCODING_NONE 0) (stringval (Some 0%nat))
    [Some "hello world"%string] (VARCHAR 5 kENCODING_NONE 0)
  = Ok (VARCHAR 5 kENCODING_NONE 0, stringval (Some 1%nat),
        [None; Some "hello"%string]).
Proof. reflexivity. Qed.

(** C4, as stated, fails on its own example: a literal 'hello world'
    whose type already is VARCHAR(5) is left as it is by
    [do_cast(VARCHAR(5))], which returns at once when the two types are
    equal. *)
Lemma do_cast_equal_type_keeps_long_value :
  do_cast example_externals (VARCHAR 5 kENCODING_NONE 0) (stringval (Some 0%nat))
    [Some "hello world"%string] (VARCHAR 5 kENCODING_NONE 0)
  = Ok (VARCHAR 5 kENCODING_NONE 0, stringval (Some 0%nat),
        [Some "hello world"%string])
  /\ deref [Some "hello world"%string] (Some 0%nat) = Ok "hello world"%string
  /\ 5 < Z.of_nat (String.length "hello world")
  /\ "hello world"%string <> "hello"%string.
Proof. repeat split; try reflexivity. discriminate. Qed.

(** C4, amended.  A string literal whose payload [s] is allocated and
    whose type differs from the target is cut by [do_cast] to the first
    [dimension] characters when the target is a bounded string type (not
    TEXT) whose dimension is a non-negative [int] smaller than the length
    of [s]: the literal then has the target type and holds a new string of
    exactly [dimension] characters, the prefix of [s].  When the type of the
    literal equals the target, [do_cast] changes nothing. *)
Theorem do_cast_string_truncates (X : Externals) (type_info new_type_info : SQLTypeInfo)
    (p : nat) (s : string) (h : heap) :
  is_string type_info = true ->
  is_string new_type_info = true ->
  get_type new_type_info <> kTEXT ->
  h !! p = Some (Some s) ->
  0 <= get_dimension new_type_info < 2 ^ 31 ->
  get_dimension new_type_info < Z.of_nat (String.length s) ->
  (type_info <> new_type_info ->
   exists p' h',
     do_cast X type_info (stringval (Some p)) h new_type_info
     = Ok (new_type_info, stringval (Some p'), h')
     /\ deref h' (Some p') = Ok (substr0 s (get_dimension new_type_info))
     /\ Z.of_nat (String.length (substr0 s (get_dimension new_type_info)))
        = get_dimension new_type_info)
  /\ (type_info = new_type_info ->
      do_cast X type_info (stringval (Some p)) h new_type_info
      = Ok (type_info, stringval (Some p), h)).
Proof.
  intros Hs Hnew Htext Hp Hdim Hlen. split.
  - intros Hne. unfold do_cast, ti_eqb.
    rewrite bool_decide_eq_false_2 by exact Hne.
    rewrite (is_string_not_number _ Hnew), Hnew, Hs. simpl.
    unfold cast_string. simpl.
    rewrite (bool_decide_eq_true_2 _ Htext). simpl. rewrite Hp. simpl.
    rewrite (to_size_t_small _ Hdim).
    rewrite bool_decide_eq_true_2 by exact Hlen.
    unfold new_string, delete_string.
    assert (Hlt : (p < length h)%nat) by (eapply lookup_lt_Some; exact Hp).
    rewrite lookup_app_l by exact Hlt. rewrite Hp. simpl.
    eexists _, _. split; [reflexivity |]. split.
    + unfold deref. rewrite list_lookup_insert_ne by lia.
      rewrite lookup_app_r by lia. rewrite Nat.sub_diag. reflexivity.
    + unfold substr0. rewrite length_substring_0 by lia. lia.
  - intros ->. apply do_cast_same_type.
Qed.

(** The amended C4 at 'hello world' of type VARCHAR(11), cast to
    VARCHAR(5): the literal then holds 'hello'. *)
Lemma do_cast_string_truncates_witness :
  exists p' h',
    do_cast example_externals (VARCHAR 11 kENCODING_NONE 0) (stringval (Some 0%nat))
      [Some "hello world"%string] (VARCHAR 5 kENCODING_NONE 0)
    = Ok (VARCHAR 5 kENCODING_NONE 0, stringval (Some p'), h')
    /\ deref h' (Some p') = Ok (substr0 "hello world" 5)
    /\ Z.of_nat (String.length (substr0 "hello world" 5)) = 5.
Proof.
  apply (do_cast_string_truncates example_externals
           (VARCHAR 11 kENCODING_NONE 0) (VARCHAR 5 kENCODING_NONE 0)
           0%nat "hello world"%string [Some "hello world"%string]);
    try reflexivity; try discriminate; simpl; lia.
Defined.

(** ** Casting a null literal *)

Lemma set_null_value_spec (X : Externals) (ti : SQLTypeInfo) (h : heap) :
  null_sentinel_spec X (snd (set_null_value X ti h)) ti (fst (set_null_value X ti h))
  /\ h `prefix_of` snd (set_null_value X ti h).
Proof.
  unfold null_sentinel_spec, set_null_value.
  destruct (get_type ti); simpl; try (split; [reflexivity | reflexivity]).
  all: split;
    [ exists (length h); split; [reflexivity |];
      rewrite lookup_app_r by lia; rewrite Nat.sub_diag; reflexivity
    | apply prefix_app_r; reflexivity ].
Qed.

Example add_cast_null_to_dict_string :
  add_cast example_externals
    (Constant (SQLTypeInfo2 kDATE false) false true (timeval NULL_BIGINT)) []
    (VARCHAR 8 kENCODING_DICT (-5))
  = Ok (Constant (VARCHAR 8 kENCODING_DICT (-5)) false true (stringval (Some 0%nat)),
        [Some ""%string], shared_from_this).
Proof. reflexivity. Qed.

(** C9. [add_cast] on a null literal succeeds for every target type [T],
    whatever [is_castable] and the transient dictionary ids are: it
    returns the receiver itself, whose type is now [T] and whose payload is
    the null sentinel of the kind of [T]; nothing else of the receiver
    changes, no cast node is made, and the strings allocated before stay as
    they are. *)
Theorem Constant_add_cast_null (X : Externals) (type_info : SQLTypeInfo)
    (contains_agg : bool) (constval : Datum) (h : heap) (T : SQLTypeInfo) :
  exists constval' h',
    add_cast X (Constant type_info contains_agg true constval) h T
    = Ok (Constant T contains_agg true constval', h', shared_from_this)
    /\ null_sentinel_spec X h' T constval'
    /\ h `prefix_of` h'.
Proof.
  simpl. destruct (set_null_value X T h) as [d h1] eqn:Hnull.
  exists d, h1. split; [reflexivity |].
  pose proof (set_null_value_spec X T h) as Hspec. rewrite Hnull in Hspec.
  exact Hspec.
Qed.

(** ** The cast of a cast: string-to-dict collapse *)

(** C10. When the receiver is a CAST node of a NONE-encoded string type
    over a DICT-encoded string operand, and the target is a DICT-encoded
    string type whose [comp_param] the operand's equals or is the
    [TRANSIENT_DICT] of, [add_cast] returns the operand and leaves the
    receiver with a null [operand]; the other members of the receiver and
    the heap are unchanged. *)
Theorem UOper_add_cast_collapse (X : Externals) (type_info : SQLTypeInfo)
    (contains_agg : bool) (operand : Expr) (h : heap) (new_type_info : SQLTypeInfo) :
  is_string type_info = true ->
  get_compression type_info = kENCODING_NONE ->
  is_string new_type_info = true ->
  get_compression new_type_info = kENCODING_DICT ->
  is_string (get_type_info operand) = true ->
  get_compression (get_type_info operand) = kENCODING_DICT ->
  get_comp_param (get_type_info operand) = get_comp_param new_type_info
  \/ get_comp_param (get_type_info operand)
     = TRANSIENT_DICT X (get_comp_param new_type_info) ->
  add_cast X (UOper type_info contains_agg kCAST (Some operand)) h new_type_info
  = Ok (UOper type_info contains_agg kCAST None, h, other operand).
Proof.
  intros Hs Hc Hns Hnc Hos Hoc Hrel. simpl.
  rewrite Hs, Hns, Hnc, Hc, Hos, Hoc. simpl.
  destruct Hrel as [Heq | Heq].
  - rewrite (bool_decide_eq_true_2 _ Heq). reflexivity.
  - rewrite (bool_decide_eq_true_2 _ Heq), orb_true_r. reflexivity.
Qed.

(** C10 at a cast to VARCHAR(10, NONE) over a column of type
    VARCHAR(10, DICT, 3), cast again to VARCHAR(10, DICT, 3). *)
Lemma UOper_add_cast_collapse_witness :
  add_cast example_externals
    (UOper (VARCHAR 10 kENCODING_NONE 0) false kCAST
       (Some (ColumnVar (VARCHAR 10 kENCODING_DICT 3) false 1 2 0))) []
    (VARCHAR 10 kENCODING_DICT 3)
  = Ok (UOper (VARCHAR 10 kENCODING_NONE 0) false kCAST None, [],
        other (ColumnVar (VARCHAR 10 kENCODING_DICT 3) false 1 2 0)).
Proof.
  apply (UOper_add_cast_collapse example_externals (VARCHAR 10 kENCODING_NONE 0)
           false (ColumnVar (VARCHAR 10 kENCODING_DICT 3) false 1 2 0) []
           (VARCHAR 10 kENCODING_DICT 3));
    try reflexivity.
  left. reflexivity.
Defined.

(** ** normalize_simple_predicate *)

Lemma deep_copy_Constant_copy (X : Externals) (type_info : SQLTypeInfo)
    (contains_agg is_null : bool) (constval : Datum) (h : heap) :
  Constant_readable h (Constant type_info contains_agg is_null constval) ->
  exists constval' h',
    deep_copy X (Constant type_info contains_agg is_null constval) h
    = Ok (Constant type_info false is_null constval', h')
    /\ h `prefix_of` h'
    /\ (is_null = false -> same_payload h h' constval constval')
    /\ (is_null = false -> is_string type_info = false ->
        constval' = constval /\ h' = h).
Proof.
  simpl. intros Hread.
  destruct (is_string type_info) eqn:Hs, is_null; simpl.
  - unfold makeConstant.
    pose proof (set_null_value_spec X type_info h) as [_ Hext].
    destruct (set_null_value X type_info h) as [d1 h1].
    eexists _, _. split; [reflexivity |]. split; [exact Hext |].
    split; intros Hn; discriminate Hn.
  - destruct (Hread eq_refl eq_refl) as (p & s & -> & Hp). simpl. rewrite Hp. simpl.
    eexists _, _. split; [reflexivity |].
    split; [apply prefix_app_r; reflexivity |]. split.
    + intros _. right. exists p, (length h), s.
      split; [reflexivity |]. split; [reflexivity |]. split; [exact Hp |].
      rewrite lookup_app_r by lia. rewrite Nat.sub_diag. reflexivity.
    + intros _ Hf. discriminate Hf.
  - unfold makeConstant.
    pose proof (set_null_value_spec X type_info h) as [_ Hext].
    destruct (set_null_value X type_info h) as [d1 h1].
    eexists _, _. split; [reflexivity |]. split; [exact Hext |].
    split; intros Hn; discriminate Hn.
  - eexists _, _. split; [reflexivity |]. split; [reflexivity |].
    split; [intros _; left; reflexivity | intros _ _; split; reflexivity].
Qed.

Example normalize_simple_predicate_S6 :
  normalize_simple_predicate example_externals
    (BinOper (SQLTypeInfo2 kBOOLEAN false) false kLT kONE
       (Constant INT false false (intval 3)) (ColumnVar INT false 7 1 0)) []
  = Ok (Some (BinOper (SQLTypeInfo2 kBOOLEAN false) false kGT kONE
                (ColumnVar INT false 7 1 0) (Constant INT false false (intval 3))),
        0, []).
Proof. reflexivity. Qed.

(** C7. For a [BinOper] with a comparison operator and qualifier ONE:
    with a [ColumnVar] on the left and a [Constant] on the right,
    [normalize_simple_predicate] returns a deep copy of the node and sets
    [rte_idx] to the member [rte_idx] of the [ColumnVar]; with a [Constant]
    on the left and a [ColumnVar] on the right it returns a [BinOper] over
    deep copies of the two operands, swapped, with the operator commuted
    (EQ and NE stay, LT and GT, LE and GE change places) and sets [rte_idx]
    to the member [rte_idx] of the [ColumnVar].  The copy of the
    [ColumnVar] has its type and its three ids; the copy of the [Constant]
    has its type and nullness and, when it is not null, the same payload
    (a string in a newly allocated cell).  In every other case (an operator
    that is no comparison, a qualifier ANY or ALL, operands of another
    shape) it returns the null sentinel and leaves [rte_idx] at -1. *)
Theorem normalize_simple_predicate_BinOper (X : Externals)
    (type_info : SQLTypeInfo) (contains_agg : bool) (optype : SQLOps)
    (qualifier : SQLQualifier) (left_operand right_operand : Expr) (h : heap) :
  let this :=
    BinOper type_info contains_agg optype qualifier left_operand right_operand in
  (forall cv_type_info cv_contains_agg table_id column_id rte_idx
          c_type_info c_contains_agg is_null constval,
     IS_COMPARISON optype = true -> qualifier = kONE ->
     left_operand
     = ColumnVar cv_type_info cv_contains_agg table_id column_id rte_idx ->
     right_operand = Constant c_type_info c_contains_agg is_null constval ->
     Constant_readable h right_operand ->
     exists constval' h',
       let copy :=
         BinOper type_info contains_agg optype kONE
           (ColumnVar cv_type_info false table_id column_id rte_idx)
           (Constant c_type_info false is_null constval') in
       deep_copy X this h = Ok (copy, h')
       /\ normalize_simple_predicate X this h = Ok (Some copy, rte_idx, h')
       /\ h `prefix_of` h'
       /\ (is_null = false -> same_payload h h' constval constval')
       /\ (is_null = false -> is_string c_type_info = false ->
           constval' = constval /\ h' = h))
  /\ (forall cv_type_info cv_contains_agg table_id column_id rte_idx
             c_type_info c_contains_agg is_null constval,
        IS_COMPARISON optype = true -> qualifier = kONE ->
        left_operand = Constant c_type_info c_contains_agg is_null constval ->
        right_operand
        = ColumnVar cv_type_info cv_contains_agg table_id column_id rte_idx ->
        Constant_readable h left_operand ->
        exists constval' h',
          deep_copy X right_operand h
          = Ok (ColumnVar cv_type_info false table_id column_id rte_idx, h)
          /\ deep_copy X left_operand h
             = Ok (Constant c_type_info false is_null constval', h')
          /\ normalize_simple_predicate X this h
             = Ok (Some (BinOper type_info contains_agg (COMMUTE_COMPARISON optype)
                           kONE
                           (ColumnVar cv_type_info false table_id column_id rte_idx)
                           (Constant c_type_info false is_null constval')),
                   rte_idx, h')
          /\ h `prefix_of` h'
          /\ (is_null = false -> same_payload h h' constval constval')
          /\ (is_null = false -> is_string c_type_info = false ->
              constval' = constval /\ h' = h))
  /\ (IS_COMPARISON optype = false \/ qualifier <> kONE
      \/ (~ (is_ColumnVar left_operand = true /\ is_Constant right_operand = true)
          /\ ~ (is_Constant left_operand = true /\ is_ColumnVar right_operand = true)) ->
      normalize_simple_predicate X this h = Ok (None, -1, h))
  /\ (COMMUTE_COMPARISON kEQ = kEQ /\ COMMUTE_COMPARISON kNE = kNE
      /\ COMMUTE_COMPARISON kLT = kGT /\ COMMUTE_COMPARISON kGT = kLT
      /\ COMMUTE_COMPARISON kLE = kGE /\ COMMUTE_COMPARISON kGE = kLE).
Proof.
  intros this. subst this. split; [| split; [| split]].
  - intros cti cca t c r lti lca n d Hop -> -> -> Hread.
    destruct (deep_copy_Constant_copy X lti lca n d h Hread)
      as (d' & h' & Hcopy & Hext & Hsame & Hplain).
    exists d', h'. cbn zeta.
    assert (Hdeep : deep_copy X
                      (BinOper type_info contains_agg optype kONE
                         (ColumnVar cti cca t c r) (Constant lti lca n d)) h
                    = Ok (BinOper type_info contains_agg optype kONE
                            (ColumnVar cti false t c r) (Constant lti false n d'), h')).
    { cbn [deep_copy bind makeColumnVar]. cbn [deep_copy] in Hcopy. rewrite Hcopy.
      reflexivity. }
    split; [exact Hdeep |]. split; [| auto].
    cbn [normalize_simple_predicate is_ColumnVar is_Constant get_rte_idx].
    rewrite Hop. cbn [negb orb andb]. rewrite bool_decide_eq_false_2 by tauto.
    rewrite Hdeep. reflexivity.
  - intros cti cca t c r lti lca n d Hop -> -> -> Hread.
    destruct (deep_copy_Constant_copy X lti lca n d h Hread)
      as (d' & h' & Hcopy & Hext & Hsame & Hplain).
    exists d', h'. split; [reflexivity |]. split; [exact Hcopy |]. split; [| auto].
    cbn [normalize_simple_predicate is_ColumnVar is_Constant get_rte_idx].
    rewrite Hop. cbn [negb orb andb]. rewrite bool_decide_eq_false_2 by tauto.
    change (deep_copy X (ColumnVar cti cca t c r) h)
      with (Ok (A := Expr * heap) (ColumnVar cti false t c r, h)).
    cbn [bind]. rewrite Hcopy. reflexivity.
  - intros Hcase. unfold normalize_simple_predicate.
    destruct (IS_COMPARISON optype) eqn:Hop; simpl; [| reflexivity].
    destruct (bool_decide (qualifier <> kONE)) eqn:Hq; [reflexivity |].
    apply bool_decide_eq_false_1 in Hq.
    destruct Hcase as [Hc | [Hc | [Hn1 Hn2]]]; [discriminate | | ].
    + exfalso. apply Hq. exact Hc.
    + destruct (is_ColumnVar left_operand) eqn:H1, (is_Constant right_operand) eqn:H2,
        (is_Constant left_operand) eqn:H3, (is_ColumnVar right_operand) eqn:H4;
        simpl; try reflexivity; exfalso; tauto.
  - repeat split.
Qed.

(** C7 at [3 < t1.a], the column [t1.a] having [rte_idx] 0: the result is
    [t1.a > 3] over copies of the column and of the literal, and [rte_idx]
    is 0.  And at [t3.s = 'hello'], the column having [rte_idx] 2: the
    result is the copy of the comparison, whose literal holds a new string
    'hello', and [rte_idx] is 2. *)
Lemma normalize_simple_predicate_BinOper_witness :
  normalize_simple_predicate example_externals
    (BinOper (SQLTypeInfo2 kBOOLEAN false) false kLT kONE
       (Constant INT false false (intval 3)) (ColumnVar INT false 7 1 0)) []
  = Ok (Some (BinOper (SQLTypeInfo2 kBOOLEAN false) false kGT kONE
                (ColumnVar INT false 7 1 0) (Constant INT false false (intval 3))),
        0, [])
  /\ normalize_simple_predicate example_externals
       (BinOper (SQLTypeInfo2 kBOOLEAN false) false kEQ kONE
          (ColumnVar (VARCHAR 5 kENCODING_NONE 0) false 9 4 2)
          (Constant (VARCHAR 5 kENCODING_NONE 0) false false (stringval (Some 0%nat))))
       [Some "hello"%string]
     = Ok (Some (BinOper (SQLTypeInfo2 kBOOLEAN false) false kEQ kONE
                   (ColumnVar (VARCHAR 5 kENCODING_NONE 0) false 9 4 2)
                   (Constant (VARCHAR 5 kENCODING_NONE 0) false false
                      (stringval (Some 1%nat)))),
           2, [Some "hello"%string; Some "hello"%string]).
Proof.
  split.
  - destruct (normalize_simple_predicate_BinOper example_externals
                (SQLTypeInfo2 kBOOLEAN false) false kLT kONE
                (Constant INT false false (intval 3)) (ColumnVar INT false 7 1 0) [])
      as (_ & Hswap & _).
    destruct (Hswap INT false 7 1 0 INT false false (intval 3)
                eq_refl eq_refl eq_refl eq_refl)
      as (d' & h' & _ & Hcopy & Hnorm & _).
    + simpl. intros Hs. discriminate Hs.
    + vm_compute in Hcopy. inversion Hcopy; subst d' h'. exact Hnorm.
  - destruct (normalize_simple_predicate_BinOper example_externals
                (SQLTypeInfo2 kBOOLEAN false) false kEQ kONE
                (ColumnVar (VARCHAR 5 kENCODING_NONE 0) false 9 4 2)
                (Constant (VARCHAR 5 kENCODING_NONE 0) false false
                   (stringval (Some 0%nat)))
                [Some "hello"%string])
      as (Hcopy & _).
    destruct (Hcopy (VARCHAR 5 kENCODING_NONE 0) false 9 4 2
                (VARCHAR 5 kENCODING_NONE 0) false false (stringval (Some 0%nat))
                eq_refl eq_refl eq_refl eq_refl)
      as (d' & h' & Hdeep & Hnorm & _).
    + simpl. intros _ _. exists 0%nat, "hello"%string. split; reflexivity.
    + vm_compute in Hdeep. inversion Hdeep; subst d' h'. exact Hnorm.
Defined.

(** ** Predicate classification *)

Example group_predicates_S5 :
  group_predicates
    (BinOper BOOL false kAND kONE
       (BinOper BOOL false kAND kONE
          (BinOper BOOL false kEQ kONE t1_a (lit 3))
          (BinOper BOOL false kEQ kONE t1_b t2_b))
       (BinOper BOOL false kGT kONE (lit 5) (lit 1)))
    no_predicates
  = Ok (mkPredicates [BinOper BOOL false kEQ kONE t1_a (lit 3)]
          [BinOper BOOL false kEQ kONE t1_b t2_b]
          [BinOper BOOL false kGT kONE (lit 5) (lit 1)]).
Proof. vm_compute. reflexivity. Qed.

Lemma bind_assoc {A B C : Type} (r : result A) (f : A -> result B)
    (g : B -> result C) :
  bind (bind r f) g = bind r (fun a => bind (f a) g).
Proof. destruct r; reflexivity. Qed.

Lemma push_by_size_class (c : Expr) (s : gset Z) (ps : predicates) :
  push_by_size c s ps
  = match category_of_size (size s) with
    | scan =>
        mkPredicates (scan_predicates ps ++ [c]) (join_predicates ps)
          (const_predicates ps)
    | join =>
        mkPredicates (scan_predicates ps) (join_predicates ps ++ [c])
          (const_predicates ps)
    | const =>
        mkPredicates (scan_predicates ps) (join_predicates ps)
          (const_predicates ps ++ [c])
    end.
Proof.
  unfold push_by_size. destruct (size s) as [| [| n]]; reflexivity.
Qed.

Lemma bind_Ok {A B : Type} (r : result A) (k : A -> result B) (b : B) :
  bind r k = Ok b -> exists a, r = Ok a /\ k a = Ok b.
Proof. destruct r; simpl; intros H; try discriminate. eauto. Qed.

(** What [collect_rte_idx] adds to the set it is given: the indices the
    node references. *)
Lemma collect_rte_idx_referenced (e : Expr) :
  forall s s' : gset Z,
    collect_rte_idx e s = Ok s' -> s' = referenced_rte_idx e ∪ s.
Proof.
  induction e; intros s s' Hc; simpl in Hc.
  - inversion Hc. reflexivity.
  - inversion Hc. reflexivity.
  - inversion Hc. simpl. set_solver.
  - destruct X as [o IHo |]; [| discriminate]. simpl. auto.
  - apply bind_Ok in Hc. destruct Hc as (s1 & H1 & H2).
    apply IHe1 in H1. apply IHe2 in H2. subst. simpl. set_solver.
  - inversion Hc. simpl. set_solver.
  - apply bind_Ok in Hc. destruct Hc as (s1 & H1 & H2).
    apply IHe in H1. subst s1.
    assert (Hs' : s' = ⋃ (map referenced_rte_idx value_list)
                       ∪ (referenced_rte_idx e ∪ s)).
    { revert H2. generalize (referenced_rte_idx e ∪ s) as s1. revert s'.
      induction X as [| p IHp l Hl IHl]; intros s' s1 H2.
      - inversion H2. simpl. set_solver.
      - apply bind_Ok in H2. destruct H2 as (s2 & H21 & H22).
        apply IHp in H21. subst s2. apply IHl in H22. subst s'.
        simpl. set_solver. }
    subst s'. simpl. set_solver.
  - simpl. auto.
  - apply bind_Ok in Hc. destruct Hc as (s1 & H1 & H2).
    apply bind_Ok in H2. destruct H2 as (s2 & H2 & H3).
    apply IHe1 in H1. apply IHe2 in H2. subst s1 s2.
    destruct X as [e3 IH3 |].
    + apply IH3 in H3. subst. simpl. set_solver.
    + inversion H3. simpl. set_solver.
  - destruct X as [a IHa |].
    + simpl. auto.
    + inversion Hc. simpl. set_solver.
  - apply bind_Ok in Hc. destruct Hc as (s1 & H1 & H2).
    assert (Hs1 : s1 = ⋃ (map (fun p => referenced_rte_idx (fst p) ∪ referenced_rte_idx (snd p)) expr_pair_list) ∪ s).
    { clear H2 X0. revert s s1 H1.
      induction X as [| [first second] Hp l Hl IHl]; intros s s1 H1.
      - inversion H1. simpl. set_solver.
      - inversion Hp as [? IHfirst ? IHsecond]; subst.
        apply bind_Ok in H1. destruct H1 as (s2 & H11 & H12).
        apply bind_Ok in H12. destruct H12 as (s3 & H12 & H13).
        apply IHfirst in H11. apply IHsecond in H12. apply IHl in H13.
        subst. simpl. set_solver. }
    subst s1. destruct X0 as [e IHe |].
    + apply IHe in H2. subst. simpl. set_solver.
    + inversion H2. simpl. set_solver.
  - simpl. auto.
  - simpl. auto.
Qed.

Lemma gathered_rte_idx_visited (c : Expr) (s : gset Z) :
  gathered_rte_idx c = Ok s -> s = visited_rte_idx c.
Proof.
  intros Hg.
  assert (Hcollect : forall e, collect_rte_idx e ∅ = Ok s -> s = referenced_rte_idx e).
  { intros e He. apply collect_rte_idx_referenced in He. set_solver. }
  destruct c; unfold visited_rte_idx;
    try (apply Hcollect; exact Hg).
  destruct arg as [a |]; [| discriminate Hg].
  apply (Hcollect a). exact Hg.
Qed.

Lemma append_conjunct_push (c : Expr) (s : gset Z) (ps : predicates) :
  is_ColumnVar c = false -> as_Var c = None ->
  s = visited_rte_idx c ->
  append_conjunct ps c = push_by_size c s ps.
Proof.
  intros Hcv Hv ->. rewrite push_by_size_class. unfold append_conjunct, class_of.
  destruct c; try discriminate;
    match goal with
    | |- context [category_of_size ?n] => destruct (category_of_size n)
    end; reflexivity.
Qed.

(** One node that is no AND: it goes where its class says. *)
Lemma group_predicates_conjunct (c : Expr) (ps : predicates) :
  is_AND c = false ->
  gatherable c ->
  group_predicates c ps = Ok (append_conjunct ps c).
Proof.
  intros Hand Hok. unfold gatherable in Hok.
  destruct (gathered_rte_idx c) as [s | | |] eqn:Hg; try discriminate.
  pose proof (gathered_rte_idx_visited c s Hg) as Hs. clear Hok.
  destruct (is_ColumnVar c || bool_decide (as_Var c <> None)) eqn:Hleaf.
  - destruct c; try discriminate; unfold append_conjunct; simpl;
      destruct (bool_decide (get_type type_info = kBOOLEAN));
      try reflexivity; destruct ps; reflexivity.
  - apply orb_false_elim in Hleaf. destruct Hleaf as [Hcv Hv].
    apply bool_decide_eq_false_1 in Hv.
    assert (Hv' : as_Var c = None) by (destruct (as_Var c); [exfalso; apply Hv; discriminate | reflexivity]).
    rewrite (append_conjunct_push c s ps Hcv Hv' Hs). clear Hs Hv.
    destruct c; simpl in Hcv, Hv'; try discriminate; simpl in Hg, Hand |- *;
      try rewrite Hand;
      try match type of Hg with
          | match ?o with Some _ => _ | None => _ end = Ok _ =>
              destruct o; [| discriminate Hg]
          end;
      try (inversion Hg; subst s; reflexivity);
      try (rewrite Hg; reflexivity).
    apply bind_Ok in Hg. destruct Hg as (s1 & H1 & H2).
    rewrite H1. simpl. rewrite H2. reflexivity.
Qed.

Lemma conjuncts_not_AND (e : Expr) :
  Forall (fun c => is_AND c = false) (conjuncts e).
Proof.
  induction e; simpl; try (repeat constructor).
  destruct (bool_decide (optype = kAND)) eqn:Hop.
  - apply Forall_app. split; assumption.
  - repeat constructor. simpl. exact Hop.
Qed.

(** AND nodes are descended through: the conjuncts are appended one after
    the other, from left to right. *)
Lemma group_predicates_flatten (e : Expr) (ps : predicates) :
  Forall gatherable (conjuncts e) ->
  group_predicates e ps = Ok (fold_left append_conjunct (conjuncts e) ps).
Proof.
  revert ps.
  induction e; intros ps Hok;
    try (simpl in Hok; apply Forall_inv in Hok;
         simpl fold_left; apply group_predicates_conjunct; [reflexivity | exact Hok]).
  simpl in Hok. destruct (bool_decide (optype = kAND)) eqn:Hop.
  - apply Forall_app in Hok. destruct Hok as [Hl Hr].
    simpl. rewrite Hop. rewrite (IHe1 ps Hl). simpl.
    rewrite (IHe2 _ Hr). rewrite fold_left_app. reflexivity.
  - apply Forall_inv in Hok. simpl conjuncts. rewrite Hop. simpl fold_left.
    apply group_predicates_conjunct; [exact Hop | exact Hok].
Qed.

Lemma fold_left_append_conjunct (l : list Expr) (ps : predicates) :
  scan_predicates (fold_left append_conjunct l ps)
  = scan_predicates ps ++ of_class scan l
  /\ join_predicates (fold_left append_conjunct l ps)
     = join_predicates ps ++ of_class join l
  /\ const_predicates (fold_left append_conjunct l ps)
     = const_predicates ps ++ of_class const l.
Proof.
  revert ps. induction l as [| c l IH]; intros ps.
  - unfold of_class. simpl. rewrite !app_nil_r. auto.
  - simpl fold_left. destruct (IH (append_conjunct ps c)) as (Hs & Hj & Hc).
    rewrite Hs, Hj, Hc. unfold of_class, append_conjunct.
    rewrite !filter_cons.
    destruct (class_of c) as [[| |] |]; simpl;
      repeat (case_decide; try congruence);
      rewrite <- ?app_assoc; auto.
Qed.

(** Every conjunct that has a class is in exactly one of the three
    lists. *)
Lemma of_class_partition (l : list Expr) :
  of_class scan l ++ of_class join l ++ of_class const l
  ≡ₚ filter (fun c => is_Some (class_of c)) l.
Proof.
  unfold of_class. induction l as [| c l IH]; [reflexivity |].
  rewrite !filter_cons.
  destruct (class_of c) as [[| |] |]; simpl;
    repeat (case_decide; try congruence);
    try (exfalso; match goal with H : ¬ is_Some (Some _) |- _ => apply H; eauto end);
    try (exfalso; match goal with H : is_Some None |- _ => destruct H; discriminate end).
  - simpl. constructor. exact IH.
  - rewrite <- Permutation_middle. constructor. exact IH.
  - rewrite app_assoc, <- Permutation_middle, <- app_assoc. constructor. exact IH.
  - exact IH.
Qed.

Lemma group_predicates_AND_assoc (ti1 ti2 ti3 ti4 : SQLTypeInfo)
    (ca1 ca2 ca3 ca4 : bool) (q1 q2 q3 q4 : SQLQualifier) (a b c : Expr)
    (ps : predicates) :
  group_predicates
    (BinOper ti1 ca1 kAND q1 (BinOper ti2 ca2 kAND q2 a b) c) ps
  = group_predicates
      (BinOper ti3 ca3 kAND q3 a (BinOper ti4 ca4 kAND q4 b c)) ps.
Proof. simpl. apply bind_assoc. Qed.

Example InValues_two_tables :
  referenced_rte_idx (InValues BOOL false t1_a [t2_b; lit 5]) = {[ 0; 1 ]}.
Proof. vm_compute. reflexivity. Qed.

(** C6, as stated, fails: the predicate [t1.a IN (t2.b, 5)] references
    two range-table entries and yet goes to the scan list, because
    [InValues::group_predicates] collects the indices below [arg] only. *)
Lemma group_predicates_InValues_by_arg_only :
  size (referenced_rte_idx (InValues BOOL false t1_a [t2_b; lit 5])) = 2%nat
  /\ group_predicates (InValues BOOL false t1_a [t2_b; lit 5]) no_predicates
     = Ok (mkPredicates [InValues BOOL false t1_a [t2_b; lit 5]] [] []).
Proof.
  split; vm_compute; reflexivity.
Qed.

(** C6, amended.  [group_predicates] descends through the AND nodes
    without appending them and appends each conjunct that is no AND, in
    order, to the list of its class ([class_of]): a [ColumnVar] or [Var] to
    scan when it is BOOLEAN and to no list otherwise; any other node by the
    number of distinct range-table indices visited in it (more than one:
    join, one: scan, none: const), which for [InValues] and [LikeExpr] are
    those referenced below [arg] only and otherwise all that the node
    references.  It succeeds when the indices of every conjunct can be
    gathered, no null pointer being in the way.  Hence [(a AND b) AND c] and
    [a AND (b AND c)] give the same three lists, and the three lists
    together hold the classified conjuncts, each in exactly one list. *)
Theorem group_predicates_partition (e : Expr) (ps : predicates) :
  (Forall gatherable (conjuncts e) ->
   exists ps',
     group_predicates e ps = Ok ps'
     /\ scan_predicates ps' = scan_predicates ps ++ of_class scan (conjuncts e)
     /\ join_predicates ps' = join_predicates ps ++ of_class join (conjuncts e)
     /\ const_predicates ps' = const_predicates ps ++ of_class const (conjuncts e))
  /\ Forall (fun c => is_AND c = false) (conjuncts e)
  /\ of_class scan (conjuncts e) ++ of_class join (conjuncts e)
       ++ of_class const (conjuncts e)
     ≡ₚ filter (fun c => is_Some (class_of c)) (conjuncts e)
  /\ (forall ti1 ti2 ti3 ti4 ca1 ca2 ca3 ca4 q1 q2 q3 q4 a b c,
      e = BinOper ti1 ca1 kAND q1 (BinOper ti2 ca2 kAND q2 a b) c ->
      group_predicates e ps
      = group_predicates (BinOper ti3 ca3 kAND q3 a (BinOper ti4 ca4 kAND q4 b c)) ps).
Proof.
  split; [| split; [| split]].
  - intros Hok. exists (fold_left append_conjunct (conjuncts e) ps).
    split; [apply group_predicates_flatten; exact Hok |].
    apply fold_left_append_conjunct.
  - apply conjuncts_not_AND.
  - apply of_class_partition.
  - intros; subst e. apply group_predicates_AND_assoc.
Qed.

(** The amended C6 at [(t1.a = 3 AND t1.b = t2.b) AND (5 > 1)]. *)
Lemma group_predicates_partition_witness :
  exists ps',
    group_predicates
      (BinOper BOOL false kAND kONE
         (BinOper BOOL false kAND kONE
            (BinOper BOOL false kEQ kONE t1_a (lit 3))
            (BinOper BOOL false kEQ kONE t1_b t2_b))
         (BinOper BOOL false kGT kONE (lit 5) (lit 1)))
      no_predicates = Ok ps'
    /\ scan_predicates ps' = [BinOper BOOL false kEQ kONE t1_a (lit 3)]
    /\ join_predicates ps' = [BinOper BOOL false kEQ kONE t1_b t2_b]
    /\ const_predicates ps' = [BinOper BOOL false kGT kONE (lit 5) (lit 1)].
Proof.
  destruct (group_predicates_partition
              (BinOper BOOL false kAND kONE
                 (BinOper BOOL false kAND kONE
                    (BinOper BOOL false kEQ kONE t1_a (lit 3))
                    (BinOper BOOL false kEQ kONE t1_b t2_b))
                 (BinOper BOOL false kGT kONE (lit 5) (lit 1)))
              no_predicates) as [Hpart _].
  destruct Hpart as (ps' & Hgp & Hs & Hj & Hc).
  - repeat constructor.
  - exists ps'. split; [exact Hgp |].
    rewrite Hs, Hj, Hc. vm_compute. auto.
Defined.

(** ** A cast to the type a tree already has *)

Lemma Expr_add_cast_own_type (X : Externals) (e : Expr) :
  Expr_add_cast X e (get_type_info e) = Ok shared_from_this.
Proof.
  unfold Expr_add_cast, ti_eqb. rewrite bool_decide_eq_true_2 by reflexivity. reflexivity.
Qed.

Lemma same_payload_refl (h h' : heap) (d : Datum) : same_payload h h' d d.
Proof. left. reflexivity. Qed.

Lemma same_payload_mono (h h' h'' : heap) (d d' : Datum) :
  h' `prefix_of` h'' -> same_payload h h' d d' -> same_payload h h'' d d'.
Proof.
  intros Hpre [-> | (p & p' & s & -> & -> & Hp & Hp')]; [left; reflexivity |].
  right. exists p, p', s. repeat split; try assumption.
  eapply prefix_lookup_Some; eassumption.
Qed.

Lemma Forall2_same_payload_refl (h h' : heap) (l : list Datum) :
  Forall2 (same_payload h h') l l.
Proof. induction l; constructor; auto using same_payload_refl. Qed.

Lemma Forall2_same_payload_mono (h h' h'' : heap) (l l' : list Datum) :
  h' `prefix_of` h'' ->
  Forall2 (same_payload h h') l l' -> Forall2 (same_payload h h'') l l'.
Proof.
  intros Hpre HF. induction HF; constructor; eauto using same_payload_mono.
Qed.

Lemma add_cast_Constant_settled (X : Externals) ti ca n d (h0 h : heap) :
  h0 `prefix_of` h ->
  cast_settled X h0 (Constant ti ca n d) ->
  exists d' h',
    add_cast X (Constant ti ca n d) h ti = Ok (Constant ti ca n d', h', shared_from_this)
    /\ same_payload h0 h' d d'
    /\ h `prefix_of` h'.
Proof.
  intros Hpre Hset. simpl in Hset. simpl.
  destruct n.
  - specialize (Hset eq_refl).
    destruct (set_null_value_spec X ti h) as [Hspec Hext].
    destruct (set_null_value X ti h) as [d' h'] eqn:Hnull. simpl in *.
    exists d', h'. split; [reflexivity |]. split; [| exact Hext].
    unfold null_sentinel_spec in *.
    destruct (get_type ti);
      try (left; congruence).
    all: destruct Hset as (p & -> & Hp); destruct Hspec as (p' & -> & Hp');
      right; exists p, p', ""%string; auto.
  - rewrite bool_decide_eq_false_2 by (intros Hne; apply Hne; reflexivity).
    rewrite do_cast_same_type. simpl.
    exists d, h. split; [reflexivity |]. split; [left; reflexivity | reflexivity].
Qed.

Lemma CaseExpr_cast_type_same (X : Externals) (ti : SQLTypeInfo) :
  CaseExpr_cast_type X ti ti = ti.
Proof.
  unfold CaseExpr_cast_type.
  destruct (get_compression ti); simpl;
    rewrite ?andb_false_r; simpl; rewrite ?andb_false_r; reflexivity.
Qed.

Lemma add_cast_own_type_plain (X : Externals) (e : Expr) (h : heap) :
  plain_cast e = true ->
  add_cast X e h (get_type_info e) = Ok (e, h, shared_from_this).
Proof.
  intros Hplain.
  destruct e; try discriminate;
    try (cbn [add_cast get_type_info];
         match goal with
         | |- context [Expr_add_cast X ?e ?t] =>
             change (Expr_add_cast X e t) with (Expr_add_cast X e (get_type_info e));
             rewrite Expr_add_cast_own_type; reflexivity
         end).
  cbn [add_cast get_type_info].
  change (Expr_add_cast X (UOper type_info contains_agg optype operand) type_info)
    with (Expr_add_cast X (UOper type_info contains_agg optype operand)
            (get_type_info (UOper type_info contains_agg optype operand))).
  rewrite Expr_add_cast_own_type.
  destruct (bool_decide (optype <> kCAST)); [reflexivity |].
  destruct (get_compression type_info); simpl; rewrite ?andb_false_r; reflexivity.
Qed.

Lemma same_expr_refl (h h' : heap) (e : Expr) : same_expr h e h' e.
Proof. split; [reflexivity | apply Forall2_same_payload_refl]. Qed.

Lemma add_cast_dict_shortcut_plain (X : Externals) (e : Expr) (h : heap)
    (T : SQLTypeInfo) :
  plain_cast e = true ->
  dict_shortcut X T (get_type_info e) = true ->
  add_cast X e h T = Ok (e, h, shared_from_this).
Proof.
  intros Hplain Hdict.
  assert (Hbase : Expr_add_cast X e T = Ok shared_from_this).
  { unfold Expr_add_cast. unfold dict_shortcut in Hdict. rewrite Hdict.
    destruct (ti_eqb T (get_type_info e)); reflexivity. }
  destruct e; try discriminate Hplain;
    try (cbn [add_cast]; rewrite Hbase; reflexivity).
  (* UOper: the receiver is DICT-encoded, so it is no cast to collapse *)
  cbn [add_cast]. rewrite Hbase. cbn [bind].
  destruct (bool_decide (optype <> kCAST)); [reflexivity |].
  unfold dict_shortcut in Hdict. cbn [get_type_info] in Hdict.
  repeat (apply andb_prop in Hdict; destruct Hdict as [Hdict ?]).
  match goal with
  | H : bool_decide (get_compression type_info = kENCODING_DICT) = true |- _ =>
      apply bool_decide_eq_true_1 in H; rewrite H
  end.
  rewrite (bool_decide_eq_false_2 (kENCODING_DICT = kENCODING_NONE)) by discriminate.
  rewrite andb_false_r. reflexivity.
Qed.

(** A branch that is left alone, cast to the type of its CASE. *)
Lemma add_cast_left_alone (X : Externals) (T : SQLTypeInfo) (e : Expr) :
  unchanged_by_own_cast X e ->
  forall (h0 h : heap),
    h0 `prefix_of` h ->
    left_alone X T e ->
    cast_settled X h0 e ->
    exists e' h',
      add_cast X e h T = Ok (e', h', shared_from_this)
      /\ same_expr h0 e h' e'
      /\ h `prefix_of` h'.
Proof.
  intros IH h0 h Hpre [Hti | [Hplain Hdict]] Hset.
  - destruct (IH h0 h Hpre Hset) as (e' & h' & Hcast & _ & Hsame & Hext).
    rewrite Hti in Hcast. exists e', h'. auto.
  - exists e, h. split; [apply add_cast_dict_shortcut_plain; assumption |].
    split; [apply same_expr_refl | reflexivity].
Qed.

Lemma cast_pairs_settled (X : Externals) (ti : SQLTypeInfo)
    (l : list (Expr * Expr)) :
  list_all (Expr * Expr)
    (prod_all Expr (unchanged_by_own_cast X) Expr (unchanged_by_own_cast X)) l ->
  forall (h0 h : heap),
    h0 `prefix_of` h ->
    foldr and True
      (map (fun p => left_alone X ti (snd p) /\ cast_settled X h0 (snd p)) l) ->
    exists l' h',
      cast_pairs (fun second h => add_cast X second h ti) l h = Ok (l', h')
      /\ map (fun p => (erase_payloads (fst p), erase_payloads (snd p))) l
         = map (fun p => (erase_payloads (fst p), erase_payloads (snd p))) l'
      /\ Forall2 (same_payload h0 h')
           (flat_map (fun p => payloads (fst p) ++ payloads (snd p)) l)
           (flat_map (fun p => payloads (fst p) ++ payloads (snd p)) l')
      /\ h `prefix_of` h'.
Proof.
  induction 1 as [| [first second] Hp l Hl IH]; intros h0 h Hpre Hset.
  - exists [], h. simpl. split; [reflexivity |]. split; [reflexivity |].
    split; [constructor | reflexivity].
  - simpl in Hset. destruct Hset as [[Hleft Hsecond] Hrest].
    inversion Hp as [? _ ? IHsecond]; subst.
    destruct (add_cast_left_alone X ti second IHsecond h0 h Hpre Hleft Hsecond)
      as (second' & h1 & Hcast & [Herase Hpay] & Hext1).
    destruct (IH h0 h1 (transitivity Hpre Hext1) Hrest)
      as (l' & h2 & Hcasts & Herases & Hpays & Hext2).
    exists ((first, second') :: l'), h2.
    cbn [cast_pairs]. rewrite Hcast. cbn [bind]. rewrite Hcasts. cbn [bind pointee].
    split; [reflexivity |]. split; [| split].
    + cbn [map fst snd]. rewrite Herase, Herases. reflexivity.
    + cbn [flat_map fst snd]. repeat apply Forall2_app.
      * apply Forall2_same_payload_refl.
      * apply Forall2_same_payload_mono with h1; assumption.
      * exact Hpays.
    + transitivity h1; assumption.
Qed.

Lemma add_cast_own_type_settled (X : Externals) (e : Expr) :
  unchanged_by_own_cast X e.
Proof.
  induction e; intros h0 h Hpre Hset;
    try (eexists _, h; split; [apply add_cast_own_type_plain; reflexivity |];
         split; [reflexivity |]; split; [apply same_expr_refl | reflexivity]).
  - (* Constant *)
    destruct (add_cast_Constant_settled X _ _ _ _ h0 h Hpre Hset)
      as (d' & h' & Hcast & Hsame & Hext).
    eexists _, h'. split; [exact Hcast |]. split; [reflexivity |].
    split; [| exact Hext].
    split; [reflexivity | simpl; constructor; [exact Hsame | constructor]].
  - (* Subquery *)
    destruct Hset.
  - (* CaseExpr *)
    rename X0 into IHpairs, X1 into IHelse.
    destruct Hset as [Hpairs Helse].
    cbn [add_cast get_type_info]. rewrite CaseExpr_cast_type_same.
    destruct (cast_pairs_settled X type_info expr_pair_list IHpairs h0 h Hpre Hpairs)
      as (l' & h1 & Hcasts & Herases & Hpays & Hext1).
    rewrite Hcasts. cbn [bind].
    destruct IHelse as [e IHe |].
    + destruct Helse as [Hleft Hsettled].
      destruct (add_cast_left_alone X type_info e IHe h0 h1
                  (transitivity Hpre Hext1) Hleft Hsettled)
        as (e' & h2 & Hcast & [Herase Hpay] & Hext2).
      rewrite Hcast. cbn [bind pointee].
      eexists _, h2. split; [reflexivity |]. split; [reflexivity |].
      split; [| transitivity h1; assumption].
      split.
      * cbn [erase_payloads]. rewrite Herases, Herase. reflexivity.
      * cbn [payloads]. apply Forall2_app; [| exact Hpay].
        apply Forall2_same_payload_mono with h1; assumption.
    + cbn [bind]. eexists _, h1. split; [reflexivity |]. split; [reflexivity |].
      split; [| exact Hext1].
      split.
      * cbn [erase_payloads]. rewrite Herases. reflexivity.
      * cbn [payloads]. apply Forall2_app; [exact Hpays | constructor].
Qed.

Example add_cast_own_type_null_string :
  add_cast example_externals
    (Constant (VARCHAR 5 kENCODING_NONE 0) false true (stringval (Some 0%nat)))
    [Some ""%string] (VARCHAR 5 kENCODING_NONE 0)
  = Ok (Constant (VARCHAR 5 kENCODING_NONE 0) false true (stringval (Some 1%nat)),
        [Some ""%string; Some ""%string], shared_from_this).
Proof. reflexivity. Qed.

(** C8, as stated, fails for two variants: [Subquery::add_cast] aborts,
    and [CaseExpr::add_cast] pushes the cast into its branches, so a CASE of
    type INT whose THEN branch is a SMALLINT literal has that literal turned
    into an INT one by a cast to INT. *)
Lemma add_cast_own_type_changes_CaseExpr :
  add_cast example_externals (Subquery INT false) [] INT = Abort
  /\ add_cast example_externals
       (CaseExpr INT false
          [(Constant BOOL false false (boolval true),
            Constant (SQLTypeInfo2 kSMALLINT false) false false (smallintval 1))]
          None) [] INT
     = Ok (CaseExpr INT false
             [(Constant BOOL false false (boolval true),
               Constant INT false false (intval 1))]
             None, [], shared_from_this)
  /\ ~ same_expr []
        (CaseExpr INT false
           [(Constant BOOL false false (boolval true),
             Constant (SQLTypeInfo2 kSMALLINT false) false false (smallintval 1))]
           None)
        []
        (CaseExpr INT false
           [(Constant BOOL false false (boolval true),
             Constant INT false false (intval 1))]
           None).
Proof.
  split; [reflexivity |]. split; [reflexivity |].
  intros [Herase _]. discriminate Herase.
Qed.

(** C8, amended.  For every settled tree [e] (no [Subquery]; a null
    literal holds the null sentinel of its kind; every THEN and ELSE branch
    of a [CaseExpr] is settled and either has the type of the [CaseExpr]
    or is a node with the [add_cast] of the base class or of [UOper] that
    the DICT shortcut applies to), [e.add_cast(e.type_info)] returns [e]
    itself, with its type, and leaves it the same to an observer: the same
    tree, its literals holding the same payloads, where a null string
    literal holds a newly allocated empty string.  Strings allocated before
    are not touched. *)
Theorem add_cast_own_type (X : Externals) (e : Expr) (h : heap) :
  cast_settled X h e ->
  exists e' h',
    add_cast X e h (get_type_info e) = Ok (e', h', shared_from_this)
    /\ get_type_info e' = get_type_info e
    /\ same_expr h e h' e'
    /\ h `prefix_of` h'.
Proof.
  intros Hset. apply (add_cast_own_type_settled X e h h); [reflexivity | exact Hset].
Qed.

(** The amended C8 at a CASE of type VARCHAR(5, DICT, 3) with a null
    literal of that type as first THEN branch, a column of type
    VARCHAR(10, DICT, 3) NOT NULL as second THEN branch, and the literal
    'abc' as ELSE branch. *)
Lemma add_cast_own_type_witness :
  exists e' h',
    add_cast example_externals
      (CaseExpr (VARCHAR 5 kENCODING_DICT 3) false
         [(Constant BOOL false false (boolval true),
           Constant (VARCHAR 5 kENCODING_DICT 3) false true (stringval (Some 0%nat)));
          (Constant BOOL false false (boolval false),
           ColumnVar (SQLTypeInfo7 kVARCHAR 10 0 true kENCODING_DICT 3 kNULLT)
             false 1 2 0)]
         (Some (Constant (VARCHAR 5 kENCODING_DICT 3) false false
                  (stringval (Some 1%nat)))))
      [Some ""%string; Some "abc"%string] (VARCHAR 5 kENCODING_DICT 3)
    = Ok (e', h', shared_from_this)
    /\ get_type_info e' = VARCHAR 5 kENCODING_DICT 3
    /\ same_expr [Some ""%string; Some "abc"%string]
         (CaseExpr (VARCHAR 5 kENCODING_DICT 3) false
            [(Constant BOOL false false (boolval true),
              Constant (VARCHAR 5 kENCODING_DICT 3) false true
                (stringval (Some 0%nat)));
             (Constant BOOL false false (boolval false),
              ColumnVar (SQLTypeInfo7 kVARCHAR 10 0 true kENCODING_DICT 3 kNULLT)
                false 1 2 0)]
            (Some (Constant (VARCHAR 5 kENCODING_DICT 3) false false
                     (stringval (Some 1%nat)))))
         h' e'
    /\ [Some ""%string; Some "abc"%string] `prefix_of` h'.
Proof.
  apply (add_cast_own_type example_externals
           (CaseExpr (VARCHAR 5 kENCODING_DICT 3) false
              [(Constant BOOL false false (boolval true),
                Constant (VARCHAR 5 kENCODING_DICT 3) false true
                  (stringval (Some 0%nat)));
               (Constant BOOL false false (boolval false),
                ColumnVar (SQLTypeInfo7 kVARCHAR 10 0 true kENCODING_DICT 3 kNULLT)
                  false 1 2 0)]
              (Some (Constant (VARCHAR 5 kENCODING_DICT 3) false false
                       (stringval (Some 1%nat)))))
           [Some ""%string; Some "abc"%string]).
  cbn [cast_settled foldr map snd].
  split; [split; [split | split; [split | exact I]] | split].
  - left. reflexivity.
  - intros _. exists 0%nat. split; reflexivity.
  - right. split; reflexivity.
  - exact I.
  - left. reflexivity.
  - intros Hnull. discriminate Hnull.
Defined.

(** The branch of another dimension and nullability is handed back as it
    is, and so is the CASE. *)
Example add_cast_own_type_dict_branch :
  add_cast example_externals
    (CaseExpr (VARCHAR 20 kENCODING_DICT 3) false
       [(Constant BOOL false false (boolval true),
         ColumnVar (SQLTypeInfo7 kVARCHAR 10 0 true kENCODING_DICT 3 kNULLT)
           false 1 2 0)]
       None) [] (VARCHAR 20 kENCODING_DICT 3)
  = Ok (CaseExpr (VARCHAR 20 kENCODING_DICT 3) false
          [(Constant BOOL false false (boolval true),
            ColumnVar (SQLTypeInfo7 kVARCHAR 10 0 true kENCODING_DICT 3 kNULLT)
              false 1 2 0)]
          None, [], shared_from_this).
Proof. reflexivity. Qed.

(** ** deep_copy and operator== *)

Example deep_copy_string_literal :
  deep_copy example_externals
    (Constant (VARCHAR 5 kENCODING_NONE 0) false false (stringval (Some 0%nat)))
    [Some "hello"%string]
  = Ok (Constant (VARCHAR 5 kENCODING_NONE 0) false false (stringval (Some 1%nat)),
        [Some "hello"%string; Some "hello"%string]).
Proof. reflexivity. Qed.

Example equals_copy_of_comparison :
  equals example_externals []
    (BinOper BOOL false kEQ kONE t1_a (lit 3))
    (BinOper BOOL false kEQ kONE t1_a (lit 3))
  = Ok true.
Proof. reflexivity. Qed.

Lemma lookup_new_string (h hf : heap) (s : string) :
  (h ++ [Some s]) `prefix_of` hf -> hf !! length h = Some (Some s).
Proof.
  intros Hpre. eapply prefix_lookup_Some; [| exact Hpre].
  rewrite lookup_app_r by lia. rewrite Nat.sub_diag. reflexivity.
Qed.

Lemma ti_eqb_refl (ti : SQLTypeInfo) : ti_eqb ti ti = true.
Proof. apply bool_decide_eq_true_2. reflexivity. Qed.

Lemma fresh_payload_mono (h h1 : heap) (l : list Datum) :
  h `prefix_of` h1 -> Forall (fresh_payload h1) l -> Forall (fresh_payload h) l.
Proof.
  intros Hpre HF. eapply Forall_impl; [exact HF |]. intros d Hd p Hp.
  specialize (Hd p Hp). apply prefix_length in Hpre. lia.
Qed.

Lemma deep_copy_Constant_well (X : Externals) ti ca n d :
  copies_well X (Constant ti ca n d).
Proof.
  intros h0 h Hpre [Hfits Hnull]. cbn [deep_copy].
  destruct n.
  - (* a null literal: the constructor sets the sentinel *)
    specialize (Hnull eq_refl). rewrite andb_false_r. cbn [bind].
    unfold makeConstant.
    destruct (set_null_value_spec X ti h) as [Hspec Hext].
    destruct (set_null_value X ti h) as [d' h'] eqn:Hset. simpl in Hspec, Hext.
    exists (Constant ti false true d'), h'.
    split; [reflexivity |]. split; [exact Hext |]. split.
    + constructor; [| constructor]. intros p ->.
      unfold set_null_value in Hset.
      destruct (get_type ti); inversion Hset; reflexivity.
    + intros hf Hf. cbn [equals]. rewrite ti_eqb_refl.
      rewrite bool_decide_eq_true_2 by reflexivity. cbn [negb orb].
      unfold Datum_equal, payload_fits, null_sentinel_spec in *.
      destruct (get_type ti); try contradiction;
        try (rewrite Hspec, Hnull; simpl;
             rewrite ?bool_decide_eq_true_2 by reflexivity; reflexivity).
      all: try (destruct Hfits as (v & Hv & Heq); rewrite Hspec, Hnull; simpl;
                rewrite Hnull in Hv; inversion Hv; subst v; rewrite Heq; reflexivity).
      all: destruct Hspec as (p' & -> & Hp'); destruct Hnull as (p & -> & Hp);
        simpl;
        rewrite (prefix_lookup_Some _ _ _ _ Hp' Hf);
        rewrite (prefix_lookup_Some _ _ _ _ Hp (transitivity Hpre (transitivity Hext Hf)));
        reflexivity.
  - rewrite andb_true_r. clear Hnull.
    destruct (is_string ti) eqn:Hstr.
    + (* a string: the payload is duplicated *)
      assert (Hps : exists (p : nat) (s : string),
                 d = stringval (Some p) /\ h0 !! p = Some (Some s)).
      { unfold payload_fits, is_string in *.
        destruct (get_type ti); try discriminate; exact Hfits. }
      destruct Hps as (p & s & -> & Hp). simpl.
      rewrite (prefix_lookup_Some _ _ _ _ Hp Hpre). simpl.
      eexists _, _. split; [reflexivity |].
      split; [apply prefix_app_r; reflexivity |]. split.
      * constructor; [| constructor]. intros q Hq. inversion Hq. lia.
      * intros hf Hf. cbn [equals]. rewrite ti_eqb_refl. simpl.
        unfold Datum_equal, is_string in *.
        destruct (get_type ti); try discriminate; simpl;
          rewrite (lookup_new_string _ _ _ Hf);
          rewrite (prefix_lookup_Some _ _ _ _ Hp
                     (transitivity Hpre (transitivity (prefix_app_r h h [Some s] (reflexivity h)) Hf)));
          simpl; rewrite bool_decide_eq_true_2 by reflexivity; reflexivity.
    + (* another kind: the union is copied as it is *)
      simpl. eexists _, h. split; [reflexivity |]. split; [reflexivity |]. split.
      * constructor; [| constructor]. intros q Hq. subst d.
        unfold payload_fits, is_string in *.
        destruct (get_type ti); try discriminate; try contradiction;
          destruct Hfits as (v & Hv);
          first [discriminate Hv | destruct Hv as [Hv _]; discriminate Hv].
      * intros hf Hf. cbn [equals]. rewrite ti_eqb_refl. simpl.
        unfold Datum_equal, payload_fits, is_string in *.
        destruct (get_type ti); try discriminate; try contradiction;
          destruct Hfits as (v & Hv);
          first [ subst d; simpl;
                  rewrite bool_decide_eq_true_2 by reflexivity; reflexivity
                | destruct Hv as [Hv Heq]; subst d; simpl; rewrite Heq; reflexivity ].
Qed.

Lemma copy_values_well (X : Externals) (l : list Expr) :
  list_all Expr (copies_well X) l ->
  forall (h0 h : heap),
    h0 `prefix_of` h ->
    foldr and True (map (comparable X h0) l) ->
    exists l' h',
      copy_values (deep_copy X) l h = Ok (l', h')
      /\ h `prefix_of` h'
      /\ Forall (fresh_payload h) (flat_map payloads l')
      /\ length l' = length l
      /\ forall hf, h' `prefix_of` hf -> equal_values (equals X hf) l' l = Ok true.
Proof.
  induction 1 as [| p IHp l Hl IH]; intros h0 h Hpre Hcmp.
  - exists [], h. simpl. repeat split; try reflexivity. constructor.
  - simpl in Hcmp. destruct Hcmp as [Hp Hrest].
    destruct (IHp h0 h Hpre Hp) as (p' & h1 & Hcopy & Hext1 & Hfresh1 & Heq1).
    destruct (IH h0 h1 (transitivity Hpre Hext1) Hrest)
      as (l' & h2 & Hcopies & Hext2 & Hfresh2 & Hlen & Heq2).
    exists (p' :: l'), h2. cbn [copy_values]. rewrite Hcopy. cbn [bind].
    rewrite Hcopies. cbn [bind]. split; [reflexivity |].
    split; [transitivity h1; assumption |]. split; [| split].
    + cbn [flat_map]. apply Forall_app. split; [exact Hfresh1 |].
      apply fresh_payload_mono with h1; assumption.
    + simpl. rewrite Hlen. reflexivity.
    + intros hf Hf. cbn [equal_values].
      rewrite (Heq1 hf (transitivity Hext2 Hf)). cbn [bind negb].
      apply Heq2. exact Hf.
Qed.

Lemma copy_pairs_well (X : Externals) (l : list (Expr * Expr)) :
  list_all (Expr * Expr)
    (prod_all Expr (copies_well X) Expr (copies_well X)) l ->
  forall (h0 h : heap),
    h0 `prefix_of` h ->
    foldr and True
      (map (fun p => comparable X h0 (fst p) /\ comparable X h0 (snd p)) l) ->
    exists l' h',
      copy_pairs (deep_copy X) l h = Ok (l', h')
      /\ h `prefix_of` h'
      /\ Forall (fresh_payload h)
           (flat_map (fun p => payloads (fst p) ++ payloads (snd p)) l')
      /\ length l' = length l
      /\ forall hf, h' `prefix_of` hf -> equal_pairs (equals X hf) l' l = Ok true.
Proof.
  induction 1 as [| [first second] Hp l Hl IH]; intros h0 h Hpre Hcmp.
  - exists [], h. simpl. repeat split; try reflexivity. constructor.
  - simpl in Hcmp. destruct Hcmp as [[Hfirst Hsecond] Hrest].
    inversion Hp as [? IHfirst ? IHsecond]; subst.
    destruct (IHfirst h0 h Hpre Hfirst) as (f' & h1 & Hc1 & Hext1 & Hfresh1 & Heq1).
    destruct (IHsecond h0 h1 (transitivity Hpre Hext1) Hsecond)
      as (s' & h2 & Hc2 & Hext2 & Hfresh2 & Heq2).
    destruct (IH h0 h2 (transitivity Hpre (transitivity Hext1 Hext2)) Hrest)
      as (l' & h3 & Hcopies & Hext3 & Hfresh3 & Hlen & Heq3).
    exists ((f', s') :: l'), h3. cbn [copy_pairs]. rewrite Hc1. cbn [bind].
    rewrite Hc2. cbn [bind]. rewrite Hcopies. cbn [bind]. split; [reflexivity |].
    split; [transitivity h1; [assumption | transitivity h2; assumption] |].
    split; [| split].
    + cbn [flat_map fst snd]. repeat (apply Forall_app; split).
      * exact Hfresh1.
      * apply fresh_payload_mono with h1; assumption.
      * apply fresh_payload_mono with h2; [transitivity h1 |]; assumption.
    + simpl. rewrite Hlen. reflexivity.
    + intros hf Hf. cbn [equal_pairs].
      rewrite (Heq1 hf (transitivity Hext2 (transitivity Hext3 Hf))). cbn [bind negb].
      rewrite (Heq2 hf (transitivity Hext3 Hf)). cbn [bind negb].
      apply Heq3. exact Hf.
Qed.

Lemma deep_copy_well (X : Externals) (e : Expr) : copies_well X e.
Proof.
  induction e; try (intros h0 h Hpre Hcmp).
  - (* ColumnVar *)
    simpl in Hcmp. eexists _, h. split; [reflexivity |]. split; [reflexivity |].
    split; [constructor |]. intros hf _. simpl.
    rewrite (bool_decide_eq_true_2 _ Hcmp).
    rewrite !bool_decide_eq_true_2 by reflexivity. reflexivity.
  - (* Var *)
    eexists _, h. split; [reflexivity |]. split; [reflexivity |].
    split; [constructor |]. intros hf _. simpl.
    destruct (bool_decide (rte_idx <> -1));
      rewrite !bool_decide_eq_true_2 by reflexivity; reflexivity.
  - (* Constant *)
    exact (deep_copy_Constant_well X _ _ _ _ h0 h Hpre Hcmp).
  - (* UOper *)
    destruct X0 as [o IHo |]; [| destruct Hcmp].
    destruct (IHo h0 h Hpre Hcmp) as (o' & h1 & Hcopy & Hext & Hfresh & Heq).
    eexists _, h1. cbn [deep_copy]. rewrite Hcopy. cbn [bind].
    split; [reflexivity |]. split; [exact Hext |]. split; [exact Hfresh |].
    intros hf Hf. cbn [equals]. rewrite bool_decide_eq_true_2 by reflexivity.
    apply Heq. exact Hf.
  - (* BinOper *)
    destruct Hcmp as [Hl Hr].
    destruct (IHe1 h0 h Hpre Hl) as (l' & h1 & Hc1 & Hext1 & Hfresh1 & Heq1).
    destruct (IHe2 h0 h1 (transitivity Hpre Hext1) Hr)
      as (r' & h2 & Hc2 & Hext2 & Hfresh2 & Heq2).
    eexists _, h2. cbn [deep_copy]. rewrite Hc1. cbn [bind]. rewrite Hc2. cbn [bind].
    split; [reflexivity |]. split; [transitivity h1; assumption |]. split.
    + cbn [payloads]. apply Forall_app. split; [exact Hfresh1 |].
      apply fresh_payload_mono with h1; assumption.
    + intros hf Hf. cbn [equals]. rewrite bool_decide_eq_true_2 by reflexivity.
      rewrite (Heq1 hf (transitivity Hext2 Hf)). cbn [bind]. apply Heq2. exact Hf.
  - (* Subquery *)
    destruct Hcmp.
  - (* InValues *)
    destruct Hcmp as [Harg Hvalues].
    destruct (copy_values_well X value_list X0 h0 h Hpre Hvalues)
      as (l' & h1 & Hcopies & Hext1 & Hfresh1 & Hlen & Heq1).
    destruct (IHe h0 h1 (transitivity Hpre Hext1) Harg)
      as (a' & h2 & Hc2 & Hext2 & Hfresh2 & Heq2).
    eexists _, h2. cbn [deep_copy]. rewrite Hcopies. cbn [bind]. rewrite Hc2. cbn [bind].
    split; [reflexivity |]. split; [transitivity h1; assumption |]. split.
    + unfold makeInValues. cbn [payloads]. apply Forall_app. split.
      * apply fresh_payload_mono with h1; assumption.
      * exact Hfresh1.
    + intros hf Hf. unfold makeInValues. cbn [equals].
      rewrite (Heq2 hf Hf). cbn [bind negb].
      rewrite (bool_decide_eq_true_2 _ Hlen). cbn [negb].
      apply Heq1. transitivity h2; assumption.
  - (* CharLengthExpr *)
    destruct (IHe h0 h Hpre Hcmp) as (a' & h1 & Hcopy & Hext & Hfresh & Heq).
    eexists _, h1. cbn [deep_copy]. rewrite Hcopy. cbn [bind].
    split; [reflexivity |]. split; [exact Hext |]. split; [exact Hfresh |].
    intros hf Hf. unfold makeCharLengthExpr. cbn [equals].
    rewrite (Heq hf Hf). cbn [bind negb orb].
    rewrite bool_decide_eq_true_2 by reflexivity. reflexivity.
  - (* LikeExpr *)
    destruct Hcmp as (Harg & Hlike & Hescape).
    destruct (IHe1 h0 h Hpre Harg) as (a' & h1 & Hc1 & Hext1 & Hfresh1 & Heq1).
    destruct (IHe2 h0 h1 (transitivity Hpre Hext1) Hlike)
      as (l' & h2 & Hc2 & Hext2 & Hfresh2 & Heq2).
    cbn [deep_copy]. rewrite Hc1. cbn [bind]. rewrite Hc2. cbn [bind].
    destruct X0 as [e3 IH3 |].
    + destruct (IH3 h0 h2 (transitivity Hpre (transitivity Hext1 Hext2)) Hescape)
        as (e' & h3 & Hc3 & Hext3 & Hfresh3 & Heq3).
      rewrite Hc3. cbn [bind].
      eexists _, h3. split; [reflexivity |].
      split; [transitivity h1; [assumption | transitivity h2; assumption] |]. split.
      * unfold makeLikeExpr. cbn [payloads]. repeat (apply Forall_app; split).
        -- exact Hfresh1.
        -- apply fresh_payload_mono with h1; assumption.
        -- apply fresh_payload_mono with h2; [transitivity h1 |]; assumption.
      * intros hf Hf. unfold makeLikeExpr. cbn [equals].
        rewrite (Heq1 hf (transitivity Hext2 (transitivity Hext3 Hf))). cbn [bind negb].
        rewrite (Heq2 hf (transitivity Hext3 Hf)). cbn [bind negb orb].
        rewrite bool_decide_eq_true_2 by reflexivity. cbn [negb].
        apply Heq3. exact Hf.
    + cbn [bind]. eexists _, h2. split; [reflexivity |].
      split; [transitivity h1; assumption |]. split.
      * unfold makeLikeExpr. cbn [payloads]. repeat (apply Forall_app; split).
        -- exact Hfresh1.
        -- apply fresh_payload_mono with h1; assumption.
        -- constructor.
      * intros hf Hf. unfold makeLikeExpr. cbn [equals].
        rewrite (Heq1 hf (transitivity Hext2 Hf)). cbn [bind negb].
        rewrite (Heq2 hf Hf). cbn [bind negb orb].
        rewrite bool_decide_eq_true_2 by reflexivity. reflexivity.
  - (* AggExpr *)
    cbn [deep_copy]. destruct X0 as [a IHa |].
    + destruct (IHa h0 h Hpre Hcmp) as (a' & h1 & Hcopy & Hext & Hfresh & Heq).
      rewrite Hcopy. cbn [bind]. eexists _, h1.
      split; [reflexivity |]. split; [exact Hext |]. split; [exact Hfresh |].
      intros hf Hf. unfold makeAggExpr. cbn [equals].
      rewrite !bool_decide_eq_true_2 by reflexivity. cbn [negb orb].
      apply Heq. exact Hf.
    + cbn [bind]. eexists _, h. split; [reflexivity |]. split; [reflexivity |].
      split; [constructor |]. intros hf Hf. unfold makeAggExpr. cbn [equals].
      rewrite !bool_decide_eq_true_2 by reflexivity. reflexivity.
  - (* CaseExpr *)
    destruct Hcmp as [Hpairs Helse].
    destruct (copy_pairs_well X expr_pair_list X0 h0 h Hpre Hpairs)
      as (l' & h1 & Hcopies & Hext1 & Hfresh1 & Hlen & Heq1).
    cbn [deep_copy]. rewrite Hcopies. cbn [bind].
    destruct X1 as [e IHe |].
    + destruct (IHe h0 h1 (transitivity Hpre Hext1) Helse)
        as (e' & h2 & Hc2 & Hext2 & Hfresh2 & Heq2).
      rewrite Hc2. cbn [bind]. eexists _, h2. split; [reflexivity |].
      split; [transitivity h1; assumption |]. split.
      * cbn [payloads]. apply Forall_app. split; [exact Hfresh1 |].
        apply fresh_payload_mono with h1; assumption.
      * intros hf Hf. cbn [equals].
        rewrite (bool_decide_eq_true_2 _ Hlen). cbn [negb].
        rewrite bool_decide_eq_true_2 by (split; eauto). cbn [negb].
        rewrite (Heq1 hf (transitivity Hext2 Hf)). cbn [bind negb].
        apply Heq2. exact Hf.
    + cbn [bind]. eexists _, h1. split; [reflexivity |].
      split; [exact Hext1 |]. split.
      * cbn [payloads]. apply Forall_app. split; [exact Hfresh1 | constructor].
      * intros hf Hf. cbn [equals].
        rewrite (bool_decide_eq_true_2 _ Hlen). cbn [negb].
        rewrite bool_decide_eq_true_2 by (split; intros [? ?]; discriminate). cbn [negb].
        rewrite (Heq1 hf Hf). reflexivity.
  - (* ExtractExpr *)
    destruct (IHe h0 h Hpre Hcmp) as (a' & h1 & Hcopy & Hext & Hfresh & Heq).
    eexists _, h1. cbn [deep_copy]. rewrite Hcopy. cbn [bind].
    split; [reflexivity |]. split; [exact Hext |]. split; [exact Hfresh |].
    intros hf Hf. cbn [equals]. rewrite bool_decide_eq_true_2 by reflexivity.
    apply Heq. exact Hf.
  - (* DatetruncExpr *)
    destruct (IHe h0 h Hpre Hcmp) as (a' & h1 & Hcopy & Hext & Hfresh & Heq).
    eexists _, h1. cbn [deep_copy]. rewrite Hcopy. cbn [bind].
    split; [reflexivity |]. split; [exact Hext |]. split; [exact Hfresh |].
    intros hf Hf. cbn [equals]. rewrite bool_decide_eq_true_2 by reflexivity.
    apply Heq. exact Hf.
Qed.

(** X28.  Away from the kinds [Datum_equal] has no case for, the copy of a
    comparable tree is found equal to the tree, and it shares no string
    with what was allocated before: overwriting a string of the copy
    changes none of the strings of the original. *)
Lemma deep_copy_equal_and_unshared (X : Externals) (e : Expr) (h : heap) :
  comparable X h e ->
  exists e' h',
    deep_copy X e h = Ok (e', h')
    /\ equals X h' e' e = Ok true
    /\ forall (p : nat) (s : string) (hm : heap),
         stringval (Some p) ∈ payloads e' ->
         assign_string h' (Some p) s = Ok hm ->
         forall q : nat, (q < length h)%nat -> hm !! q = h !! q.
Proof.
  intros Hcmp.
  destruct (deep_copy_well X e h h (reflexivity h) Hcmp)
    as (e' & h' & Hcopy & Hext & Hfresh & Heq).
  exists e', h'. split; [exact Hcopy |]. split; [apply Heq; reflexivity |].
  intros p s hm Hin Hassign q Hq.
  rewrite Forall_forall in Hfresh. specialize (Hfresh _ Hin p eq_refl).
  unfold assign_string in Hassign.
  destruct (h' !! p) as [[s0 |] |]; try discriminate. inversion Hassign; subst hm.
  rewrite list_lookup_insert_ne by lia.
  destruct (lookup_lt_is_Some_2 h q Hq) as [x Hx].
  rewrite Hx. eapply prefix_lookup_Some; eassumption.
Qed.

Example deep_copy_equal_and_unshared_hello :
  exists e' h',
    deep_copy example_externals
      (BinOper BOOL false kEQ kONE
         (ColumnVar (VARCHAR 5 kENCODING_NONE 0) false 1 1 0)
         (Constant (VARCHAR 5 kENCODING_NONE 0) false false (stringval (Some 0%nat))))
      [Some "hello"%string]
    = Ok (e', h')
    /\ equals example_externals h' e'
         (BinOper BOOL false kEQ kONE
            (ColumnVar (VARCHAR 5 kENCODING_NONE 0) false 1 1 0)
            (Constant (VARCHAR 5 kENCODING_NONE 0) false false
               (stringval (Some 0%nat))))
       = Ok true.
Proof.
  destruct (deep_copy_equal_and_unshared example_externals
              (BinOper BOOL false kEQ kONE
                 (ColumnVar (VARCHAR 5 kENCODING_NONE 0) false 1 1 0)
                 (Constant (VARCHAR 5 kENCODING_NONE 0) false false
                    (stringval (Some 0%nat))))
              [Some "hello"%string]) as (e' & h' & Hcopy & Heq & _).
  - simpl. split; [discriminate |]. split; [| discriminate].
    exists 0%nat, "hello"%string. split; reflexivity.
  - exists e', h'. split; assumption.
Defined.

(** C5. The copy of a DATE literal is not found equal to the literal:
    [deep_copy] succeeds and gives the same literal, and comparing the two
    aborts, because [Datum_equal] has no case for DATE (only for TIME and
    TIMESTAMP) and ends in [CHECK(false)].  The same happens for the type
    NULLT of an untyped NULL. *)
Theorem deep_copy_DATE_literal_equals_aborts (X : Externals) (v : Z) (h : heap) :
  deep_copy X (Constant (SQLTypeInfo2 kDATE false) false false (timeval v)) h
  = Ok (Constant (SQLTypeInfo2 kDATE false) false false (timeval v), h)
  /\ equals X h
       (Constant (SQLTypeInfo2 kDATE false) false false (timeval v))
       (Constant (SQLTypeInfo2 kDATE false) false false (timeval v))
     = Abort
  /\ deep_copy X (Constant (SQLTypeInfo2 kNULLT false) false true (bigintval 0)) h
     = Ok (Constant (SQLTypeInfo2 kNULLT false) false true (bigintval 0), h)
  /\ equals X h
       (Constant (SQLTypeInfo2 kNULLT false) false true (bigintval 0))
       (Constant (SQLTypeInfo2 kNULLT false) false true (bigintval 0))
     = Abort.
Proof. repeat split. Qed.

(** * Further properties *)

(** ** Promotion *)

Lemma common_numeric_type_answers (type1 type2 : SQLTypeInfo) :
  is_number type1 = true -> is_number type2 = true ->
  exists t, common_numeric_type type1 type2 = Ok t.
Proof.
  intros H1 H2. unfold common_numeric_type. rewrite H1, H2. simpl.
  unfold is_number in *.
  destruct (get_type type1); try discriminate;
    destruct (get_type type2); try discriminate; simpl;
    eexists; reflexivity.
Qed.

(** X1.  [common_numeric_type] of two numbers never runs into a [CHECK]: it
    answers a nullable, uncompressed numeric type whose kind is the higher
    of the two in the chain SMALLINT, INT, BIGINT, NUMERIC or DECIMAL,
    FLOAT, DOUBLE. *)
Theorem common_numeric_type_join (type1 type2 : SQLTypeInfo) :
  is_number type1 = true -> is_number type2 = true ->
  exists t,
    common_numeric_type type1 type2 = Ok t
    /\ is_number t = true
    /\ get_notnull t = false
    /\ get_compression t = kENCODING_NONE
    /\ promotion_rank (get_type t)
       = Nat.max (promotion_rank (get_type type1)) (promotion_rank (get_type type2)).
Proof.
  intros H1 H2. unfold common_numeric_type. rewrite H1, H2. simpl.
  unfold is_number in *.
  destruct (get_type type1) eqn:Hk1; try discriminate;
    destruct (get_type type2) eqn:Hk2; try discriminate; simpl;
    eexists; (split; [reflexivity |]); unfold is_number; simpl;
    rewrite ?Hk1; auto.
Qed.

Lemma common_numeric_type_join_witness :
  exists t,
    common_numeric_type (SQLTypeInfo2 kBIGINT true) (SQLTypeInfo2 kFLOAT false) = Ok t
    /\ is_number t = true
    /\ get_notnull t = false
    /\ get_compression t = kENCODING_NONE
    /\ promotion_rank (get_type t) = Nat.max 3 5.
Proof.
  apply (common_numeric_type_join (SQLTypeInfo2 kBIGINT true) (SQLTypeInfo2 kFLOAT false));
    reflexivity.
Defined.

(** ** analyze_type_info *)

(** X3.  No [CHECK(false)] of [analyze_type_info] or of [common_numeric_type]
    underneath it can be reached: for every operator and every two types
    the analysis either answers or throws a [runtime_error]. *)
Theorem analyze_type_info_never_aborts (op : SQLOps) (l r : SQLTypeInfo) :
  checks_pass (analyze_type_info op l r).
Proof.
  unfold analyze_type_info.
  destruct (IS_LOGIC op).
  - destruct (bool_decide (get_type l <> kBOOLEAN) || bool_decide (get_type r <> kBOOLEAN));
      exact I.
  - destruct (IS_COMPARISON op).
    + destruct (ti_eqb l r); [exact I |]. cbn [negb].
      destruct (is_number l && is_number r) eqn:Hnum.
      * apply andb_prop in Hnum. destruct Hnum as [Hl Hr].
        destruct (common_numeric_type_answers l r Hl Hr) as (t & ->). exact I.
      * unfold is_time, is_string.
        destruct (get_type l), (get_type r); exact I.
    + destruct (IS_ARITHMETIC op); [| exact I].
      destruct (is_number l) eqn:Hl; [| exact I].
      destruct (is_number r) eqn:Hr; [| exact I]. cbn [negb orb].
      destruct (bool_decide (op = kMODULO) && (negb (is_integer l) || negb (is_integer r)));
        [exact I |].
      destruct (common_numeric_type_answers l r Hl Hr) as (t & ->). exact I.
Qed.

Lemma comparison_not_arithmetic op : IS_COMPARISON op = true -> IS_ARITHMETIC op = false.
Proof. destruct op; simpl; congruence. Qed.

Lemma arithmetic_not_logic op : IS_ARITHMETIC op = true -> IS_LOGIC op = false.
Proof. destruct op; simpl; congruence. Qed.

Lemma arithmetic_not_comparison op : IS_ARITHMETIC op = true -> IS_COMPARISON op = false.
Proof. destruct op; simpl; congruence. Qed.

(** X4.  After a successful comparison or arithmetic operation the two operands
    are to be cast to types that differ at most in nullability, unless the
    operator compares two strings, whose types are left as they are. *)
Theorem analyze_type_info_operands_agree (op : SQLOps) (l r res nl nr : SQLTypeInfo) :
  analyze_type_info op l r = Ok (res, nl, nr) ->
  IS_COMPARISON op = true \/ IS_ARITHMETIC op = true ->
  ~ (is_string l = true /\ is_string r = true) ->
  set_notnull nl false = set_notnull nr false.
Proof.
  intros Hok Hop Hstr. unfold analyze_type_info in Hok.
  apply bind_Ok in Hok. destruct Hok as ([[res0 nl0] nr0] & Hbody & Hret).
  inversion Hret; subst; clear Hret.
  destruct Hop as [Hop | Hop].
  - rewrite (comparison_not_logic _ Hop), Hop in Hbody.
    apply bind_Ok in Hbody. destruct Hbody as ([nl1 nr1] & Hbody & Hret).
    inversion Hret; subst; clear Hret.
    destruct (ti_eqb l r) eqn:Heq; cbn [negb] in Hbody.
    + apply bool_decide_eq_true_1 in Heq. inversion Hbody; subst. reflexivity.
    + destruct (is_number l && is_number r).
      * apply bind_Ok in Hbody. destruct Hbody as (c & _ & Hret).
        inversion Hret; subst. reflexivity.
      * destruct (is_time l && is_time r) eqn:Htime.
        -- unfold is_time in Htime.
           destruct (get_type l), (get_type r); try discriminate;
             inversion Hbody; subst; reflexivity.
        -- destruct (is_string l && is_time r); [inversion Hbody; subst; reflexivity |].
           destruct (is_time l && is_string r); [inversion Hbody; subst; reflexivity |].
           destruct (is_string l && is_string r) eqn:Hss; [| discriminate].
           apply andb_prop in Hss. contradiction.
  - rewrite (arithmetic_not_logic _ Hop), (arithmetic_not_comparison _ Hop), Hop in Hbody.
    destruct (negb (is_number l) || negb (is_number r)); [discriminate |].
    destruct (bool_decide (op = kMODULO) && (negb (is_integer l) || negb (is_integer r)));
      [discriminate |].
    apply bind_Ok in Hbody. destruct Hbody as (c & _ & Hret).
    inversion Hret; subst. reflexivity.
Qed.

Lemma analyze_type_info_operands_agree_witness :
  set_notnull (SQLTypeInfo4 kTIMESTAMP 3 0 true) false
  = set_notnull (SQLTypeInfo4 kTIMESTAMP 3 0 false) false.
Proof.
  apply (analyze_type_info_operands_agree kLT
           (SQLTypeInfo4 kTIMESTAMP 3 0 true) (SQLTypeInfo4 kTIMESTAMP 0 0 false)
           (SQLTypeInfo2 kBOOLEAN false)
           (SQLTypeInfo4 kTIMESTAMP 3 0 true) (SQLTypeInfo4 kTIMESTAMP 3 0 false)).
  - reflexivity.
  - left. reflexivity.
  - intros [Hs _]. discriminate Hs.
Defined.

Lemma common_numeric_type_rank (type1 type2 t : SQLTypeInfo) :
  common_numeric_type type1 type2 = Ok t ->
  is_number t = true
  /\ promotion_rank (get_type t)
     = Nat.max (promotion_rank (get_type type1)) (promotion_rank (get_type type2)).
Proof.
  unfold common_numeric_type, is_number.
  destruct (get_type type1) eqn:Hk1; simpl; try discriminate;
    destruct (get_type type2) eqn:Hk2; simpl; try discriminate;
    intros Hr; inversion Hr; subst; simpl; rewrite ?Hk1; auto.
Qed.

(** What a successful analysis answers: a type that is not null only if
    both operands are; BOOLEAN for a logic or comparison operator; for an
    arithmetic operator a number of the higher of the two operand kinds in
    the chain SMALLINT, INT, BIGINT, NUMERIC or DECIMAL, FLOAT, DOUBLE. *)
Theorem analyze_type_info_result (op : SQLOps) (l r res nl nr : SQLTypeInfo) :
  analyze_type_info op l r = Ok (res, nl, nr) ->
  get_notnull res = get_notnull l && get_notnull r
  /\ (IS_ARITHMETIC op = false ->
      res = SQLTypeInfo2 kBOOLEAN (get_notnull l && get_notnull r))
  /\ (IS_ARITHMETIC op = true ->
      is_number res = true
      /\ promotion_rank (get_type res)
         = Nat.max (promotion_rank (get_type l)) (promotion_rank (get_type r))).
Proof.
  intros Hok. unfold analyze_type_info in Hok.
  apply bind_Ok in Hok. destruct Hok as ([[res0 nl0] nr0] & Hbody & Hret).
  inversion Hret; subst; clear Hret.
  split; [reflexivity |].
  destruct (IS_LOGIC op) eqn:Hlog.
  - assert (Har : IS_ARITHMETIC op = false) by (destruct op; simpl in *; congruence).
    split; [| congruence]. intros _.
    destruct (bool_decide (get_type l <> kBOOLEAN) || bool_decide (get_type r <> kBOOLEAN));
      [discriminate |].
    inversion Hbody; subst. reflexivity.
  - destruct (IS_COMPARISON op) eqn:Hcmp.
    + rewrite (comparison_not_arithmetic _ Hcmp). split; [| congruence]. intros _.
      apply bind_Ok in Hbody. destruct Hbody as ([nl1 nr1] & _ & Hret).
      inversion Hret; subst. reflexivity.
    + destruct (IS_ARITHMETIC op); [| discriminate].
      split; [congruence |]. intros _.
      destruct (negb (is_number l) || negb (is_number r)); [discriminate |].
      destruct (bool_decide (op = kMODULO) && (negb (is_integer l) || negb (is_integer r)));
        [discriminate |].
      apply bind_Ok in Hbody. destruct Hbody as (c & Hc & Hret).
      inversion Hret; subst. exact (common_numeric_type_rank _ _ _ Hc).
Qed.

Lemma analyze_type_info_result_witness :
  is_number (set_notnull (NUMERIC 10 2) false) = true
  /\ promotion_rank (get_type (set_notnull (NUMERIC 10 2) false)) = Nat.max 1 4.
Proof.
  apply (analyze_type_info_result kPLUS (SQLTypeInfo2 kSMALLINT true) (DECIMAL 10 2)
           (set_notnull (NUMERIC 10 2) false) (set_notnull (NUMERIC 10 2) true)
           (set_notnull (NUMERIC 10 2) false));
    reflexivity.
Defined.

(** X5.  The three outcomes of an arithmetic operator: operands that are not
    both numbers are refused; MODULO of operands that are not both integers
    is refused; otherwise the analysis succeeds with the common numeric type
    (it never fails on two numbers). *)
Theorem analyze_type_info_arithmetic (op : SQLOps) (l r : SQLTypeInfo) :
  IS_ARITHMETIC op = true ->
  (is_number l && is_number r = false ->
   analyze_type_info op l r = Throw "non-numeric operands in arithmetic operations.")
  /\ (is_number l && is_number r = true -> op = kMODULO ->
      is_integer l && is_integer r = false ->
      analyze_type_info op l r = Throw "non-integer operands in modulo operation.")
  /\ (is_number l && is_number r = true ->
      (op = kMODULO -> is_integer l && is_integer r = true) ->
      exists c,
        common_numeric_type l r = Ok c
        /\ analyze_type_info op l r
           = Ok (set_notnull c (get_notnull l && get_notnull r),
                 set_notnull c (get_notnull l), set_notnull c (get_notnull r))).
Proof.
  intros Hop. unfold analyze_type_info.
  rewrite (arithmetic_not_logic _ Hop), (arithmetic_not_comparison _ Hop), Hop.
  split; [| split].
  - intros Hnum. apply andb_false_iff in Hnum.
    destruct Hnum as [-> | ->]; simpl; rewrite ?orb_true_r; reflexivity.
  - intros Hnum -> Hint. apply andb_prop in Hnum. destruct Hnum as [-> ->]. simpl.
    apply andb_false_iff in Hint.
    destruct Hint as [-> | ->]; simpl; rewrite ?orb_true_r; reflexivity.
  - intros Hnum Hint. apply andb_prop in Hnum. destruct Hnum as [Hl Hr].
    rewrite Hl, Hr. simpl.
    destruct (common_numeric_type_answers l r Hl Hr) as (c & Hc).
    exists c. split; [exact Hc |].
    destruct (bool_decide (op = kMODULO)) eqn:Hmod.
    + apply bool_decide_eq_true_1 in Hmod. specialize (Hint Hmod).
      apply andb_prop in Hint. destruct Hint as [-> ->]. simpl.
      rewrite Hc. reflexivity.
    + simpl. rewrite Hc. reflexivity.
Qed.

Lemma analyze_type_info_arithmetic_witness :
  analyze_type_info kMODULO (SQLTypeInfo2 kINT false) (SQLTypeInfo2 kFLOAT false)
  = Throw "non-integer operands in modulo operation.".
Proof.
  apply (analyze_type_info_arithmetic kMODULO
           (SQLTypeInfo2 kINT false) (SQLTypeInfo2 kFLOAT false));
    reflexivity.
Defined.

(** ** common_string_type *)

(** X6.  [common_string_type] does not depend on the order of its operands when
    [TRANSIENT_DICT] is an involution. *)
Theorem common_string_type_sym (TRANSIENT_DICT : Z -> Z) (type1 type2 : SQLTypeInfo) :
  (forall id, TRANSIENT_DICT (TRANSIENT_DICT id) = id) ->
  common_string_type TRANSIENT_DICT type1 type2
  = common_string_type TRANSIENT_DICT type2 type1.
Proof.
  intros Hinv. unfold common_string_type.
  rewrite (andb_comm (is_string type2)).
  destruct (is_string type1 && is_string type2); [| reflexivity]. cbn [negb].
  rewrite (orb_comm (bool_decide (get_type type2 = kTEXT))).
  rewrite (Z.max_comm (get_dimension type2)).
  assert (Hrel : bool_decide (get_comp_param type1 = get_comp_param type2)
                 || bool_decide (get_comp_param type1 = TRANSIENT_DICT (get_comp_param type2))
                 = bool_decide (get_comp_param type2 = get_comp_param type1)
                   || bool_decide (get_comp_param type2 = TRANSIENT_DICT (get_comp_param type1))).
  { apply eq_true_iff_eq. rewrite !orb_true_iff, !bool_decide_eq_true.
    split; (intros [He | He]; [left; congruence | right]).
    - rewrite He, Hinv. reflexivity.
    - rewrite He, Hinv. reflexivity. }
  rewrite <- Hrel.
  rewrite (Z.min_comm (get_comp_param type2)), (Z.max_comm (get_comp_param type2)).
  destruct (get_compression type1), (get_compression type2); reflexivity.
Qed.

Lemma common_string_type_sym_witness :
  common_string_type spec_TRANSIENT_DICT
    (VARCHAR 10 kENCODING_DICT 3) (VARCHAR 20 kENCODING_DICT (-5))
  = common_string_type spec_TRANSIENT_DICT
      (VARCHAR 20 kENCODING_DICT (-5)) (VARCHAR 10 kENCODING_DICT 3).
Proof.
  apply (common_string_type_sym spec_TRANSIENT_DICT).
  intros id. unfold spec_TRANSIENT_DICT. lia.
Defined.

(** X7.  [common_string_type] gives up on anything but two strings; on two
    strings it answers a nullable string type that is TEXT exactly when one
    of them is, and DICT-encoded exactly when both are with the same
    dictionary. *)
Theorem common_string_type_shape (TRANSIENT_DICT : Z -> Z) (type1 type2 : SQLTypeInfo) :
  (is_string type1 && is_string type2 = false ->
   common_string_type TRANSIENT_DICT type1 type2 = Abort)
  /\ (is_string type1 && is_string type2 = true ->
      exists t,
        common_string_type TRANSIENT_DICT type1 type2 = Ok t
        /\ is_string t = true
        /\ get_notnull t = false
        /\ (get_type t = kTEXT <-> get_type type1 = kTEXT \/ get_type type2 = kTEXT)
        /\ (get_compression t = kENCODING_DICT <->
            get_compression type1 = kENCODING_DICT
            /\ get_compression type2 = kENCODING_DICT
            /\ same_dictionary TRANSIENT_DICT (get_comp_param type1)
                 (get_comp_param type2) = true)).
Proof.
  unfold common_string_type, same_dictionary. split.
  - intros ->. reflexivity.
  - intros ->. cbn [negb].
    destruct (bool_decide (get_comp_param type1 = get_comp_param type2)
              || bool_decide (get_comp_param type1
                              = TRANSIENT_DICT (get_comp_param type2))) eqn:Hrel;
      destruct (get_compression type1), (get_compression type2); simpl;
      destruct (bool_decide (get_type type1 = kTEXT)) eqn:H1;
      destruct (bool_decide (get_type type2 = kTEXT)) eqn:H2; simpl;
      try apply bool_decide_eq_true_1 in H1; try apply bool_decide_eq_true_1 in H2;
      try apply bool_decide_eq_false_1 in H1; try apply bool_decide_eq_false_1 in H2;
      eexists; (split; [reflexivity |]); simpl;
      (split; [reflexivity |]); (split; [reflexivity |]);
      (split; [| intuition congruence]); intuition congruence.
Qed.

Lemma common_string_type_shape_witness :
  exists t,
    common_string_type spec_TRANSIENT_DICT
      (VARCHAR 10 kENCODING_DICT 3)
      (SQLTypeInfo7 kTEXT 0 0 true kENCODING_DICT (-5) kNULLT) = Ok t
    /\ is_string t = true
    /\ get_notnull t = false
    /\ (get_type t = kTEXT <-> kVARCHAR = kTEXT \/ kTEXT = kTEXT)
    /\ (get_compression t = kENCODING_DICT <->
        kENCODING_DICT = kENCODING_DICT /\ kENCODING_DICT = kENCODING_DICT
        /\ same_dictionary spec_TRANSIENT_DICT 3 (-5) = true).
Proof.
  apply (common_string_type_shape spec_TRANSIENT_DICT
           (VARCHAR 10 kENCODING_DICT 3)
           (SQLTypeInfo7 kTEXT 0 0 true kENCODING_DICT (-5) kNULLT)).
  reflexivity.
Defined.

(** ** Casting a literal: numbers *)

Lemma sint_in_range (w v : Z) : 0 < w -> in_range w v -> sint w v = v.
Proof.
  unfold in_range, sint. intros Hw Hv.
  assert (H2 : 2 ^ w = 2 * 2 ^ (w - 1)).
  { replace w with (Z.succ (w - 1)) at 1 by lia. rewrite Z.pow_succ_r by lia. reflexivity. }
  rewrite Z.mod_small by lia. lia.
Qed.

Lemma in_range_mono (w w' v : Z) : 0 < w -> w <= w' -> in_range w v -> in_range w' v.
Proof.
  unfold in_range. intros Hw Hle Hv.
  assert (2 ^ (w - 1) <= 2 ^ (w' - 1)) by (apply Z.pow_le_mono_r; lia).
  lia.
Qed.

Lemma sint_range (w v : Z) : 0 < w -> in_range w (sint w v).
Proof.
  unfold in_range, sint. intros Hw.
  assert (H2 : 2 ^ w = 2 * 2 ^ (w - 1)).
  { replace w with (Z.succ (w - 1)) at 1 by lia. rewrite Z.pow_succ_r by lia. reflexivity. }
  assert (0 < 2 ^ (w - 1)) by (apply Z.pow_pos_nonneg; lia).
  pose proof (Z.mod_pos_bound (v + 2 ^ (w - 1)) (2 ^ w)). lia.
Qed.

(** X8.  A cast between two integer kinds keeps the low bits of the value: the
    literal holds, in the member of the target kind, the value wrapped to
    the width of the target, and the heap is not touched.  A value the
    target kind can hold is therefore kept, and casting it back to the
    kind it came from gives the literal one started with. *)
Theorem do_cast_integer (X : Externals) (type_info new_type_info : SQLTypeInfo)
    (v : Z) (h : heap) :
  is_integer type_info = true ->
  is_integer new_type_info = true ->
  in_range (integer_bits (get_type type_info)) v ->
  do_cast X type_info (integer_datum (get_type type_info) v) h new_type_info
  = Ok (new_type_info,
        integer_datum (get_type new_type_info)
          (sint (integer_bits (get_type new_type_info)) v), h)
  /\ (in_range (integer_bits (get_type new_type_info)) v ->
      sint (integer_bits (get_type new_type_info)) v = v
      /\ do_cast X new_type_info (integer_datum (get_type new_type_info) v) h type_info
         = Ok (type_info, integer_datum (get_type type_info) v, h)).
Proof.
  intros H1 H2 Hv.
  assert (Hcast : forall a b w,
            is_integer a = true -> is_integer b = true ->
            in_range (integer_bits (get_type a)) w ->
            do_cast X a (integer_datum (get_type a) w) h b
            = Ok (b, integer_datum (get_type b) (sint (integer_bits (get_type b)) w), h)).
  { intros a b w Ha Hb Hw. unfold do_cast, ti_eqb.
    destruct (bool_decide (a = b)) eqn:Heq.
    - apply bool_decide_eq_true_1 in Heq. subst b.
      rewrite sint_in_range; [reflexivity | | exact Hw].
      unfold is_integer in Ha. destruct (get_type a); simpl; try discriminate; lia.
    - unfold is_number, is_integer in *. unfold cast_number.
      destruct (get_type a) eqn:Ta; try discriminate Ha;
        destruct (get_type b) eqn:Tb; try discriminate Hb; simpl in *;
        rewrite ?(sint_in_range 64 w), ?(sint_in_range 32 w) by
          (first [lia | eapply in_range_mono; [| | exact Hw]; lia | exact Hw]);
        try reflexivity.
      all: rewrite sint_in_range by (first [lia | exact Hw]); reflexivity. }
  split; [apply Hcast; assumption |].
  intros Hv'.
  assert (Hw : 0 < integer_bits (get_type new_type_info)).
  { unfold is_integer in H2. destruct (get_type new_type_info); simpl; try discriminate; lia. }
  assert (Hw1 : 0 < integer_bits (get_type type_info)).
  { unfold is_integer in H1. destruct (get_type type_info); simpl; try discriminate; lia. }
  split; [apply sint_in_range; assumption |].
  rewrite (Hcast new_type_info type_info v H2 H1 Hv').
  rewrite (sint_in_range _ v Hw1 Hv). reflexivity.
Qed.

Lemma do_cast_integer_witness :
  do_cast example_externals (SQLTypeInfo2 kINT false)
    (integer_datum kINT 70000) [] (SQLTypeInfo2 kSMALLINT false)
  = Ok (SQLTypeInfo2 kSMALLINT false,
        integer_datum kSMALLINT (sint 16 70000), []).
Proof.
  apply (do_cast_integer example_externals (SQLTypeInfo2 kINT false)
           (SQLTypeInfo2 kSMALLINT false) 70000 []);
    [reflexivity | reflexivity | unfold in_range; simpl; lia].
Defined.

Lemma iter_div10 (n : nat) (v : Z) :
  Nat.iter n div10 v = Z.quot v (10 ^ Z.of_nat n).
Proof.
  induction n as [| n IH].
  - simpl. rewrite Z.quot_1_r. reflexivity.
  - rewrite Nat2Z.inj_succ, Z.pow_succ_r by lia. simpl. rewrite IH.
    unfold div10. rewrite Z.quot_quot by lia. f_equal. lia.
Qed.

Lemma loop_div10 (s v : Z) : 0 <= s -> loop s div10 v = Z.quot v (10 ^ s).
Proof.
  intros Hs. unfold loop. rewrite iter_div10, Z2Nat.id by exact Hs. reflexivity.
Qed.

Lemma iter_mul10 (n : nat) (v : Z) :
  in_range 64 (v * 10 ^ Z.of_nat n) -> Nat.iter n mul10 v = v * 10 ^ Z.of_nat n.
Proof.
  induction n as [| n IH]; intros Hv.
  - simpl. lia.
  - rewrite Nat2Z.inj_succ, Z.pow_succ_r in * by lia. simpl.
    assert (Hp : 0 < 10 ^ Z.of_nat n) by (apply Z.pow_pos_nonneg; lia).
    rewrite IH.
    + unfold mul10. rewrite sint_in_range; [lia | lia |].
      replace (v * 10 ^ Z.of_nat n * 10) with (v * (10 * 10 ^ Z.of_nat n)) by lia.
      exact Hv.
    + unfold in_range in *. simpl in *. nia.
Qed.

Lemma loop_mul10 (s v : Z) :
  0 <= s -> in_range 64 (v * 10 ^ s) -> loop s mul10 v = v * 10 ^ s.
Proof.
  intros Hs Hv. unfold loop. rewrite iter_mul10; rewrite Z2Nat.id by exact Hs;
    [reflexivity | exact Hv].
Qed.

Lemma quot_in_range (v p : Z) : 0 < p -> in_range 64 v -> in_range 64 (Z.quot v p).
Proof.
  intros Hp Hv. unfold in_range in *. simpl in *.
  destruct (Z_le_gt_dec 0 v) as [Hpos | Hneg].
  - pose proof (Z.quot_pos v _ Hpos Hp).
    pose proof (Z.quot_le_upper_bound v p v Hp ltac:(nia)). lia.
  - pose proof (Z.quot_opp_l v p ltac:(lia)) as Ho.
    pose proof (Z.quot_pos (- v) p ltac:(lia) Hp).
    pose proof (Z.quot_le_upper_bound (- v) p (- v) Hp ltac:(nia)). lia.
Qed.

Lemma do_cast_decimal_to_integer (X : Externals) (type_info new_type_info : SQLTypeInfo)
    (v : Z) (h : heap) :
  is_decimal type_info = true ->
  is_integer new_type_info = true ->
  0 <= get_scale type_info ->
  in_range 64 v ->
  do_cast X type_info (bigintval v) h new_type_info
  = Ok (new_type_info,
        integer_datum (get_type new_type_info)
          (sint (integer_bits (get_type new_type_info))
             (loop (get_scale type_info) div10 v)), h).
Proof.
  intros Hd Hi Hs Hv. unfold do_cast, ti_eqb.
  assert (Hq : in_range 64 (Z.quot v (10 ^ get_scale type_info))).
  { apply quot_in_range; [apply Z.pow_pos_nonneg; lia | exact Hv]. }
  rewrite bool_decide_eq_false_2.
  2: { intros ->. unfold is_decimal, is_integer in *.
       destruct (get_type new_type_info); discriminate. }
  unfold is_decimal, is_integer, is_number in *. unfold cast_number.
  destruct (get_type type_info); try discriminate Hd;
    destruct (get_type new_type_info); try discriminate Hi; simpl;
    rewrite ?(loop_div10 _ _ Hs); rewrite ?(sint_in_range 64) by (first [lia | exact Hq]);
    reflexivity.
Qed.

(** X9.  Casting a DECIMAL or NUMERIC literal to an integer kind drops the
    fraction digits without rounding: the unscaled value is divided by
    [10 ^ scale] towards zero, then wrapped to the width of the target. *)
Theorem do_cast_decimal_truncates (X : Externals) (type_info new_type_info : SQLTypeInfo)
    (v : Z) (h : heap) :
  is_decimal type_info = true ->
  is_integer new_type_info = true ->
  0 <= get_scale type_info ->
  in_range 64 v ->
  do_cast X type_info (bigintval v) h new_type_info
  = Ok (new_type_info,
        integer_datum (get_type new_type_info)
          (sint (integer_bits (get_type new_type_info))
             (Z.quot v (10 ^ get_scale type_info))), h).
Proof.
  intros Hd Hi Hs Hv.
  rewrite (do_cast_decimal_to_integer X _ _ _ h Hd Hi Hs Hv), (loop_div10 _ _ Hs).
  reflexivity.
Qed.

Lemma do_cast_decimal_truncates_witness :
  do_cast example_externals (DECIMAL 10 2) (bigintval (-199)) [] INT
  = Ok (INT, integer_datum kINT (sint 32 (Z.quot (-199) (10 ^ 2))), []).
Proof.
  apply (do_cast_decimal_truncates example_externals (DECIMAL 10 2) INT (-199) []);
    [reflexivity | reflexivity | simpl; lia | unfold in_range; simpl; lia].
Defined.

(** X10.  An integer literal cast to DECIMAL or NUMERIC of scale [s] holds its
    value times [10 ^ s] when that product fits 64 bits, and the cast back
    to the integer kind gives the literal one started with. *)
Theorem do_cast_integer_decimal_round_trip (X : Externals)
    (type_info new_type_info : SQLTypeInfo) (v : Z) (h : heap) :
  is_integer type_info = true ->
  is_decimal new_type_info = true ->
  0 <= get_scale new_type_info ->
  in_range (integer_bits (get_type type_info)) v ->
  in_range 64 (v * 10 ^ get_scale new_type_info) ->
  do_cast X type_info (integer_datum (get_type type_info) v) h new_type_info
  = Ok (new_type_info, bigintval (v * 10 ^ get_scale new_type_info), h)
  /\ do_cast X new_type_info (bigintval (v * 10 ^ get_scale new_type_info)) h type_info
     = Ok (type_info, integer_datum (get_type type_info) v, h).
Proof.
  intros Hi Hd Hs Hv Hprod.
  assert (Hw : 0 < integer_bits (get_type type_info) <= 64).
  { unfold is_integer in Hi. destruct (get_type type_info); simpl; try discriminate; lia. }
  split.
  - unfold do_cast, ti_eqb. rewrite bool_decide_eq_false_2.
    2: { intros ->. unfold is_decimal, is_integer in *.
         destruct (get_type new_type_info); discriminate. }
    assert (H64 : sint 64 v = v).
    { apply sint_in_range; [lia |]. eapply in_range_mono; [| | exact Hv]; lia. }
    unfold is_decimal, is_integer, is_number in *. unfold cast_number.
    destruct (get_type type_info); try discriminate Hi;
      destruct (get_type new_type_info); try discriminate Hd; simpl;
      rewrite ?H64, (loop_mul10 _ _ Hs Hprod); reflexivity.
  - rewrite (do_cast_decimal_to_integer X _ _ _ h Hd Hi Hs Hprod), (loop_div10 _ _ Hs).
    assert (Hp : 0 < 10 ^ get_scale new_type_info) by (apply Z.pow_pos_nonneg; lia).
    rewrite Z.quot_mul by lia.
    rewrite sint_in_range by (first [lia | exact Hv]). reflexivity.
Qed.

Lemma do_cast_integer_decimal_round_trip_witness :
  do_cast example_externals (SQLTypeInfo2 kSMALLINT false)
    (integer_datum kSMALLINT (-12)) [] (DECIMAL 10 3)
  = Ok (DECIMAL 10 3, bigintval (-12 * 10 ^ 3), [])
  /\ do_cast example_externals (DECIMAL 10 3) (bigintval (-12 * 10 ^ 3)) []
       (SQLTypeInfo2 kSMALLINT false)
     = Ok (SQLTypeInfo2 kSMALLINT false, integer_datum kSMALLINT (-12), []).
Proof.
  apply (do_cast_integer_decimal_round_trip example_externals
           (SQLTypeInfo2 kSMALLINT false) (DECIMAL 10 3) (-12) []);
    [reflexivity | reflexivity | simpl; lia
    | unfold in_range; simpl; lia | unfold in_range; simpl; lia].
Defined.

(** ** Casting a literal: checks and pointers *)

Lemma cast_number_safe (X : Externals) (type_info new_type_info : SQLTypeInfo)
    (d : Datum) (h : heap) :
  member_of_kind h type_info d ->
  is_number new_type_info = true ->
  is_number type_info = true \/ get_type type_info = kTIMESTAMP
  \/ get_type type_info = kBOOLEAN ->
  exists d', cast_number X type_info d new_type_info = Ok (new_type_info, d').
Proof.
  intros Hm Hnew Hold. unfold cast_number, member_of_kind, is_number in *.
  destruct (get_type type_info);
    try (destruct Hold as [Hold | [Hold | Hold]]; discriminate Hold);
    destruct (get_type new_type_info); try discriminate Hnew;
    destruct Hm as [v ->]; simpl;
    repeat match goal with |- context [bool_decide ?P] => destruct (bool_decide P) end;
    simpl; eexists; reflexivity.
Qed.

(** X11.  [do_cast] on a literal whose payload is the member of its kind, with a
    string allocated, fails no [CHECK] and follows no invalid pointer
    (given that [StringToDatum] does not): it answers or throws.  When it
    answers, the literal has the target type, no address of the heap was
    given up, and the payload of a string target is an allocated string. *)
Theorem do_cast_safe (X : Externals) (type_info new_type_info : SQLTypeInfo)
    (d : Datum) (h : heap) :
  (forall s t, checks_pass (StringToDatum X s t)) ->
  member_of_kind h type_info d ->
  checks_pass (do_cast X type_info d h new_type_info)
  /\ forall ti' d' h',
       do_cast X type_info d h new_type_info = Ok (ti', d', h') ->
       ti' = new_type_info
       /\ (length h <= length h')%nat
       /\ (is_string new_type_info = true ->
           exists (p : nat) (s : string),
             d' = stringval (Some p) /\ h' !! p = Some (Some s)).
Proof.
  intros Hext Hm. unfold do_cast, ti_eqb.
  destruct (bool_decide (type_info = new_type_info)) eqn:Heq.
  { apply bool_decide_eq_true_1 in Heq. subst new_type_info.
    split; [exact I |]. intros ti' d' h' Hr. inversion Hr; subst.
    split; [reflexivity |]. split; [lia |]. intros Hs.
    unfold member_of_kind, is_string in *.
    destruct (get_type ti'); try discriminate Hs; exact Hm. }
  destruct (is_number new_type_info
            && (is_number type_info || bool_decide (get_type type_info = kTIMESTAMP)
                || bool_decide (get_type type_info = kBOOLEAN))) eqn:Hnum.
  { apply andb_prop in Hnum. destruct Hnum as [Hnew Hold].
    rewrite !orb_true_iff, !bool_decide_eq_true in Hold.
    destruct (cast_number_safe X type_info new_type_info d h Hm Hnew
                ltac:(tauto)) as [d1 Hd1].
    rewrite Hd1. simpl. split; [exact I |].
    intros ti' d' h' Hr. inversion Hr; subst.
    split; [reflexivity |]. split; [lia |]. intros Hs.
    rewrite (is_string_not_number _ Hs) in Hnew. discriminate. }
  destruct (is_string type_info) eqn:Hsold.
  - (* the literal is a string *)
    assert (Hp : exists (p : nat) (s : string),
               d = stringval (Some p) /\ h !! p = Some (Some s)).
    { unfold member_of_kind, is_string in *.
      destruct (get_type type_info); try discriminate Hsold; exact Hm. }
    destruct Hp as (p & s & -> & Hp).
    assert (Hlt : (p < length h)%nat) by (eapply lookup_lt_Some; exact Hp).
    destruct (is_string new_type_info) eqn:Hsnew; simpl.
    + unfold cast_string. simpl.
      destruct (bool_decide (get_type new_type_info ≠ kTEXT)); simpl.
      * rewrite Hp. simpl.
        destruct (bool_decide (to_size_t (get_dimension new_type_info)
                               < Z.of_nat (String.length s))).
        -- unfold new_string, delete_string.
           rewrite lookup_app_l by exact Hlt. rewrite Hp. simpl.
           split; [exact I |]. intros ti' d' h' Hr. inversion Hr; subst.
           split; [reflexivity |].
           split; [rewrite length_insert, length_app; lia |].
           intros _. eexists _, _. split; [reflexivity |].
           rewrite list_lookup_insert_ne by lia.
           rewrite lookup_app_r by lia. rewrite Nat.sub_diag. reflexivity.
        -- split; [exact I |]. intros ti' d' h' Hr. inversion Hr; subst.
           split; [reflexivity |]. split; [lia |]. intros _. eauto.
      * split; [exact I |]. intros ti' d' h' Hr. inversion Hr; subst.
        split; [reflexivity |]. split; [lia |]. intros _. eauto.
    + unfold cast_from_string. simpl. rewrite Hp. simpl.
      specialize (Hext s new_type_info).
      destruct (StringToDatum X s new_type_info) as [d1 | msg | |]; simpl;
        try contradiction.
      * split; [exact I |].
        intros ti' d' h' Hr. inversion Hr; subst.
        split; [reflexivity |]. split; [rewrite length_insert; lia |].
        discriminate.
      * split; [exact I |]. discriminate.
  - destruct (is_string new_type_info) eqn:Hsnew; simpl.
    + unfold cast_to_string, new_string, assign_string. simpl.
      rewrite lookup_app_r by lia. rewrite Nat.sub_diag. simpl.
      unfold deref. rewrite list_lookup_insert_eq by (rewrite length_app; simpl; lia).
      simpl.
      destruct (bool_decide (get_type new_type_info ≠ kTEXT)
                && bool_decide (Z.of_nat (String.length (DatumToString X
                                   (stringval (Some (length h))) type_info))
                                > to_size_t (get_dimension new_type_info))); simpl.
      * split; [exact I |]. intros ti' d' h' Hr. inversion Hr; subst.
        split; [reflexivity |].
        split; [rewrite !length_insert, length_app; lia |].
        intros _. eexists _, _. split; [reflexivity |].
        apply list_lookup_insert_eq. rewrite length_insert, length_app. simpl. lia.
      * split; [exact I |]. intros ti' d' h' Hr. inversion Hr; subst.
        split; [reflexivity |].
        split; [rewrite !length_insert, length_app; lia |].
        intros _. eexists _, _. split; [reflexivity |].
        apply list_lookup_insert_eq. rewrite length_app. simpl. lia.
    + split; [exact I |]. discriminate.
Qed.

Lemma do_cast_safe_witness :
  checks_pass (do_cast example_externals INT (intval 7) [] (VARCHAR 4 kENCODING_NONE 0)).
Proof.
  apply (do_cast_safe example_externals INT (VARCHAR 4 kENCODING_NONE 0) (intval 7) []).
  - intros s t. exact I.
  - simpl. exists 7. reflexivity.
Defined.

Lemma length_substr0 (s : string) (n : Z) :
  0 <= n < Z.of_nat (String.length s) -> Z.of_nat (String.length (substr0 s n)) = n.
Proof.
  intros Hn. unfold substr0. rewrite length_substring_0 by lia. lia.
Qed.

Lemma to_size_t_nonneg (z : Z) : 0 <= to_size_t z.
Proof. unfold to_size_t. apply Z.mod_pos_bound. lia. Qed.

(** X12.  After [do_cast] to a bounded string type (not TEXT) that differs from
    the type of the literal, whatever that was, the string the literal
    holds is not longer than the dimension of the target, read as a
    [size_t]. *)
Theorem do_cast_string_bounded (X : Externals) (type_info new_type_info : SQLTypeInfo)
    (d : Datum) (h : heap) (ti' : SQLTypeInfo) (p : nat) (h' : heap) (s : string) :
  type_info <> new_type_info ->
  is_string new_type_info = true ->
  get_type new_type_info <> kTEXT ->
  do_cast X type_info d h new_type_info = Ok (ti', stringval (Some p), h') ->
  h' !! p = Some (Some s) ->
  Z.of_nat (String.length s) <= to_size_t (get_dimension new_type_info).
Proof.
  intros Hne Hsnew Htext Hr Hp. unfold do_cast, ti_eqb in Hr.
  rewrite (bool_decide_eq_false_2 _ Hne) in Hr.
  rewrite (is_string_not_number _ Hsnew), Hsnew in Hr. simpl in Hr.
  pose proof (to_size_t_nonneg (get_dimension new_type_info)) as H0.
  destruct (is_string type_info).
  - unfold cast_string in Hr. destruct d; try discriminate Hr. simpl in Hr.
    rewrite (bool_decide_eq_true_2 _ Htext), andb_true_r in Hr.
    destruct s0 as [a |]; simpl in Hr; [| inversion Hr].
    destruct (h !! a) as [[str |] |] eqn:Ha; simpl in Hr; try discriminate Hr.
    assert (Hlt : (a < length h)%nat) by (eapply lookup_lt_Some; exact Ha).
    destruct (bool_decide (to_size_t (get_dimension new_type_info)
                           < Z.of_nat (String.length str))) eqn:Hlen.
    + apply bool_decide_eq_true_1 in Hlen.
      unfold new_string, delete_string in Hr.
      rewrite lookup_app_l in Hr by exact Hlt. rewrite Ha in Hr. simpl in Hr.
      inversion Hr; subst.
      rewrite list_lookup_insert_ne in Hp by lia.
      rewrite lookup_app_r in Hp by lia. rewrite Nat.sub_diag in Hp.
      inversion Hp; subst. rewrite length_substr0 by lia. lia.
    + apply bool_decide_eq_false_1 in Hlen. inversion Hr; subst.
      rewrite Ha in Hp. inversion Hp; subst. lia.
  - unfold cast_to_string, new_string, assign_string in Hr. simpl in Hr.
    rewrite lookup_app_r in Hr by lia. rewrite Nat.sub_diag in Hr. simpl in Hr.
    unfold deref in Hr.
    rewrite list_lookup_insert_eq in Hr by (rewrite length_app; simpl; lia).
    simpl in Hr.
    rewrite (bool_decide_eq_true_2 _ Htext) in Hr. simpl in Hr.
    destruct (bool_decide (Z.of_nat (String.length (DatumToString X
                             (stringval (Some (length h))) type_info))
                           > to_size_t (get_dimension new_type_info))) eqn:Hlen.
    + apply bool_decide_eq_true_1 in Hlen.
      rewrite ?list_lookup_insert_eq in Hr by (rewrite length_app; simpl; lia).
      simpl in Hr. inversion Hr; subst.
      rewrite list_lookup_insert_eq in Hp
        by (rewrite length_insert, length_app; simpl; lia).
      inversion Hp; subst. rewrite length_substr0 by lia. lia.
    + apply bool_decide_eq_false_1 in Hlen. inversion Hr; subst.
      rewrite list_lookup_insert_eq in Hp by (rewrite length_app; simpl; lia).
      inversion Hp; subst. lia.
Qed.

Lemma do_cast_string_bounded_witness :
  Z.of_nat (String.length "hello")
  <= to_size_t (get_dimension (VARCHAR 5 kENCODING_NONE 0)).
Proof.
  apply (do_cast_string_bounded example_externals
           (VARCHAR 11 kENCODING_NONE 0) (VARCHAR 5 kENCODING_NONE 0)
           (stringval (Some 0%nat)) [Some "hello world"%string]
           (VARCHAR 5 kENCODING_NONE 0) 1%nat [None; Some "hello"%string]);
    try reflexivity; discriminate.
Defined.

Lemma cast_number_never_throws (X : Externals) (type_info new_type_info : SQLTypeInfo)
    (d : Datum) (msg : string) :
  cast_number X type_info d new_type_info <> Throw msg.
Proof.
  unfold cast_number.
  destruct (get_type type_info), (get_type new_type_info), d; simpl;
    repeat match goal with |- context [bool_decide ?P] => destruct (bool_decide P) end;
    simpl; discriminate.
Qed.

(** Between two types that are no strings, [do_cast] refuses with
    "Invalid cast." exactly the casts to a different type that is no number
    (to BOOLEAN, TIME, TIMESTAMP or DATE) or from a kind that is neither a
    number nor TIMESTAMP nor BOOLEAN (from TIME or DATE). *)
Theorem do_cast_invalid (X : Externals) (type_info new_type_info : SQLTypeInfo)
    (d : Datum) (h : heap) :
  is_string type_info = false ->
  is_string new_type_info = false ->
  do_cast X type_info d h new_type_info = Throw "Invalid cast."
  <-> type_info <> new_type_info
      /\ (is_number new_type_info = false
          \/ (is_number type_info = false
              /\ get_type type_info <> kTIMESTAMP
              /\ get_type type_info <> kBOOLEAN)).
Proof.
  intros Hsold Hsnew. unfold do_cast, ti_eqb. rewrite Hsold, Hsnew.
  destruct (bool_decide (type_info = new_type_info)) eqn:Heq.
  { apply bool_decide_eq_true_1 in Heq. split; [discriminate | tauto]. }
  apply bool_decide_eq_false_1 in Heq.
  destruct (is_number new_type_info) eqn:Hnew; simpl.
  - destruct (is_number type_info) eqn:Hold; simpl.
    + split.
      * intros Hr. exfalso.
        destruct (cast_number X type_info d new_type_info) as [[? ?] | msg | |] eqn:Hc;
          simpl in Hr; try discriminate Hr.
        exact (cast_number_never_throws X _ _ _ _ Hc).
      * intros [_ [Hf | [Hf _]]]; discriminate Hf.
    + destruct (bool_decide (get_type type_info = kTIMESTAMP)) eqn:Hts; simpl.
      * apply bool_decide_eq_true_1 in Hts. split.
        -- intros Hr. exfalso.
           destruct (cast_number X type_info d new_type_info) as [[? ?] | msg | |] eqn:Hc;
             simpl in Hr; try discriminate Hr.
           exact (cast_number_never_throws X _ _ _ _ Hc).
        -- intros [_ [Hf | (_ & Hf & _)]]; [discriminate Hf | contradiction].
      * apply bool_decide_eq_false_1 in Hts.
        destruct (bool_decide (get_type type_info = kBOOLEAN)) eqn:Hb; simpl.
        -- apply bool_decide_eq_true_1 in Hb. split.
           ++ intros Hr. exfalso.
              destruct (cast_number X type_info d new_type_info)
                as [[? ?] | msg | |] eqn:Hc; simpl in Hr; try discriminate Hr.
              exact (cast_number_never_throws X _ _ _ _ Hc).
           ++ intros [_ [Hf | (_ & _ & Hf)]]; [discriminate Hf | contradiction].
        -- apply bool_decide_eq_false_1 in Hb. split; [| reflexivity].
           intros _. split; [exact Heq |]. right. auto.
  - split; [| reflexivity]. intros _. split; [exact Heq |]. left. reflexivity.
Qed.

Lemma do_cast_invalid_witness :
  do_cast example_externals (SQLTypeInfo2 kBIGINT false) (bigintval 1) []
    (SQLTypeInfo2 kBOOLEAN false)
  = Throw "Invalid cast.".
Proof.
  apply (do_cast_invalid example_externals (SQLTypeInfo2 kBIGINT false)
           (SQLTypeInfo2 kBOOLEAN false) (bigintval 1) []);
    [reflexivity | reflexivity |].
  split; [discriminate | left; reflexivity].
Defined.

(** ** add_cast: what comes back *)

Lemma cast_number_type (X : Externals) (type_info new_type_info : SQLTypeInfo)
    (d : Datum) (ti' : SQLTypeInfo) (d' : Datum) :
  cast_number X type_info d new_type_info = Ok (ti', d') -> ti' = new_type_info.
Proof.
  unfold cast_number. intros Hr.
  match type of Hr with
  | bind ?r _ = _ => destruct r; simpl in Hr; try discriminate Hr
  end.
  inversion Hr; subst. reflexivity.
Qed.

Lemma do_cast_type (X : Externals) (type_info new_type_info : SQLTypeInfo)
    (d : Datum) (h : heap) (ti' : SQLTypeInfo) (d' : Datum) (h' : heap) :
  do_cast X type_info d h new_type_info = Ok (ti', d', h') -> ti' = new_type_info.
Proof.
  unfold do_cast, ti_eqb. intros Hr.
  destruct (bool_decide (type_info = new_type_info)) eqn:Heq.
  { apply bool_decide_eq_true_1 in Heq. inversion Hr; subst. reflexivity. }
  destruct (is_number new_type_info
            && (is_number type_info || bool_decide (get_type type_info = kTIMESTAMP)
                || bool_decide (get_type type_info = kBOOLEAN))).
  { destruct (cast_number X type_info d new_type_info) as [[ti1 d1] | | |] eqn:Hc;
      simpl in Hr; try discriminate Hr.
    inversion Hr; subst. exact (cast_number_type X _ _ _ _ _ Hc). }
  destruct (is_string new_type_info && is_string type_info).
  { unfold cast_string in Hr.
    destruct (get_stringval d) as [s | | |]; simpl in Hr; try discriminate Hr.
    destruct (bool_decide (s ≠ None) && bool_decide (get_type new_type_info ≠ kTEXT)).
    - destruct (deref h s) as [str | | |]; simpl in Hr; try discriminate Hr.
      destruct (bool_decide (to_size_t (get_dimension new_type_info)
                             < Z.of_nat (String.length str))).
      + unfold new_string in Hr.
        destruct (delete_string _ s) as [h2 | | |]; simpl in Hr; try discriminate Hr.
        inversion Hr; subst. reflexivity.
      + inversion Hr; subst. reflexivity.
    - inversion Hr; subst. reflexivity. }
  destruct (is_string type_info).
  { unfold cast_from_string in Hr.
    destruct (get_stringval d) as [s | | |]; simpl in Hr; try discriminate Hr.
    destruct (deref h s) as [str | | |]; simpl in Hr; try discriminate Hr.
    destruct (StringToDatum X str new_type_info) as [d1 | | |]; simpl in Hr;
      try discriminate Hr.
    destruct (delete_string h s) as [h1 | | |]; simpl in Hr; try discriminate Hr.
    inversion Hr; subst. reflexivity. }
  destruct (is_string new_type_info); [| discriminate Hr].
  unfold cast_to_string, new_string in Hr.
  repeat match type of Hr with
         | bind ?r _ = _ => destruct r; simpl in Hr; try discriminate Hr
         end.
  inversion Hr; subst. reflexivity.
Qed.

Lemma Expr_add_cast_reached (X : Externals) (this : Expr) (T : SQLTypeInfo) (r : handle) :
  Expr_add_cast X this T = Ok r -> cast_reached T (get_type_info (pointee this r)).
Proof.
  unfold Expr_add_cast, ti_eqb, cast_reached. intros Hr.
  destruct (bool_decide (T = get_type_info this)) eqn:Heq.
  { apply bool_decide_eq_true_1 in Heq. inversion Hr; subst. left. auto. }
  match type of Hr with
  | (if ?c then _ else _) = _ => destruct c eqn:Hdict
  end.
  { inversion Hr; subst. simpl. right.
    repeat rewrite andb_true_iff in Hdict.
    repeat rewrite bool_decide_eq_true in Hdict. tauto. }
  destruct (negb (is_castable X (get_type_info this) T)); [discriminate Hr |].
  match type of Hr with
  | (if ?c then _ else _) = _ => destruct c
  end.
  { destruct (is_string (get_type_info this)
              && bool_decide (get_compression (get_type_info this) ≠ kENCODING_DICT));
      discriminate Hr. }
  inversion Hr; subst. left. reflexivity.
Qed.

(** X13.  Whenever [add_cast(T)] returns, the expression it hands back has the
    type [T], or [T] and the type of that expression are both
    DICT-encoded string types: the one case in which the code leaves the
    dictionary of the expression as it is. *)
Theorem add_cast_reached (X : Externals) (this : Expr) (h : heap) (T : SQLTypeInfo)
    (this' : Expr) (h' : heap) (r : handle) :
  add_cast X this h T = Ok (this', h', r) ->
  cast_reached T (get_type_info (pointee this' r)).
Proof.
  intros Hr.
  assert (Hbase : forall e,
            (perform r0 := Expr_add_cast X e T in Ok (e, h, r0)) = Ok (this', h', r) ->
            cast_reached T (get_type_info (pointee this' r))).
  { intros e He. destruct (Expr_add_cast X e T) as [r0 | | |] eqn:Hb; simpl in He;
      try discriminate He.
    inversion He; subst. exact (Expr_add_cast_reached X _ _ _ Hb). }
  destruct this; try (exact (Hbase _ Hr)).
  - (* Constant *)
    simpl in Hr. destruct is_null.
    + destruct (set_null_value X T h) as [d1 h1]. inversion Hr; subst. left. reflexivity.
    + destruct (bool_decide (get_compression T ≠ get_compression type_info)).
      * match type of Hr with
        | context [bind ?c _] => destruct c as [[[ti1 d1] h1] | | |] eqn:Hc
        end; simpl in Hr; try discriminate Hr.
        destruct (Expr_add_cast X (Constant ti1 contains_agg false d1) T)
          as [r0 | | |] eqn:Hb; simpl in Hr; try discriminate Hr.
        inversion Hr; subst. exact (Expr_add_cast_reached X _ _ _ Hb).
      * destruct (do_cast X type_info constval h T) as [[[ti1 d1] h1] | | |] eqn:Hc;
          simpl in Hr; try discriminate Hr.
        inversion Hr; subst. left. simpl. exact (do_cast_type X _ _ _ _ _ _ _ Hc).
  - (* UOper *)
    simpl in Hr.
    destruct (bool_decide (optype ≠ kCAST)); [exact (Hbase _ Hr) |].
    match type of Hr with
    | (if ?c then _ else _) = _ => destruct c eqn:Hcond
    end; [| exact (Hbase _ Hr)].
    destruct operand as [o |]; [| discriminate Hr].
    match type of Hr with
    | (if ?c then _ else _) = _ => destruct c eqn:Hcol
    end; [| exact (Hbase _ Hr)].
    inversion Hr; subst. simpl. right.
    repeat rewrite andb_true_iff in Hcond. repeat rewrite andb_true_iff in Hcol.
    repeat rewrite bool_decide_eq_true in Hcond.
    repeat rewrite bool_decide_eq_true in Hcol. tauto.
  - (* Subquery *)
    discriminate Hr.
  - (* CaseExpr *)
    simpl in Hr.
    match type of Hr with
    | context [bind ?c _] => destruct c as [[l1 h1] | | |]
    end; simpl in Hr; try discriminate Hr.
    match type of Hr with
    | context [bind ?c _] => destruct c as [[e1 h2] | | |]
    end; simpl in Hr; try discriminate Hr.
    inversion Hr; subst. simpl. unfold CaseExpr_cast_type, cast_reached.
    match goal with
    | |- context [if ?c then _ else _] => destruct c eqn:Hcond
    end; [| left; reflexivity].
    right. repeat rewrite andb_true_iff in Hcond.
    repeat rewrite bool_decide_eq_true in Hcond.
    unfold is_string in *. simpl. tauto.
Qed.

Lemma add_cast_reached_witness :
  cast_reached (VARCHAR 10 kENCODING_DICT (-5))
    (get_type_info
       (pointee (ColumnVar (VARCHAR 10 kENCODING_DICT 3) false 1 2 0) shared_from_this)).
Proof.
  apply (add_cast_reached example_externals
           (ColumnVar (VARCHAR 10 kENCODING_DICT 3) false 1 2 0) []
           (VARCHAR 10 kENCODING_DICT (-5))
           (ColumnVar (VARCHAR 10 kENCODING_DICT 3) false 1 2 0) [] shared_from_this).
  reflexivity.
Defined.

Lemma cast_pairs_fst (cast : Expr -> heap -> result (Expr * heap * handle))
    (l l' : list (Expr * Expr)) (h h' : heap) :
  cast_pairs cast l h = Ok (l', h') -> map fst l' = map fst l.
Proof.
  revert l' h. induction l as [| [first second] l IH]; intros l' h Hr.
  - inversion Hr. reflexivity.
  - cbn [cast_pairs] in Hr.
    destruct (cast second h) as [[[second1 h1] r1] | | |]; simpl in Hr;
      try discriminate Hr.
    destruct (cast_pairs cast l h1) as [[l1 h2] | | |] eqn:Hl; simpl in Hr;
      try discriminate Hr.
    inversion Hr; subst. simpl. f_equal. exact (IH _ _ Hl).
Qed.

(** X14.  A cast to a string type of a transient dictionary (DICT-encoded,
    with [comp_param] at most [TRANSIENT_DICT_ID]) never builds a CAST node
    over a receiver that is no literal.  Where [add_cast] returns on a
    receiver whose [add_cast] is that of the base class or of [UOper], it
    hands back the receiver itself, unchanged, or the operand the receiver,
    a CAST node, held, and the heap is not touched.  Where it returns on a
    [CaseExpr], it hands back the receiver itself, which has pushed the
    cast into its branches: its type is the type the branches were cast
    to, its WHEN conditions are as before, and it has an ELSE branch if it
    had one; the branches and the heap may have changed.  (On a [Subquery]
    it does not return.) *)
Theorem add_cast_transient_no_node (X : Externals) (this : Expr) (h : heap)
    (T : SQLTypeInfo) (this' : Expr) (h' : heap) (r : handle) :
  is_Constant this = false ->
  is_string T = true ->
  get_compression T = kENCODING_DICT ->
  get_comp_param T <= TRANSIENT_DICT_ID X ->
  add_cast X this h T = Ok (this', h', r) ->
  (plain_cast this = true ->
   h' = h
   /\ ((r = shared_from_this /\ this' = this)
       \/ exists type_info contains_agg operand,
            this = UOper type_info contains_agg kCAST (Some operand)
            /\ this' = UOper type_info contains_agg kCAST None
            /\ r = other operand))
  /\ (plain_cast this = false ->
      r = shared_from_this
      /\ exists type_info contains_agg expr_pair_list else_expr
                expr_pair_list' else_expr',
           this = CaseExpr type_info contains_agg expr_pair_list else_expr
           /\ this' = CaseExpr (CaseExpr_cast_type X type_info T) contains_agg
                        expr_pair_list' else_expr'
           /\ map fst expr_pair_list' = map fst expr_pair_list
           /\ (is_Some else_expr' <-> is_Some else_expr)).
Proof.
  intros Hlit Hs Hc Hp Hr.
  assert (Hbase : forall e, is_Constant e = false -> forall r0,
            Expr_add_cast X e T = Ok r0 -> r0 = shared_from_this).
  { intros e He r0 Hb. unfold Expr_add_cast in Hb.
    rewrite He, Hs, Hc in Hb.
    rewrite !(bool_decide_eq_true_2 (kENCODING_DICT = kENCODING_DICT)) in Hb
      by reflexivity.
    rewrite (bool_decide_eq_true_2 _ Hp) in Hb. simpl in Hb.
    repeat match type of Hb with
           | (if ?c then _ else _) = _ => destruct c; try discriminate Hb
           end;
      inversion Hb; reflexivity. }
  assert (Hwrap : forall e,
            (perform r0 := Expr_add_cast X e T in Ok (e, h, r0)) = Ok (this', h', r) ->
            is_Constant e = false ->
            h' = h /\ r = shared_from_this /\ this' = e).
  { intros e Hw He. destruct (Expr_add_cast X e T) as [r0 | | |] eqn:Hb; simpl in Hw;
      try discriminate Hw.
    inversion Hw; subst. rewrite (Hbase _ He _ Hb). auto. }
  destruct this; try discriminate Hlit;
    try (split; [intros _ | intros Hf; discriminate Hf];
         destruct (Hwrap _ Hr eq_refl) as (-> & -> & ->); split; [reflexivity |];
         left; split; reflexivity).
  - (* UOper *)
    split; [intros _ | intros Hf; discriminate Hf].
    simpl in Hr.
    destruct (bool_decide (optype ≠ kCAST)) eqn:Hop.
    { destruct (Hwrap _ Hr eq_refl) as (-> & -> & ->). split; [reflexivity |].
      left; split; reflexivity. }
    apply bool_decide_eq_false_1 in Hop.
    assert (optype = kCAST) as ->
      by (destruct optype; try reflexivity; exfalso; apply Hop; discriminate).
    match type of Hr with
    | (if ?c then _ else _) = _ => destruct c
    end.
    + destruct operand as [o |]; [| discriminate Hr].
      match type of Hr with
      | (if ?c then _ else _) = _ => destruct c
      end.
      * inversion Hr; subst. split; [reflexivity |]. right.
        eexists _, _, _. split; [reflexivity |]. split; reflexivity.
      * destruct (Hwrap _ Hr eq_refl) as (-> & -> & ->). split; [reflexivity |].
        left; split; reflexivity.
    + destruct (Hwrap _ Hr eq_refl) as (-> & -> & ->). split; [reflexivity |].
      left; split; reflexivity.
  - (* Subquery *)
    discriminate Hr.
  - (* CaseExpr *)
    split; [intros Hf; discriminate Hf | intros _].
    cbn [add_cast] in Hr.
    destruct (cast_pairs
                (fun second h0 =>
                   add_cast X second h0 (CaseExpr_cast_type X type_info T))
                expr_pair_list h) as [[l1 h1] | | |] eqn:Hpairs; simpl in Hr;
      try discriminate Hr.
    pose proof (cast_pairs_fst _ _ _ _ _ Hpairs) as Hfst.
    destruct else_expr as [e |].
    + destruct (add_cast X e h1 (CaseExpr_cast_type X type_info T))
        as [[[e1 h2] r1] | | |]; simpl in Hr; try discriminate Hr.
      inversion Hr; subst. split; [reflexivity |].
      eexists _, _, _, _, _, _. split; [reflexivity |]. split; [reflexivity |].
      split; [exact Hfst |]. split; intros _; eexists; reflexivity.
    + inversion Hr; subst. split; [reflexivity |].
      eexists _, _, _, _, _, _. split; [reflexivity |]. split; [reflexivity |].
      split; [exact Hfst |]. split; intros [x Hx]; discriminate Hx.
Qed.

(** X14 at a column of type VARCHAR(10, DICT, 3), which a cast to
    VARCHAR(10, DICT, -5) hands back as it is, and at a CASE of type
    VARCHAR(11) over the literal 'hello world', which a cast to
    VARCHAR(5, DICT, -1) hands back with the type VARCHAR(5, DICT, -2), the
    literal cut to 'hello' under a CAST node and the old string freed. *)
Lemma add_cast_transient_no_node_witness :
  ([] = ([] : heap)
   /\ ((shared_from_this = shared_from_this
        /\ ColumnVar (VARCHAR 10 kENCODING_DICT 3) false 1 2 0
           = ColumnVar (VARCHAR 10 kENCODING_DICT 3) false 1 2 0)
       \/ exists type_info contains_agg operand,
            ColumnVar (VARCHAR 10 kENCODING_DICT 3) false 1 2 0
            = UOper type_info contains_agg kCAST (Some operand)
            /\ ColumnVar (VARCHAR 10 kENCODING_DICT 3) false 1 2 0
               = UOper type_info contains_agg kCAST None
            /\ shared_from_this = other operand))
  /\ (shared_from_this = shared_from_this
      /\ exists type_info contains_agg expr_pair_list else_expr
                expr_pair_list' else_expr',
           CaseExpr (VARCHAR 11 kENCODING_NONE 0) false
             [(Constant BOOL false false (boolval true),
               Constant (VARCHAR 11 kENCODING_NONE 0) false false
                 (stringval (Some 0%nat)))] None
           = CaseExpr type_info contains_agg expr_pair_list else_expr
           /\ CaseExpr (VARCHAR 5 kENCODING_DICT (-2)) false
               [(Constant BOOL false false (boolval true),
                 UOper (VARCHAR 5 kENCODING_DICT (-2)) false kCAST
                   (Some (Constant (VARCHAR 5 kENCODING_NONE (-2)) false false
                            (stringval (Some 1%nat)))))] None
             = CaseExpr (CaseExpr_cast_type example_externals type_info
                           (VARCHAR 5 kENCODING_DICT (-1)))
                 contains_agg expr_pair_list' else_expr'
           /\ map fst expr_pair_list' = map fst expr_pair_list
           /\ (is_Some else_expr' <-> is_Some else_expr)).
Proof.
  split.
  - apply (add_cast_transient_no_node example_externals
             (ColumnVar (VARCHAR 10 kENCODING_DICT 3) false 1 2 0) []
             (VARCHAR 10 kENCODING_DICT (-5))
             (ColumnVar (VARCHAR 10 kENCODING_DICT 3) false 1 2 0) []
             shared_from_this);
      try reflexivity.
    simpl. unfold spec_TRANSIENT_DICT_ID. lia.
  - apply (add_cast_transient_no_node example_externals
             (CaseExpr (VARCHAR 11 kENCODING_NONE 0) false
                [(Constant BOOL false false (boolval true),
                  Constant (VARCHAR 11 kENCODING_NONE 0) false false
                    (stringval (Some 0%nat)))] None)
             [Some "hello world"%string]
             (VARCHAR 5 kENCODING_DICT (-1))
             (CaseExpr (VARCHAR 5 kENCODING_DICT (-2)) false
                [(Constant BOOL false false (boolval true),
                  UOper (VARCHAR 5 kENCODING_DICT (-2)) false kCAST
                    (Some (Constant (VARCHAR 5 kENCODING_NONE (-2)) false false
                             (stringval (Some 1%nat)))))] None)
             [None; Some "hello"%string]
             shared_from_this);
      reflexivity.
Defined.

(** ** normalize_simple_predicate: the normal form *)

Lemma comparison_commuted (op : SQLOps) :
  IS_COMPARISON op = true -> IS_COMPARISON (COMMUTE_COMPARISON op) = true.
Proof. destruct op; simpl; congruence. Qed.

(** X15.  What [normalize_simple_predicate] returns is in normal form: a
    comparison with qualifier ONE whose left operand is a column
    reference, with the [rte_idx] handed out, and whose right operand is a
    literal.  When it returns the null sentinel, [rte_idx] is -1 and the
    heap is as before. *)
Theorem normalize_simple_predicate_normal_form (X : Externals) (this : Expr) (h : heap)
    (res : option Expr) (rte_idx : Z) (h' : heap) :
  normalize_simple_predicate X this h = Ok (res, rte_idx, h') ->
  match res with
  | Some e =>
      exists type_info contains_agg optype l r,
        e = BinOper type_info contains_agg optype kONE l r
        /\ IS_COMPARISON optype = true
        /\ is_ColumnVar l = true /\ get_rte_idx l = rte_idx
        /\ is_Constant r = true
  | None => rte_idx = -1 /\ h' = h
  end.
Proof.
  intros Hr. destruct this; simpl in Hr;
    try (inversion Hr; subst; split; reflexivity).
  destruct (IS_COMPARISON optype) eqn:Hop; simpl in Hr;
    [| inversion Hr; subst; split; reflexivity].
  destruct (bool_decide (qualifier ≠ kONE)) eqn:Hq;
    [inversion Hr; subst; split; reflexivity |].
  apply bool_decide_eq_false_1 in Hq.
  assert (qualifier = kONE) as ->
    by (destruct qualifier; try reflexivity; exfalso; apply Hq; discriminate).
  assert (Hcol : forall e e1 h0 h1, is_ColumnVar e = true ->
            deep_copy X e h0 = Ok (e1, h1) ->
            is_ColumnVar e1 = true /\ get_rte_idx e1 = get_rte_idx e).
  { intros e e1 h0 h1 He Hc. destruct e; try discriminate He.
    simpl in Hc. inversion Hc; subst. split; reflexivity. }
  assert (Hlit : forall e e1 h0 h1, is_Constant e = true ->
            deep_copy X e h0 = Ok (e1, h1) -> is_Constant e1 = true).
  { intros e e1 h0 h1 He Hc. destruct e; try discriminate He.
    simpl in Hc.
    match type of Hc with
    | bind ?c _ = _ => destruct c as [[d1 h2] | | |]; simpl in Hc; try discriminate Hc
    end.
    unfold makeConstant in Hc. destruct is_null.
    - destruct (set_null_value X type_info0 h2). inversion Hc; subst. reflexivity.
    - inversion Hc; subst. reflexivity. }
  destruct (is_ColumnVar this1 && is_Constant this2) eqn:Hcase.
  - apply andb_prop in Hcase. destruct Hcase as [H1 H2].
    destruct (deep_copy X this1 h) as [[l1 h1] | | |] eqn:Hc1; simpl in Hr;
      try discriminate Hr.
    destruct (deep_copy X this2 h1) as [[r1 h2] | | |] eqn:Hc2; simpl in Hr;
      try discriminate Hr.
    inversion Hr; subst.
    destruct (Hcol _ _ _ _ H1 Hc1) as [Hl Hidx].
    eexists _, _, _, _, _. split; [reflexivity |].
    split; [exact Hop |]. split; [exact Hl |]. split; [exact Hidx |].
    exact (Hlit _ _ _ _ H2 Hc2).
  - destruct (is_Constant this1 && is_ColumnVar this2) eqn:Hcase2.
    + apply andb_prop in Hcase2. destruct Hcase2 as [H1 H2].
      destruct (deep_copy X this2 h) as [[r1 h1] | | |] eqn:Hc2; simpl in Hr;
        try discriminate Hr.
      destruct (deep_copy X this1 h1) as [[l1 h2] | | |] eqn:Hc1; simpl in Hr;
        try discriminate Hr.
      inversion Hr; subst.
      destruct (Hcol _ _ _ _ H2 Hc2) as [Hl Hidx].
      eexists _, _, _, _, _. split; [reflexivity |].
      split; [exact (comparison_commuted _ Hop) |].
      split; [exact Hl |]. split; [exact Hidx |].
      exact (Hlit _ _ _ _ H1 Hc1).
    + inversion Hr; subst. split; reflexivity.
Qed.

Lemma normalize_simple_predicate_normal_form_witness :
  exists type_info contains_agg optype l r,
    BinOper BOOL false kGT kONE (ColumnVar INT false 7 1 0)
      (Constant INT false false (intval 3))
    = BinOper type_info contains_agg optype kONE l r
    /\ IS_COMPARISON optype = true
    /\ is_ColumnVar l = true /\ get_rte_idx l = 0
    /\ is_Constant r = true.
Proof.
  apply (normalize_simple_predicate_normal_form example_externals
           (BinOper BOOL false kLT kONE
              (Constant INT false false (intval 3)) (ColumnVar INT false 7 1 0)) []
           (Some (BinOper BOOL false kGT kONE (ColumnVar INT false 7 1 0)
                    (Constant INT false false (intval 3)))) 0 []).
  reflexivity.
Defined.

(** * Further methods: properties *)

(** ** decompress *)

(** X16.  [decompress] of a DICT-encoded string expression wraps it in a CAST to
    the same type without compression, on which [decompress] has nothing
    left to do; casting that node back to the type of the expression gives
    the expression itself, not a second CAST node. *)
Theorem decompress_add_cast_round_trip (X : Externals) (this : Expr) (h : heap) :
  is_string (get_type_info this) = true ->
  get_compression (get_type_info this) = kENCODING_DICT ->
  exists cast cast',
    decompress this = other cast
    /\ get_type (get_type_info cast) = get_type (get_type_info this)
    /\ get_dimension (get_type_info cast) = get_dimension (get_type_info this)
    /\ get_compression (get_type_info cast) = kENCODING_NONE
    /\ decompress cast = shared_from_this
    /\ add_cast X cast h (get_type_info this) = Ok (cast', h, other this).
Proof.
  intros Hs Hc. unfold decompress. rewrite Hc. simpl.
  eexists _, _. split; [reflexivity |]. simpl.
  split; [reflexivity |]. split; [reflexivity |]. split; [reflexivity |].
  split; [reflexivity |].
  unfold is_string in *. simpl. rewrite Hs, Hc. simpl.
  rewrite bool_decide_eq_true_2 by reflexivity. reflexivity.
Qed.

Lemma decompress_add_cast_round_trip_witness :
  exists cast cast',
    decompress (ColumnVar (VARCHAR 10 kENCODING_DICT 3) false 1 2 0) = other cast
    /\ get_type (get_type_info cast) = kVARCHAR
    /\ get_dimension (get_type_info cast) = 10
    /\ get_compression (get_type_info cast) = kENCODING_NONE
    /\ decompress cast = shared_from_this
    /\ add_cast example_externals cast [] (VARCHAR 10 kENCODING_DICT 3)
       = Ok (cast', [], other (ColumnVar (VARCHAR 10 kENCODING_DICT 3) false 1 2 0)).
Proof.
  apply (decompress_add_cast_round_trip example_externals
           (ColumnVar (VARCHAR 10 kENCODING_DICT 3) false 1 2 0) []);
    reflexivity.
Defined.

(** ** add_unique *)

Lemma found_equal_app (X : Externals) (h : heap) (this : Expr) (l q : list Expr) :
  found_equal X h this l = Ok false ->
  found_equal X h this (l ++ q) = found_equal X h this q.
Proof.
  induction l as [| e l IH]; intros Hl; [reflexivity |].
  simpl in *. destruct (equals X h e this) as [[|] | | |]; simpl in *;
    try discriminate Hl.
  apply IH. exact Hl.
Qed.

(** X17.  [add_unique] leaves the list as it is or appends the receiver to it.
    When the receiver is found equal to itself, a second [add_unique] of it
    changes nothing: the list holds the receiver at most once. *)
Theorem add_unique_idempotent (X : Externals) (h : heap) (this : Expr)
    (expr_list expr_list' : list Expr) :
  equals X h this this = Ok true ->
  add_unique X h this expr_list = Ok expr_list' ->
  (expr_list' = expr_list \/ expr_list' = expr_list ++ [this])
  /\ add_unique X h this expr_list' = Ok expr_list'.
Proof.
  intros Hrefl Hadd. unfold add_unique in *.
  destruct (found_equal X h this expr_list) as [[|] | | |] eqn:Hf; simpl in Hadd;
    try discriminate Hadd; inversion Hadd; subst.
  - split; [left; reflexivity |]. rewrite Hf. reflexivity.
  - split; [right; reflexivity |].
    rewrite (found_equal_app X h this _ [this] Hf). simpl. rewrite Hrefl. reflexivity.
Qed.

Lemma add_unique_idempotent_witness :
  ([ColumnVar INT false 1 1 0; ColumnVar INT false 1 2 0]
   = [ColumnVar INT false 1 1 0]
   \/ [ColumnVar INT false 1 1 0; ColumnVar INT false 1 2 0]
      = [ColumnVar INT false 1 1 0] ++ [ColumnVar INT false 1 2 0])
  /\ add_unique example_externals [] (ColumnVar INT false 1 2 0)
       [ColumnVar INT false 1 1 0; ColumnVar INT false 1 2 0]
     = Ok [ColumnVar INT false 1 1 0; ColumnVar INT false 1 2 0].
Proof.
  apply (add_unique_idempotent example_externals [] (ColumnVar INT false 1 2 0)
           [ColumnVar INT false 1 1 0]);
    reflexivity.
Defined.

(** A column reference with [rte_idx = -1] that is no [Var] is not found
    equal to itself, so [add_unique] appends it every time. *)
Example add_unique_unbound_column_twice :
  add_unique example_externals [] (ColumnVar INT false 1 2 (-1))
    [ColumnVar INT false 1 2 (-1)]
  = Ok [ColumnVar INT false 1 2 (-1); ColumnVar INT false 1 2 (-1)].
Proof. reflexivity. Qed.

(** ** The range table *)

Lemma rte_idx_loop_first (rangetable : list RangeTblEntry) (name : string)
    (i : nat) (rte : RangeTblEntry) (k : Z) :
  rangetable !! i = Some rte ->
  get_rangevar rte = name ->
  (forall j rte', (j < i)%nat -> rangetable !! j = Some rte' ->
                  get_rangevar rte' <> name) ->
  k + Z.of_nat i < 2 ^ 31 ->
  rte_idx_loop rangetable name k = Ok (k + Z.of_nat i).
Proof.
  revert i k. induction rangetable as [| r l IH]; intros i k Hi Hname Hbefore Hk.
  - discriminate Hi.
  - destruct i as [| i]; simpl in *.
    + inversion Hi; subst. rewrite bool_decide_eq_true_2 by reflexivity.
      f_equal. lia.
    + rewrite bool_decide_eq_false_2 by (apply (Hbefore 0%nat); [lia | reflexivity]).
      unfold int_succ. rewrite bool_decide_eq_true_2 by lia. simpl.
      rewrite (IH i (k + 1)); [f_equal; lia | exact Hi | exact Hname | | lia].
      intros j rte' Hj Hl. apply (Hbefore (S j)); [lia | exact Hl].
Qed.

Lemma rte_idx_loop_absent (rangetable : list RangeTblEntry) (name : string) (k : Z) :
  (forall rte, rte ∈ rangetable -> get_rangevar rte <> name) ->
  k + Z.of_nat (length rangetable) < 2 ^ 31 ->
  rte_idx_loop rangetable name k = Ok (-1).
Proof.
  revert k. induction rangetable as [| r l IH]; intros k Hnone Hk; [reflexivity |].
  simpl in *. rewrite bool_decide_eq_false_2 by (apply Hnone; left).
  unfold int_succ. rewrite bool_decide_eq_true_2 by lia. simpl.
  apply IH; [| lia]. intros rte Hin. apply Hnone. right. exact Hin.
Qed.

(** X18.  [Query::get_rte_idx] answers the position, from 0, of the first entry
    of the range table with the alias asked for, and -1 when no entry has
    it (the range table having fewer than [2 ^ 31] entries, so that the
    counter does not overflow). *)
Theorem Query_get_rte_idx_first (rangetable : list RangeTblEntry) (name : string) :
  Z.of_nat (length rangetable) < 2 ^ 31 ->
  (forall (i : nat) rte,
     rangetable !! i = Some rte ->
     get_rangevar rte = name ->
     (forall j rte', (j < i)%nat -> rangetable !! j = Some rte' ->
                     get_rangevar rte' <> name) ->
     Query_get_rte_idx rangetable name = Ok (Z.of_nat i))
  /\ ((forall rte, rte ∈ rangetable -> get_rangevar rte <> name) ->
      Query_get_rte_idx rangetable name = Ok (-1)).
Proof.
  intros Hlen. unfold Query_get_rte_idx. split.
  - intros i rte Hi Hname Hbefore.
    assert (Hlt : (i < length rangetable)%nat) by (eapply lookup_lt_Some; exact Hi).
    rewrite (rte_idx_loop_first rangetable name i rte 0 Hi Hname Hbefore) by lia.
    reflexivity.
  - intros Hnone. apply rte_idx_loop_absent; [exact Hnone | lia].
Qed.

Lemma Query_get_rte_idx_first_witness :
  Query_get_rte_idx
    [mkRangeTblEntry "a" None []; mkRangeTblEntry "b" None [];
     mkRangeTblEntry "b" None []] "b"
  = Ok (Z.of_nat 1).
Proof.
  assert (Hlen : Z.of_nat 3 < 2 ^ 31) by reflexivity.
  destruct (Query_get_rte_idx_first
              [mkRangeTblEntry "a" None []; mkRangeTblEntry "b" None [];
               mkRangeTblEntry "b" None []] "b" Hlen) as [Hfirst _].
  apply (Hfirst 1%nat (mkRangeTblEntry "b" None [])); [reflexivity | reflexivity |].
  intros j rte' Hj Hl. destruct j as [| j]; [| lia].
  inversion Hl; subst. discriminate.
Defined.

Lemma rte_idx_loop_app_found (rangetable : list RangeTblEntry) (rte : RangeTblEntry)
    (name : string) (k i : Z) :
  i <> -1 ->
  rte_idx_loop rangetable name k = Ok i ->
  rte_idx_loop (rangetable ++ [rte]) name k = Ok i.
Proof.
  intros Hi. revert k. induction rangetable as [| r l IH]; intros k Hr; simpl in *.
  - inversion Hr. congruence.
  - destruct (bool_decide (get_rangevar r = name)); [exact Hr |].
    destruct (int_succ k) as [k1 | | |]; simpl in *; try discriminate Hr.
    apply IH. exact Hr.
Qed.

Lemma rte_idx_loop_app_new (rangetable : list RangeTblEntry) (rte : RangeTblEntry)
    (k : Z) :
  0 <= k ->
  rte_idx_loop rangetable (get_rangevar rte) k = Ok (-1) ->
  rte_idx_loop (rangetable ++ [rte]) (get_rangevar rte) k
  = Ok (k + Z.of_nat (length rangetable)).
Proof.
  revert k. induction rangetable as [| r l IH]; intros k Hk Hr; simpl in *.
  - rewrite bool_decide_eq_true_2 by reflexivity. f_equal. lia.
  - destruct (bool_decide (get_rangevar r = get_rangevar rte));
      [inversion Hr; lia |].
    unfold int_succ in *. destruct (bool_decide (k < 2 ^ 31 - 1)); simpl in *;
      [| discriminate Hr].
    rewrite (IH (k + 1)); [f_equal; lia | lia | exact Hr].
Qed.

Lemma rte_idx_loop_app_absent (rangetable : list RangeTblEntry) (rte : RangeTblEntry)
    (name : string) (k : Z) :
  name <> get_rangevar rte ->
  k + Z.of_nat (length rangetable) < 2 ^ 31 - 1 ->
  rte_idx_loop rangetable name k = Ok (-1) ->
  rte_idx_loop (rangetable ++ [rte]) name k = Ok (-1).
Proof.
  intros Hname. revert k. induction rangetable as [| r l IH]; intros k Hk Hr;
    simpl in *.
  - rewrite bool_decide_eq_false_2 by congruence.
    unfold int_succ. rewrite bool_decide_eq_true_2 by lia. reflexivity.
  - destruct (bool_decide (get_rangevar r = name)); [exact Hr |].
    unfold int_succ in *. destruct (bool_decide (k < 2 ^ 31 - 1)); simpl in *;
      [| discriminate Hr].
    apply IH; [lia | exact Hr].
Qed.

(** X19.  [Query::add_rte] and [Query::get_rte_idx]: an alias that was found
    before the entry was added is found at the same position after; the
    alias of the added entry, when it was not in the range table, is
    found at the last position, which is the number of entries there were;
    when it was, the added entry is shadowed by the older one. *)
Theorem Query_add_rte_get_rte_idx (rangetable : list RangeTblEntry)
    (rte : RangeTblEntry) :
  (forall name i,
     i <> -1 ->
     Query_get_rte_idx rangetable name = Ok i ->
     Query_get_rte_idx (Query_add_rte rangetable rte) name = Ok i)
  /\ (Query_get_rte_idx rangetable (get_rangevar rte) = Ok (-1) ->
      Query_get_rte_idx (Query_add_rte rangetable rte) (get_rangevar rte)
      = Ok (Z.of_nat (length rangetable)))
  /\ (forall name,
        name <> get_rangevar rte ->
        Z.of_nat (length rangetable) < 2 ^ 31 - 1 ->
        Query_get_rte_idx rangetable name = Ok (-1) ->
        Query_get_rte_idx (Query_add_rte rangetable rte) name = Ok (-1)).
Proof.
  unfold Query_get_rte_idx, Query_add_rte. split; [| split].
  - intros name i Hi Hr. apply rte_idx_loop_app_found; assumption.
  - intros Hr. rewrite (rte_idx_loop_app_new rangetable rte 0 ltac:(lia) Hr).
    reflexivity.
  - intros name Hname Hlen Hr. apply rte_idx_loop_app_absent; [exact Hname | lia | exact Hr].
Qed.

Lemma Query_add_rte_get_rte_idx_witness :
  Query_get_rte_idx
    (Query_add_rte [mkRangeTblEntry "a" None []; mkRangeTblEntry "b" None []]
       (mkRangeTblEntry "c" None [])) "c"
  = Ok (Z.of_nat 2).
Proof.
  destruct (Query_add_rte_get_rte_idx
              [mkRangeTblEntry "a" None []; mkRangeTblEntry "b" None []]
              (mkRangeTblEntry "c" None [])) as (_ & Hnew & _).
  apply Hnew. reflexivity.
Defined.

(** ** The column cache of a range table entry *)

Lemma cached_column_desc_Some (column_descs : list ColumnDescriptor) (name : string)
    (cd : ColumnDescriptor) :
  cached_column_desc column_descs name = Some cd ->
  columnName cd = name /\ cd ∈ column_descs.
Proof.
  induction column_descs as [| c l IH]; simpl; [discriminate |].
  destruct (bool_decide (columnName c = name)) eqn:Hc.
  - intros Hr. inversion Hr; subst. apply bool_decide_eq_true_1 in Hc.
    split; [exact Hc | left].
  - intros Hr. destruct (IH Hr) as [Hn Hin]. split; [exact Hn | right; exact Hin].
Qed.

Lemma cached_column_desc_app (l : list ColumnDescriptor) (name : string)
    (cd : ColumnDescriptor) :
  cached_column_desc l name = None ->
  columnName cd = name ->
  cached_column_desc (l ++ [cd]) name = Some cd.
Proof.
  intros Hl Hn. induction l as [| c l IH]; simpl in *.
  - rewrite bool_decide_eq_true_2 by exact Hn. reflexivity.
  - destruct (bool_decide (columnName c = name)); [discriminate Hl |].
    apply IH. exact Hl.
Qed.

(** X20.  [get_column_desc] with a catalog that answers with a column of the name
    asked for: the descriptor returned has that name and is in the cache
    after the call; the cache only grows, at its end; and asking again for
    the same name gives the same descriptor from the cache, whatever the
    catalog would say, and leaves the entry as it is.  When the catalog
    does not know the name, the entry is not changed. *)
Theorem get_column_desc_cached (catalog : Catalog) (rte : RangeTblEntry)
    (name : string) (res : option ColumnDescriptor) (rte' : RangeTblEntry) :
  (forall tid cd, getMetadataForColumn catalog tid name = Some cd ->
                  columnName cd = name) ->
  get_column_desc catalog rte name = Ok (res, rte') ->
  get_rangevar rte' = get_rangevar rte
  /\ table_desc rte' = table_desc rte
  /\ column_descs rte `prefix_of` column_descs rte'
  /\ match res with
     | Some cd =>
         columnName cd = name
         /\ cd ∈ column_descs rte'
         /\ forall catalog',
              get_column_desc catalog' rte' name = Ok (Some cd, rte')
     | None => rte' = rte
     end.
Proof.
  intros Hcat Hr. unfold get_column_desc in Hr.
  destruct (cached_column_desc (column_descs rte) name) as [cd |] eqn:Hc.
  - inversion Hr; subst. destruct (cached_column_desc_Some _ _ _ Hc) as [Hn Hin].
    split; [reflexivity |]. split; [reflexivity |]. split; [reflexivity |].
    split; [exact Hn |]. split; [exact Hin |].
    intros catalog'. unfold get_column_desc. rewrite Hc. reflexivity.
  - destruct (table_desc_tableId rte) as [tid | | |]; simpl in Hr; try discriminate Hr.
    destruct (getMetadataForColumn catalog tid name) as [cd |] eqn:Hm.
    + inversion Hr; subst. simpl. pose proof (Hcat _ _ Hm) as Hn.
      split; [reflexivity |]. split; [reflexivity |].
      split; [apply prefix_app_r; reflexivity |].
      split; [exact Hn |]. split; [apply elem_of_app; right; left |].
      intros catalog'. unfold get_column_desc. simpl.
      rewrite (cached_column_desc_app _ _ _ Hc Hn). reflexivity.
    + inversion Hr; subst. repeat split; reflexivity.
Qed.

Lemma get_column_desc_cached_witness :
  get_rangevar (mkRangeTblEntry "t" (Some (mkTableDescriptor 7))
                  [mkColumnDescriptor 2 "y" (VARCHAR 10 kENCODING_DICT 3)]) = "t"%string.
Proof.
  destruct (get_column_desc_cached example_catalog
              (mkRangeTblEntry "t" (Some (mkTableDescriptor 7)) []) "y"
              (Some (mkColumnDescriptor 2 "y" (VARCHAR 10 kENCODING_DICT 3)))
              (mkRangeTblEntry "t" (Some (mkTableDescriptor 7))
                 [mkColumnDescriptor 2 "y" (VARCHAR 10 kENCODING_DICT 3)]))
    as (Hvar & _).
  - intros tid cd. simpl. destruct (bool_decide (tid = 7)); [| discriminate].
    simpl. intros Hcd. inversion Hcd. reflexivity.
  - reflexivity.
  - exact Hvar.
Defined.

(** ** Rewriting a column reference against a target list *)

Lemma child_targetlist_loop_first (table_id column_id : Z)
    (tlist : list TargetEntry) (i : nat) (tle : TargetEntry) (varno : Z) :
  tlist !! i = Some tle ->
  refers_to table_id column_id (get_expr tle) = true ->
  (forall j tle', (j < i)%nat -> tlist !! j = Some tle' ->
     is_Some (as_ColumnVar (get_expr tle'))
     /\ refers_to table_id column_id (get_expr tle') = false) ->
  varno + Z.of_nat i < 2 ^ 31 ->
  exists type_info rte_idx,
    as_ColumnVar (get_expr tle) = Some (type_info, table_id, column_id, rte_idx)
    /\ child_targetlist_loop table_id column_id tlist varno
       = Ok (makeVar type_info table_id column_id rte_idx kINPUT_OUTER
               (varno + Z.of_nat i)).
Proof.
  revert i varno. induction tlist as [| t l IH]; intros i varno Hi Href Hbefore Hv.
  - discriminate Hi.
  - destruct i as [| i]; simpl in Hi.
    + inversion Hi; subst t. simpl. unfold refers_to in Href.
      destruct (as_ColumnVar (get_expr tle)) as [[[[ti t] c] r] |]; [| discriminate Href].
      rewrite Href. apply andb_prop in Href. destruct Href as [Ht Hc].
      apply bool_decide_eq_true_1 in Ht. apply bool_decide_eq_true_1 in Hc. subst t c.
      eexists _, _. split; [reflexivity |]. do 2 f_equal. lia.
    + destruct (Hbefore 0%nat t ltac:(lia) eq_refl) as [[x Hx] Hno].
      simpl. unfold refers_to in Hno. rewrite Hx in *.
      destruct x as [[[ti0 t0] c0] r0]. rewrite Hno.
      unfold int_succ. rewrite bool_decide_eq_true_2 by lia. simpl.
      destruct (IH i (varno + 1) Hi Href) as (ti & r & Has & Hloop).
      * intros j tle' Hj Hl. apply (Hbefore (S j)); [lia | exact Hl].
      * lia.
      * exists ti, r. split; [exact Has |]. rewrite Hloop. do 2 f_equal. lia.
Qed.

(** X21.  [ColumnVar::rewrite_with_child_targetlist] on a target list short
    enough for the counter [varno] not to overflow.  When an entry refers to the column of the
    receiver and the entries before it are references to other columns,
    the result is a [Var] of the outer input with the type and the ids of
    that entry and, as [varno], the position of the entry counted from 1.
    When an entry that is no column reference comes before any match, the
    rewrite is refused, and so it is when all entries refer to other
    columns. *)
Theorem ColumnVar_rewrite_with_child_targetlist_first (table_id column_id : Z)
    (tlist : list TargetEntry) :
  Z.of_nat (length tlist) < 2 ^ 31 - 1 ->
  (forall (i : nat) tle,
     tlist !! i = Some tle ->
     (forall j tle', (j < i)%nat -> tlist !! j = Some tle' ->
        is_Some (as_ColumnVar (get_expr tle'))
        /\ refers_to table_id column_id (get_expr tle') = false) ->
     (refers_to table_id column_id (get_expr tle) = true ->
      exists type_info rte_idx,
        as_ColumnVar (get_expr tle) = Some (type_info, table_id, column_id, rte_idx)
        /\ ColumnVar_rewrite_with_child_targetlist table_id column_id tlist
           = Ok (Var type_info false table_id column_id rte_idx kINPUT_OUTER
                   (Z.of_nat i + 1)))
     /\ (as_ColumnVar (get_expr tle) = None ->
         ColumnVar_rewrite_with_child_targetlist table_id column_id tlist
         = Throw "Internal Error: targetlist in rewrite_with_child_targetlist is not all columns."))
  /\ ((forall tle, tle ∈ tlist ->
         is_Some (as_ColumnVar (get_expr tle))
         /\ refers_to table_id column_id (get_expr tle) = false) ->
      ColumnVar_rewrite_with_child_targetlist table_id column_id tlist
      = Throw "Internal error: cannot find ColumnVar in child targetlist.").
Proof.
  intros Hlen. unfold ColumnVar_rewrite_with_child_targetlist. split.
  - intros i tle Hi Hbefore.
    assert (Hlt : (i < length tlist)%nat) by (eapply lookup_lt_Some; exact Hi).
    split.
    + intros Href.
      destruct (child_targetlist_loop_first table_id column_id tlist i tle 1
                  Hi Href Hbefore ltac:(lia)) as (ti & r & Has & Hloop).
      exists ti, r. split; [exact Has |]. rewrite Hloop. unfold makeVar.
      do 2 f_equal. lia.
    + intros Hnone. clear Hlt.
      assert (Hgen : forall varno, varno + Z.of_nat i < 2 ^ 31 ->
                child_targetlist_loop table_id column_id tlist varno
                = Throw "Internal Error: targetlist in rewrite_with_child_targetlist is not all columns.").
      { revert i Hi Hbefore. clear Hlen.
        induction tlist as [| t l IH]; intros i Hi Hbefore varno Hv.
        - discriminate Hi.
        - destruct i as [| i]; simpl in Hi.
          + inversion Hi; subst t. simpl. rewrite Hnone. reflexivity.
          + destruct (Hbefore 0%nat t ltac:(lia) eq_refl) as [[x Hx] Hno].
            simpl. unfold refers_to in Hno. rewrite Hx in *.
            destruct x as [[[ti0 t0] c0] r0]. rewrite Hno.
            unfold int_succ. rewrite bool_decide_eq_true_2 by lia. simpl.
            apply (IH i Hi); [| lia].
            intros j tle' Hj Hl. apply (Hbefore (S j)); [lia | exact Hl]. }
      apply Hgen. apply lookup_lt_Some in Hi. lia.
  - intros Hall.
    assert (Hgen : forall varno, varno + Z.of_nat (length tlist) < 2 ^ 31 ->
              child_targetlist_loop table_id column_id tlist varno
              = Throw "Internal error: cannot find ColumnVar in child targetlist.").
    { clear Hlen. induction tlist as [| t l IH]; intros varno Hv; [reflexivity |].
      destruct (Hall t ltac:(left)) as [[x Hx] Hno].
      simpl in *. unfold refers_to in Hno. rewrite Hx in *.
      destruct x as [[[ti0 t0] c0] r0]. rewrite Hno.
      unfold int_succ. rewrite bool_decide_eq_true_2 by lia. simpl.
      apply IH; [| lia]. intros tle Hin. apply Hall. right. exact Hin. }
    apply Hgen. lia.
Qed.

Lemma ColumnVar_rewrite_with_child_targetlist_first_witness :
  exists type_info rte_idx,
    as_ColumnVar (get_expr (star_entry 7 0 (mkColumnDescriptor 2 "y" INT)))
    = Some (type_info, 7, 2, rte_idx)
    /\ ColumnVar_rewrite_with_child_targetlist 7 2
         [star_entry 7 0 (mkColumnDescriptor 1 "x" INT);
          star_entry 7 0 (mkColumnDescriptor 2 "y" INT)]
       = Ok (Var type_info false 7 2 rte_idx kINPUT_OUTER (Z.of_nat 1 + 1)).
Proof.
  assert (Hlen : Z.of_nat 2 < 2 ^ 31 - 1) by reflexivity.
  destruct (ColumnVar_rewrite_with_child_targetlist_first 7 2
              [star_entry 7 0 (mkColumnDescriptor 1 "x" INT);
               star_entry 7 0 (mkColumnDescriptor 2 "y" INT)] Hlen) as [Hfirst _].
  apply (Hfirst 1%nat (star_entry 7 0 (mkColumnDescriptor 2 "y" INT)));
    [reflexivity | | reflexivity].
  intros j tle' Hj Hl. destruct j as [| j]; [| lia].
  inversion Hl; subst. split; [eexists; reflexivity | reflexivity].
Defined.

Lemma agg_to_var_loop_first (table_id column_id : Z)
    (tlist : list TargetEntry) (i : nat) (tle : TargetEntry) (varno : Z) :
  tlist !! i = Some tle ->
  refers_to table_id column_id (get_expr tle) = true ->
  (forall j tle', (j < i)%nat -> tlist !! j = Some tle' ->
     is_AggExpr (get_expr tle') = true
     \/ (is_Some (as_ColumnVar (get_expr tle'))
         /\ refers_to table_id column_id (get_expr tle') = false)) ->
  varno + Z.of_nat i < 2 ^ 31 ->
  exists type_info rte_idx,
    as_ColumnVar (get_expr tle) = Some (type_info, table_id, column_id, rte_idx)
    /\ agg_to_var_loop table_id column_id tlist varno
       = Ok (makeVar type_info table_id column_id rte_idx kINPUT_OUTER
               (varno + Z.of_nat i)).
Proof.
  revert i varno. induction tlist as [| t l IH]; intros i varno Hi Href Hbefore Hv.
  - discriminate Hi.
  - destruct i as [| i]; simpl in Hi.
    + inversion Hi; subst t. simpl. unfold refers_to in Href.
      destruct (as_ColumnVar (get_expr tle)) as [[[[ti t] c] r] |] eqn:Has;
        [| discriminate Href].
      assert (Hagg : is_AggExpr (get_expr tle) = false)
        by (destruct (get_expr tle); try reflexivity; discriminate Has).
      rewrite Hagg. simpl. rewrite Href.
      apply andb_prop in Href. destruct Href as [Ht Hc].
      apply bool_decide_eq_true_1 in Ht. apply bool_decide_eq_true_1 in Hc. subst t c.
      eexists _, _. split; [reflexivity |]. do 2 f_equal. lia.
    + destruct (IH i (varno + 1) Hi Href) as (ti & r & Has & Hloop).
      * intros j tle' Hj Hl. apply (Hbefore (S j)); [lia | exact Hl].
      * lia.
      * exists ti, r. split; [exact Has |].
        assert (Hnext : (perform varno1 := int_succ varno in
                         agg_to_var_loop table_id column_id l varno1)
                        = Ok (makeVar ti table_id column_id r kINPUT_OUTER
                                (varno + Z.of_nat (S i)))).
        { unfold int_succ. rewrite bool_decide_eq_true_2 by lia. simpl.
          rewrite Hloop. do 2 f_equal. lia. }
        simpl.
        destruct (Hbefore 0%nat t ltac:(lia) eq_refl) as [Hagg | [[x Hx] Hno]].
        -- rewrite Hagg. simpl. exact Hnext.
        -- unfold refers_to in Hno. rewrite Hx in *.
           destruct x as [[[ti0 t0] c0] r0]. rewrite Hno.
           destruct (negb (is_AggExpr (get_expr t))); exact Hnext.
Qed.

(** X22.  [ColumnVar::rewrite_agg_to_var] passes over the aggregates of the
    target list, which count for the position: when an entry refers to the
    column of the receiver and every entry before it is an aggregate or a
    reference to another column, the result is a [Var] of the outer input
    with the type and the ids of that entry and, as [varno], the position
    of the entry in the whole list, counted from 1. *)
Theorem ColumnVar_rewrite_agg_to_var_first (table_id column_id : Z)
    (tlist : list TargetEntry) (i : nat) (tle : TargetEntry) :
  Z.of_nat (length tlist) < 2 ^ 31 ->
  tlist !! i = Some tle ->
  refers_to table_id column_id (get_expr tle) = true ->
  (forall j tle', (j < i)%nat -> tlist !! j = Some tle' ->
     is_AggExpr (get_expr tle') = true
     \/ (is_Some (as_ColumnVar (get_expr tle'))
         /\ refers_to table_id column_id (get_expr tle') = false)) ->
  exists type_info rte_idx,
    as_ColumnVar (get_expr tle) = Some (type_info, table_id, column_id, rte_idx)
    /\ ColumnVar_rewrite_agg_to_var table_id column_id tlist
       = Ok (Var type_info false table_id column_id rte_idx kINPUT_OUTER
               (Z.of_nat i + 1)).
Proof.
  intros Hlen Hi Href Hbefore.
  assert (Hlt : (i < length tlist)%nat) by (eapply lookup_lt_Some; exact Hi).
  destruct (agg_to_var_loop_first table_id column_id tlist i tle 1
              Hi Href Hbefore ltac:(lia)) as (ti & r & Has & Hloop).
  exists ti, r. split; [exact Has |].
  unfold ColumnVar_rewrite_agg_to_var. rewrite Hloop. unfold makeVar.
  do 2 f_equal. lia.
Qed.

Lemma ColumnVar_rewrite_agg_to_var_first_witness :
  exists type_info rte_idx,
    as_ColumnVar (ColumnVar INT false 7 2 0) = Some (type_info, 7, 2, rte_idx)
    /\ ColumnVar_rewrite_agg_to_var 7 2
         [mkTargetEntry "n" (AggExpr (SQLTypeInfo2 kBIGINT false) true kCOUNT None false)
            false;
          mkTargetEntry "y" (ColumnVar INT false 7 2 0) false]
       = Ok (Var type_info false 7 2 rte_idx kINPUT_OUTER (Z.of_nat 1 + 1)).
Proof.
  assert (Hlen : Z.of_nat 2 < 2 ^ 31) by reflexivity.
  apply (ColumnVar_rewrite_agg_to_var_first 7 2
           [mkTargetEntry "n" (AggExpr (SQLTypeInfo2 kBIGINT false) true kCOUNT None false)
              false;
            mkTargetEntry "y" (ColumnVar INT false 7 2 0) false]
           1%nat (mkTargetEntry "y" (ColumnVar INT false 7 2 0) false) Hlen);
    [reflexivity | reflexivity |].
  intros j tle' Hj Hl. destruct j as [| j]; [| lia].
  inversion Hl; subst. left. reflexivity.
Defined.

(** X23.  [ColumnVar::rewrite_with_targetlist] answers a copy of the first entry
    of the target list that refers to the column of the receiver: a column
    reference with the members of that entry (and of its row and number,
    for a [Var]), not flagged as containing an aggregate; entries that are
    no column references are passed over, and the heap is not touched.
    When no entry refers to the column, the rewrite is refused. *)
Theorem ColumnVar_rewrite_with_targetlist_first (X : Externals)
    (table_id column_id : Z) (tlist : list TargetEntry) (h : heap) :
  (forall (i : nat) tle,
     tlist !! i = Some tle ->
     refers_to table_id column_id (get_expr tle) = true ->
     (forall j tle', (j < i)%nat -> tlist !! j = Some tle' ->
        refers_to table_id column_id (get_expr tle') = false) ->
     exists e',
       ColumnVar_rewrite_with_targetlist X table_id column_id tlist h = Ok (e', h)
       /\ as_ColumnVar e' = as_ColumnVar (get_expr tle)
       /\ as_Var e' = as_Var (get_expr tle)
       /\ get_contains_agg e' = false)
  /\ ((forall tle, tle ∈ tlist ->
         refers_to table_id column_id (get_expr tle) = false) ->
      ColumnVar_rewrite_with_targetlist X table_id column_id tlist h
      = Throw "Internal error: cannot find ColumnVar in targetlist.").
Proof.
  split.
  - induction tlist as [| t l IH]; intros i tle Hi Href Hbefore.
    + discriminate Hi.
    + destruct i as [| i]; simpl in Hi.
      * inversion Hi; subst t. simpl. unfold refers_to in Href.
        destruct (as_ColumnVar (get_expr tle)) as [[[[ti t] c] r] |] eqn:Has;
          [| discriminate Href].
        rewrite Href.
        destruct (get_expr tle); try discriminate Has; simpl;
          eexists; (split; [reflexivity |]); simpl; auto.
      * pose proof (Hbefore 0%nat t ltac:(lia) eq_refl) as Hno.
        destruct (IH i tle Hi Href) as (e' & Hr & He').
        { intros j tle' Hj Hl. apply (Hbefore (S j)); [lia | exact Hl]. }
        exists e'. split; [| exact He']. simpl. unfold refers_to in Hno.
        destruct (as_ColumnVar (get_expr t)) as [[[[ti0 t0] c0] r0] |];
          [rewrite Hno |]; exact Hr.
  - induction tlist as [| t l IH]; intros Hall; [reflexivity |].
    pose proof (Hall t ltac:(left)) as Hno. simpl. unfold refers_to in Hno.
    assert (Hrest : ColumnVar_rewrite_with_targetlist X table_id column_id l h
                    = Throw "Internal error: cannot find ColumnVar in targetlist.")
      by (apply IH; intros tle Hin; apply Hall; right; exact Hin).
    destruct (as_ColumnVar (get_expr t)) as [[[[ti0 t0] c0] r0] |];
      [rewrite Hno |]; exact Hrest.
Qed.

(** X23 at a target list with an aggregate, a reference to another
    column, a [Var] of the column asked for and a later [ColumnVar] of that
    column: the answer is the copy of the [Var], the first of the two.  And
    at a target list without the column: the rewrite is refused. *)
Lemma ColumnVar_rewrite_with_targetlist_first_witness :
  (exists e',
     ColumnVar_rewrite_with_targetlist example_externals 7 2
       [mkTargetEntry "n" (AggExpr (SQLTypeInfo2 kBIGINT false) true kCOUNT None false)
          false;
        mkTargetEntry "x" (ColumnVar INT false 7 1 0) false;
        mkTargetEntry "y" (Var INT false 7 2 0 kINPUT_OUTER 1) false;
        mkTargetEntry "z" (ColumnVar INT false 7 2 5) false] []
     = Ok (e', [])
     /\ e' = Var INT false 7 2 0 kINPUT_OUTER 1
     /\ as_ColumnVar e' = Some (INT, 7, 2, 0)
     /\ as_Var e' = Some (kINPUT_OUTER, 1)
     /\ get_contains_agg e' = false)
  /\ ColumnVar_rewrite_with_targetlist example_externals 7 9
       [mkTargetEntry "x" (ColumnVar INT false 7 1 0) false] []
     = Throw "Internal error: cannot find ColumnVar in targetlist.".
Proof.
  split.
  - destruct (ColumnVar_rewrite_with_targetlist_first example_externals 7 2
                [mkTargetEntry "n"
                   (AggExpr (SQLTypeInfo2 kBIGINT false) true kCOUNT None false) false;
                 mkTargetEntry "x" (ColumnVar INT false 7 1 0) false;
                 mkTargetEntry "y" (Var INT false 7 2 0 kINPUT_OUTER 1) false;
                 mkTargetEntry "z" (ColumnVar INT false 7 2 5) false] [])
      as [Hfirst _].
    destruct (Hfirst 2%nat (mkTargetEntry "y" (Var INT false 7 2 0 kINPUT_OUTER 1) false)
                eq_refl eq_refl)
      as (e' & Hr & Hcv & Hv & Hagg).
    + intros j tle' Hj Hl.
      destruct j as [| [| j]]; [| | lia]; inversion Hl; subst; reflexivity.
    + exists e'. split; [exact Hr |].
      split; [| split; [exact Hcv | split; [exact Hv | exact Hagg]]].
      vm_compute in Hr. inversion Hr. reflexivity.
  - destruct (ColumnVar_rewrite_with_targetlist_first example_externals 7 9
                [mkTargetEntry "x" (ColumnVar INT false 7 1 0) false] [])
      as [_ Hnone].
    apply Hnone. intros tle Hin. apply list_elem_of_singleton in Hin. subst tle.
    reflexivity.
Defined.

(** ** SELECT * *)

Lemma expand_star_fold (tid rte_idx : Z) (cols : list ColumnDescriptor)
    (tlist : list TargetEntry) :
  fold_left
    (fun tlist col_desc =>
       let cv := makeColumnVar (columnType col_desc) tid (columnId col_desc) rte_idx in
       let tle := mkTargetEntry (columnName col_desc) cv false in
       tlist ++ [tle])
    cols tlist
  = tlist ++ map (star_entry tid rte_idx) cols.
Proof.
  revert tlist. induction cols as [| c l IH]; intros tlist; simpl.
  - rewrite app_nil_r. reflexivity.
  - rewrite IH, <- app_assoc. reflexivity.
Qed.

(** X24.  [expand_star_in_targetlist] on an empty target list, followed by
    [ColumnVar::rewrite_with_child_targetlist]: the entry caches the
    columns the catalog lists for its table, the target list has one entry
    per column, in that order, each a reference to the column through
    [rte_idx], named as the column; and, the column ids being distinct, a
    reference to the [i]-th column is rewritten to the [Var] of the outer
    input with [varno = i + 1] and the type of the column. *)
Theorem expand_star_then_rewrite (catalog : Catalog) (rte : RangeTblEntry)
    (rte_idx : Z) (td : TableDescriptor) :
  let cols := getAllColumnMetadataForTable catalog (tableId td) false true in
  table_desc rte = Some td ->
  NoDup (map columnId cols) ->
  Z.of_nat (length cols) < 2 ^ 31 ->
  exists tlist,
    expand_star_in_targetlist catalog rte [] rte_idx
    = Ok (mkRangeTblEntry (get_rangevar rte) (table_desc rte) cols, tlist)
    /\ length tlist = length cols
    /\ forall (i : nat) cd,
         cols !! i = Some cd ->
         tlist !! i
         = Some (mkTargetEntry (columnName cd)
                   (ColumnVar (columnType cd) false (tableId td) (columnId cd) rte_idx)
                   false)
         /\ collect_rte_idx (ColumnVar (columnType cd) false (tableId td)
                               (columnId cd) rte_idx) ∅
            = Ok {[ rte_idx ]}
         /\ ColumnVar_rewrite_with_child_targetlist (tableId td) (columnId cd) tlist
            = Ok (Var (columnType cd) false (tableId td) (columnId cd) rte_idx
                    kINPUT_OUTER (Z.of_nat i + 1)).
Proof.
  intros cols Htd Hnodup Hlen.
  exists (map (star_entry (tableId td) rte_idx) cols).
  unfold expand_star_in_targetlist, table_desc_tableId. rewrite Htd. simpl.
  rewrite expand_star_fold. simpl. fold cols.
  split; [reflexivity |]. split; [apply length_map |].
  intros i cd Hi.
  assert (Hentry : map (star_entry (tableId td) rte_idx) cols !! i
                   = Some (star_entry (tableId td) rte_idx cd))
    by (rewrite list_lookup_fmap, Hi; reflexivity).
  split; [exact Hentry |]. split.
  { simpl. f_equal. set_solver. }
  assert (Hlt : (i < length cols)%nat) by (eapply lookup_lt_Some; exact Hi).
  destruct (child_targetlist_loop_first (tableId td) (columnId cd)
              (map (star_entry (tableId td) rte_idx) cols) i
              (star_entry (tableId td) rte_idx cd) 1 Hentry)
    as (ti & r & Has & Hloop).
  - unfold refers_to. simpl. rewrite !bool_decide_eq_true_2 by reflexivity. reflexivity.
  - intros j tle' Hj Hl. rewrite list_lookup_fmap in Hl.
    destruct (cols !! j) as [cd' |] eqn:Hcd'; [| discriminate Hl].
    inversion Hl; subst tle'. split; [eexists; reflexivity |].
    unfold refers_to. simpl. rewrite bool_decide_eq_true_2 by reflexivity. simpl.
    apply bool_decide_eq_false_2. intros Heq.
    assert (Hij : i = j).
    { eapply NoDup_lookup; [exact Hnodup | |].
      - rewrite list_lookup_fmap, Hi. reflexivity.
      - rewrite list_lookup_fmap, Hcd'. simpl. f_equal. symmetry. exact Heq. }
    lia.
  - lia.
  - simpl in Has. inversion Has; subst ti r.
    unfold ColumnVar_rewrite_with_child_targetlist. rewrite Hloop.
    unfold makeVar. do 2 f_equal. lia.
Qed.

Lemma expand_star_then_rewrite_witness :
  exists tlist,
    expand_star_in_targetlist example_catalog
      (mkRangeTblEntry "t" (Some (mkTableDescriptor 7)) []) [] 0
    = Ok (mkRangeTblEntry "t" (Some (mkTableDescriptor 7))
            (getAllColumnMetadataForTable example_catalog 7 false true), tlist)
    /\ length tlist
       = length (getAllColumnMetadataForTable example_catalog 7 false true)
    /\ forall (i : nat) cd,
         getAllColumnMetadataForTable example_catalog 7 false true !! i = Some cd ->
         tlist !! i
         = Some (mkTargetEntry (columnName cd)
                   (ColumnVar (columnType cd) false 7 (columnId cd) 0) false)
         /\ collect_rte_idx (ColumnVar (columnType cd) false 7 (columnId cd) 0) ∅
            = Ok {[ 0 ]}
         /\ ColumnVar_rewrite_with_child_targetlist 7 (columnId cd) tlist
            = Ok (Var (columnType cd) false 7 (columnId cd) 0 kINPUT_OUTER
                    (Z.of_nat i + 1)).
Proof.
  apply (expand_star_then_rewrite example_catalog
           (mkRangeTblEntry "t" (Some (mkTableDescriptor 7)) []) 0
           (mkTableDescriptor 7)).
  - reflexivity.
  - simpl. repeat constructor; set_solver.
  - reflexivity.
Defined.

(** ** check_group_by *)

Lemma ColumnVar_check_group_by_spec (table_id column_id : Z) (groupby : list Expr) :
  (ColumnVar_check_group_by table_id column_id groupby = Ok tt
   <-> exists g, g ∈ groupby /\ refers_to table_id column_id g = true)
  /\ checks_pass (ColumnVar_check_group_by table_id column_id groupby).
Proof.
  induction groupby as [| e l [IHiff IHpass]]; simpl.
  - split; [| exact I]. split; [discriminate |].
    intros (g & Hin & _). inversion Hin.
  - assert (Hstep : (if refers_to table_id column_id e then Ok tt
                     else ColumnVar_check_group_by table_id column_id l)
                    = match as_ColumnVar e with
                      | Some (_, c_table_id, c_column_id, _) =>
                          if bool_decide (table_id = c_table_id)
                             && bool_decide (column_id = c_column_id)
                          then Ok tt
                          else ColumnVar_check_group_by table_id column_id l
                      | None => ColumnVar_check_group_by table_id column_id l
                      end).
    { unfold refers_to. destruct (as_ColumnVar e) as [[[[? ?] ?] ?] |]; reflexivity. }
    rewrite <- Hstep. destruct (refers_to table_id column_id e) eqn:He.
    + split; [| exact I]. split; [| reflexivity].
      intros _. exists e. split; [left | exact He].
    + split; [| exact IHpass]. rewrite IHiff. split.
      * intros (g & Hin & Hg). exists g. split; [right; exact Hin | exact Hg].
      * intros (g & Hin & Hg). apply elem_of_cons in Hin.
        destruct Hin as [-> | Hin]; [congruence |]. exists g. auto.
Qed.

Lemma bind_unit_spec (r1 r2 : result unit) :
  checks_pass r1 -> checks_pass r2 ->
  checks_pass (perform _ := r1 in r2)
  /\ ((perform _ := r1 in r2) = Ok tt <-> r1 = Ok tt /\ r2 = Ok tt).
Proof.
  destruct r1 as [[] | | |]; simpl; try contradiction; intros _ H2.
  - split; [exact H2 |]. tauto.
  - split; [exact I |]. split; [discriminate | intros [? _]; discriminate].
Qed.

(** X25.  On the trees it walks by the code of the sources alone,
    [check_group_by] fails no [CHECK] and follows no null pointer, and it
    passes exactly when every column reference of the tree is grouped: a
    [Var] is of the GROUP BY row, and a [ColumnVar] has the table and the
    column of some column reference in the GROUP BY list. *)
Theorem check_group_by_grouped (Expr_check_group_by : Expr -> list Expr -> result unit)
    (e : Expr) (groupby : list Expr) :
  walked_by_sources e ->
  checks_pass (check_group_by Expr_check_group_by e groupby)
  /\ (check_group_by Expr_check_group_by e groupby = Ok tt
      <-> Forall (grouped groupby) (column_refs e)).
Proof.
  induction e; intros Hw; simpl in Hw; try contradiction.
  - (* ColumnVar *)
    simpl. destruct (ColumnVar_check_group_by_spec table_id column_id groupby)
      as [Hiff Hpass].
    split; [exact Hpass |]. rewrite Hiff. split.
    + intros Hg. constructor; [exact Hg | constructor].
    + intros Hall. inversion Hall; subst. assumption.
  - (* Var *)
    simpl. destruct (bool_decide (which_row ≠ kGROUPBY)) eqn:Hrow.
    + apply bool_decide_eq_true_1 in Hrow. split; [exact I |].
      split; [discriminate |]. intros Hall. inversion Hall; subst. contradiction.
    + apply bool_decide_eq_false_1 in Hrow. split; [exact I |].
      split; [| reflexivity]. intros _. constructor; [| constructor].
      simpl. destruct which_row; try reflexivity; exfalso; apply Hrow; discriminate.
  - (* UOper *)
    destruct X as [o IHo |]; [| contradiction]. simpl. apply IHo. exact Hw.
  - (* BinOper *)
    destruct Hw as [Hw1 Hw2].
    destruct (IHe1 Hw1) as [Hp1 Hi1]. destruct (IHe2 Hw2) as [Hp2 Hi2].
    simpl. destruct (bind_unit_spec _ _ Hp1 Hp2) as [Hp Hi].
    split; [exact Hp |]. rewrite Hi, Hi1, Hi2, Forall_app. reflexivity.
  - (* CaseExpr *)
    destruct Hw as [Hwl Hwe]. simpl.
    assert (Hpairs :
              checks_pass (check_pairs
                             (fun e => check_group_by Expr_check_group_by e groupby)
                             expr_pair_list)
              /\ (check_pairs (fun e => check_group_by Expr_check_group_by e groupby)
                    expr_pair_list = Ok tt
                  <-> Forall (grouped groupby)
                        (flat_map (fun p => column_refs (fst p) ++ column_refs (snd p))
                           expr_pair_list))).
    { clear X0 Hwe. induction X as [| [first second] Hp l Hl IHl].
      - simpl. split; [exact I |]. split; [constructor | reflexivity].
      - inversion Hp as [? IHfirst ? IHsecond]; subst.
        simpl in Hwl. destruct Hwl as [[Hwf Hws] Hwl].
        destruct (IHfirst Hwf) as [Hp1 Hi1]. destruct (IHsecond Hws) as [Hp2 Hi2].
        destruct (IHl Hwl) as [Hp3 Hi3]. simpl.
        destruct (bind_unit_spec _ _ Hp2 Hp3) as [Hp23 Hi23].
        destruct (bind_unit_spec _ _ Hp1 Hp23) as [Hp123 Hi123].
        split; [exact Hp123 |].
        rewrite Hi123, Hi23, Hi1, Hi2, Hi3, !Forall_app. tauto. }
    destruct Hpairs as [Hpl Hil].
    assert (Helse :
              checks_pass (match else_expr with
                           | Some e => check_group_by Expr_check_group_by e groupby
                           | None => Ok tt
                           end)
              /\ (match else_expr with
                  | Some e => check_group_by Expr_check_group_by e groupby
                  | None => Ok tt
                  end = Ok tt
                  <-> Forall (grouped groupby)
                        match else_expr with Some e => column_refs e | None => [] end)).
    { destruct X0 as [e IHe |].
      - apply IHe. exact Hwe.
      - split; [exact I |]. split; [constructor | reflexivity]. }
    destruct Helse as [Hpe Hie].
    destruct (bind_unit_spec _ _ Hpl Hpe) as [Hp Hi].
    split; [exact Hp |]. rewrite Hi, Hil, Hie, Forall_app. reflexivity.
  - (* ExtractExpr *)
    simpl. apply IHe. exact Hw.
  - (* DatetruncExpr *)
    simpl. apply IHe. exact Hw.
Qed.

Lemma check_group_by_grouped_witness :
  checks_pass
    (check_group_by (fun _ _ => Abort)
       (BinOper INT false kPLUS kONE (ColumnVar INT false 7 1 0)
          (ColumnVar INT false 7 2 0))
       [ColumnVar INT false 7 1 0])
  /\ (check_group_by (fun _ _ => Abort)
        (BinOper INT false kPLUS kONE (ColumnVar INT false 7 1 0)
           (ColumnVar INT false 7 2 0))
        [ColumnVar INT false 7 1 0] = Ok tt
      <-> Forall (grouped [ColumnVar INT false 7 1 0])
            (column_refs (BinOper INT false kPLUS kONE (ColumnVar INT false 7 1 0)
                            (ColumnVar INT false 7 2 0)))).
Proof.
  apply (check_group_by_grouped (fun _ _ => Abort)
           (BinOper INT false kPLUS kONE (ColumnVar INT false 7 1 0)
              (ColumnVar INT false 7 2 0))
           [ColumnVar INT false 7 1 0]).
  simpl. split; exact I.
Defined.

(** ** operator== *)

Lemma equal_values_ext (f g : Expr -> Expr -> result bool) (l q : list Expr)
    (u : Expr -> Expr) :
  list_all Expr (fun a => forall b, f (u a) (u b) = g a b) l ->
  equal_values f (map u l) (map u q) = equal_values g l q.
Proof.
  intros Hall. revert q. induction Hall as [| a Ha l Hl IH]; intros q.
  - reflexivity.
  - destruct q as [| b q]; simpl; [reflexivity |].
    rewrite Ha, IH. reflexivity.
Qed.

Lemma is_Some_erased (o : option Expr) :
  is_Some match o with Some e => Some (erase_unread e) | None => None end
  <-> is_Some o.
Proof.
  destruct o; split; intros [x Hx]; try discriminate Hx; eexists; reflexivity.
Qed.

(** X26.  [operator==] reads neither [type_info] nor [contains_agg] of a node
    that is no literal, nor the qualifier of a [BinOper], nor [is_simple]
    of a [LikeExpr]: comparing two trees gives what comparing them with
    those members blanked gives. *)
Theorem equals_unread (X : Externals) (h : heap) (a : Expr) :
  forall b : Expr,
    equals X h (erase_unread a) (erase_unread b) = equals X h a b.
Proof.
  induction a; intros b.
  - destruct b; reflexivity.
  - destruct b; reflexivity.
  - destruct b; reflexivity.
  - destruct b; try reflexivity. simpl.
    destruct (bool_decide (optype = optype0)); [| reflexivity].
    destruct X0 as [o IHo |]; [| reflexivity].
    destruct operand0 as [ro |]; [| reflexivity]. apply IHo.
  - destruct b; try reflexivity. simpl.
    destruct (bool_decide (optype = optype0)); [| reflexivity].
    rewrite IHa1. destruct (equals X h a1 b1) as [[|] | | |]; simpl; try reflexivity.
    apply IHa2.
  - destruct b; reflexivity.
  - destruct b; try reflexivity. simpl.
    rewrite IHa. destruct (equals X h a b) as [[|] | | |]; simpl; try reflexivity.
    rewrite !length_map.
    destruct (bool_decide (length value_list = length value_list0)); simpl;
      [| reflexivity].
    apply equal_values_ext. exact X0.
  - destruct b; try reflexivity. simpl. rewrite IHa. reflexivity.
  - destruct b; try reflexivity. simpl.
    rewrite IHa1. destruct (equals X h a1 b1) as [[|] | | |]; simpl; try reflexivity.
    rewrite IHa2. destruct (equals X h a2 b2) as [[|] | | |]; simpl; try reflexivity.
    destruct (bool_decide (is_ilike = is_ilike0)); simpl; [| reflexivity].
    destruct X0 as [e IHe |]; destruct escape_expr0 as [re |]; try reflexivity.
    apply IHe.
  - destruct b; try reflexivity. simpl.
    destruct (negb (bool_decide (aggtype = aggtype0))
              || negb (bool_decide (is_distinct = is_distinct0))); [reflexivity |].
    destruct X0 as [e IHe |]; destruct arg0 as [ra |]; try reflexivity.
    apply IHe.
  - destruct b; try reflexivity. simpl. rewrite !length_map.
    destruct (bool_decide (length expr_pair_list = length expr_pair_list0)); simpl;
      [| reflexivity].
    assert (Hsome : (is_Some match else_expr with
                             | Some e => Some (erase_unread e)
                             | None => None
                             end
                     <-> is_Some match else_expr0 with
                                 | Some e => Some (erase_unread e)
                                 | None => None
                                 end)
                    <-> (is_Some else_expr <-> is_Some else_expr0)).
    { pose proof (is_Some_erased else_expr). pose proof (is_Some_erased else_expr0).
      tauto. }
    rewrite (bool_decide_ext _ _ Hsome).
    destruct (bool_decide (is_Some else_expr <-> is_Some else_expr0)); simpl;
      [| reflexivity].
    assert (Hpairs : forall q,
              equal_pairs (equals X h)
                (map (fun p => (erase_unread (fst p), erase_unread (snd p)))
                   expr_pair_list)
                (map (fun p => (erase_unread (fst p), erase_unread (snd p))) q)
              = equal_pairs (equals X h) expr_pair_list q).
    { clear X1 Hsome. induction X0 as [| [first second] Hp l Hl IHl]; intros q.
      - reflexivity.
      - inversion Hp as [? IHfirst ? IHsecond]; subst.
        destruct q as [| [qf qs] q]; simpl; [reflexivity |].
        rewrite IHfirst.
        destruct (equals X h first qf) as [[|] | | |]; simpl; try reflexivity.
        rewrite IHsecond.
        destruct (equals X h second qs) as [[|] | | |]; simpl; try reflexivity.
        apply IHl. }
    rewrite Hpairs.
    destruct (equal_pairs (equals X h) expr_pair_list expr_pair_list0)
      as [[|] | | |]; simpl; try reflexivity.
    destruct X1 as [e IHe |]; destruct else_expr0 as [re |]; try reflexivity.
    apply IHe.
  - destruct b; try reflexivity. simpl.
    destruct (bool_decide (field = field0)); [| reflexivity]. apply IHa.
  - destruct b; try reflexivity. simpl.
    destruct (bool_decide (field = field0)); [| reflexivity]. apply IHa.
Qed.

Lemma Datum_equal_refl (X : Externals) (h : heap) (ti : SQLTypeInfo) (d : Datum) :
  payload_fits X h ti d -> Datum_equal X h ti d d = Ok true.
Proof.
  unfold payload_fits, Datum_equal. intros Hfit.
  destruct (get_type ti); try contradiction;
    try (destruct Hfit as [v ->]; simpl; rewrite bool_decide_eq_true_2 by reflexivity;
         reflexivity).
  - destruct Hfit as (p & s & -> & Hp). simpl. rewrite Hp. simpl.
    rewrite bool_decide_eq_true_2 by reflexivity. reflexivity.
  - destruct Hfit as (p & s & -> & Hp). simpl. rewrite Hp. simpl.
    rewrite bool_decide_eq_true_2 by reflexivity. reflexivity.
  - destruct Hfit as (v & -> & Hv). simpl. rewrite Hv. reflexivity.
  - destruct Hfit as (v & -> & Hv). simpl. rewrite Hv. reflexivity.
  - destruct Hfit as (p & s & -> & Hp). simpl. rewrite Hp. simpl.
    rewrite bool_decide_eq_true_2 by reflexivity. reflexivity.
Qed.

(** X27.  [operator==] finds a comparable tree equal to itself: a tree without
    [Subquery] and without a null [operand], whose literals hold the member
    of their kind (no DATE literal), and whose column references, where
    they are no [Var], have an [rte_idx] other than -1. *)
Theorem equals_refl (X : Externals) (h : heap) (e : Expr) :
  comparable X h e -> equals X h e e = Ok true.
Proof.
  induction e; intros Hc; simpl in Hc; simpl.
  - (* ColumnVar *)
    rewrite (bool_decide_eq_true_2 _ Hc).
    rewrite !bool_decide_eq_true_2 by reflexivity. reflexivity.
  - (* Var *)
    destruct (bool_decide (rte_idx ≠ -1));
      rewrite !bool_decide_eq_true_2 by reflexivity; reflexivity.
  - (* Constant *)
    destruct Hc as [Hfit _]. rewrite ti_eqb_refl.
    rewrite bool_decide_eq_true_2 by reflexivity. simpl.
    apply Datum_equal_refl. exact Hfit.
  - (* UOper *)
    rewrite bool_decide_eq_true_2 by reflexivity.
    destruct X0 as [o IHo |]; [| contradiction]. apply IHo. exact Hc.
  - (* BinOper *)
    destruct Hc as [H1 H2]. rewrite bool_decide_eq_true_2 by reflexivity.
    rewrite (IHe1 H1). simpl. apply IHe2. exact H2.
  - contradiction.
  - (* InValues *)
    destruct Hc as [Ha Hl]. rewrite (IHe Ha). simpl.
    rewrite bool_decide_eq_true_2 by reflexivity. simpl.
    induction X0 as [| v IHv l Hall IHl]; [reflexivity |].
    simpl in Hl. destruct Hl as [Hv Hl]. simpl. rewrite (IHv Hv). simpl.
    apply IHl. exact Hl.
  - (* CharLengthExpr *)
    rewrite (IHe Hc). simpl. rewrite bool_decide_eq_true_2 by reflexivity. reflexivity.
  - (* LikeExpr *)
    destruct Hc as (H1 & H2 & H3). rewrite (IHe1 H1). simpl. rewrite (IHe2 H2). simpl.
    rewrite bool_decide_eq_true_2 by reflexivity. simpl.
    destruct X0 as [e IHe |]; [apply IHe; exact H3 | reflexivity].
  - (* AggExpr *)
    rewrite !bool_decide_eq_true_2 by reflexivity. simpl.
    destruct X0 as [a IHa |]; [apply IHa; exact Hc | reflexivity].
  - (* CaseExpr *)
    destruct Hc as [Hl He]. rewrite bool_decide_eq_true_2 by reflexivity. simpl.
    rewrite bool_decide_eq_true_2 by reflexivity. simpl.
    assert (Hpairs : equal_pairs (equals X h) expr_pair_list expr_pair_list = Ok true).
    { clear X1 He. induction X0 as [| [first second] Hp l Hall IHl]; [reflexivity |].
      inversion Hp as [? IHfirst ? IHsecond]; subst.
      simpl in Hl. destruct Hl as [[Hf Hs] Hl]. simpl.
      rewrite (IHfirst Hf). simpl. rewrite (IHsecond Hs). simpl. apply IHl. exact Hl. }
    rewrite Hpairs. simpl.
    destruct X1 as [e IHe |]; [apply IHe; exact He | reflexivity].
  - (* ExtractExpr *)
    rewrite bool_decide_eq_true_2 by reflexivity. apply IHe. exact Hc.
  - (* DatetruncExpr *)
    rewrite bool_decide_eq_true_2 by reflexivity. apply IHe. exact Hc.
Qed.

Lemma equals_refl_witness :
  equals example_externals [Some "hello"%string]
    (BinOper BOOL false kEQ kONE
       (ColumnVar (VARCHAR 5 kENCODING_NONE 0) false 1 1 0)
       (Constant (VARCHAR 5 kENCODING_NONE 0) false false (stringval (Some 0%nat))))
    (BinOper BOOL false kEQ kONE
       (ColumnVar (VARCHAR 5 kENCODING_NONE 0) false 1 1 0)
       (Constant (VARCHAR 5 kENCODING_NONE 0) false false (stringval (Some 0%nat))))
  = Ok true.
Proof.
  apply (equals_refl example_externals [Some "hello"%string]).
  simpl. split; [discriminate |]. split; [| discriminate].
  exists 0%nat, "hello"%string. split; reflexivity.
Defined.

(** ** Promotion: symmetry *)

Lemma common_numeric_type_sym_other_witness :
  common_numeric_type (SQLTypeInfo2 kSMALLINT false) (DECIMAL 10 2)
  = common_numeric_type (DECIMAL 10 2) (SQLTypeInfo2 kSMALLINT false).
Proof.
  apply (common_numeric_type_sym_other (SQLTypeInfo2 kSMALLINT false) (DECIMAL 10 2));
    intros [H1 H2]; discriminate.
Defined.


(** ** get_domain *)

Lemma add_all_unique_app (X : Externals) (h : heap) (l q ds : list Expr) :
  add_all_unique X h (l ++ q) ds
  = perform ds1 := add_all_unique X h l ds in add_all_unique X h q ds1.
Proof.
  revert ds. induction l as [| e l IH]; intros ds; [reflexivity |].
  simpl. destruct (add_unique X h e ds) as [ds1 | | |]; simpl; [apply IH | | |];
    reflexivity.
Qed.

Lemma domain_of_then_value (X : Externals) (h : heap)
    (F : Expr -> list Expr -> result (list Expr)) (second : Expr) (ds : list Expr) :
  is_plain_value second || is_cast_of_literal second = true ->
  domain_of_then X h F second ds
  = perform ds1 := add_unique X h second ds in Ok (ds1, true).
Proof.
  intros Hv. unfold domain_of_then, is_plain_value in *.
  destruct (is_Constant second); [reflexivity |].
  destruct (bool_decide (is_Some (as_ColumnVar second))); [reflexivity |].
  simpl in Hv. destruct second; try discriminate Hv. simpl in Hv.
  destruct operand as [[] |]; try discriminate Hv. rewrite Hv. reflexivity.
Qed.

Lemma domain_of_pairs_values (X : Externals) (h : heap)
    (F : Expr -> list Expr -> result (list Expr)) (l : list (Expr * Expr))
    (ds : list Expr) :
  Forall (fun p => is_plain_value (snd p) || is_cast_of_literal (snd p) = true) l ->
  domain_of_pairs X h F l ds
  = perform ds1 := add_all_unique X h (map snd l) ds in Ok (ds1, true).
Proof.
  intros Hall. revert ds. induction Hall as [| [first second] l Hp Hl IH]; intros ds;
    [reflexivity |].
  simpl in *. rewrite (domain_of_then_value X h F second ds Hp).
  destruct (add_unique X h second ds) as [ds1 | | |]; simpl; [apply IH | | |];
    reflexivity.
Qed.

(** X29.  [CaseExpr::get_domain] on a CASE whose THEN results are literals,
    column references or CASTs of a literal, and whose ELSE result, if
    any, is a literal, a column reference or a CAST: the WHEN conditions
    are not looked at, and the domain set receives, by [add_unique] and in
    this order, every THEN result as it is (a CAST of a literal as the CAST
    node) and then, for the ELSE result, the result itself when it is a
    literal or a column reference, the literal under the CAST when it is a
    CAST of a literal, and nothing when it is a CAST of anything else. *)
Theorem get_domain_values (X : Externals) (h : heap)
    (Expr_get_domain : Expr -> list Expr -> result (list Expr))
    (type_info : SQLTypeInfo) (contains_agg : bool)
    (expr_pair_list : list (Expr * Expr)) (else_expr : option Expr)
    (domain_set : list Expr) :
  Forall (fun p => is_plain_value (snd p) || is_cast_of_literal (snd p) = true)
    expr_pair_list ->
  match else_expr with
  | Some e => is_plain_value e || is_cast e = true
  | None => True
  end ->
  get_domain X h Expr_get_domain
    (CaseExpr type_info contains_agg expr_pair_list else_expr) domain_set
  = add_all_unique X h
      (map snd expr_pair_list
       ++ match else_expr with Some e => added_for_else e | None => [] end)
      domain_set.
Proof.
  intros Hthen Helse. cbn [get_domain].
  rewrite (domain_of_pairs_values X h _ expr_pair_list domain_set Hthen).
  rewrite add_all_unique_app.
  destruct (add_all_unique X h (map snd expr_pair_list) domain_set) as [ds1 | | |];
    simpl; try reflexivity.
  destruct else_expr as [e |]; [| reflexivity].
  unfold domain_of_else, added_for_else, is_plain_value in *.
  destruct (is_Constant e) eqn:Hc; simpl.
  { destruct (add_unique X h e ds1); reflexivity. }
  destruct (bool_decide (is_Some (as_ColumnVar e))) eqn:Hv; simpl.
  { destruct (add_unique X h e ds1); reflexivity. }
  simpl in Helse. destruct e; try discriminate Helse. simpl in Helse.
  rewrite Helse.
  destruct operand as [[] |]; simpl; try reflexivity.
  match goal with |- add_unique ?a ?b ?c ?d = _ => destruct (add_unique a b c d) end;
    reflexivity.
Qed.

Lemma get_domain_values_witness :
  get_domain example_externals [] (fun _ _ => Abort)
    (CaseExpr INT false
       [(ColumnVar BOOL false 7 1 0,
         UOper (SQLTypeInfo2 kBIGINT false) false kCAST
           (Some (Constant INT false false (intval 1))))]
       (Some (UOper (SQLTypeInfo2 kBIGINT false) false kCAST
                (Some (Constant INT false false (intval 2))))))
    []
  = add_all_unique example_externals []
      (map snd
         [(ColumnVar BOOL false 7 1 0,
           UOper (SQLTypeInfo2 kBIGINT false) false kCAST
             (Some (Constant INT false false (intval 1))))]
       ++ added_for_else
            (UOper (SQLTypeInfo2 kBIGINT false) false kCAST
               (Some (Constant INT false false (intval 2)))))
      [].
Proof.
  apply (get_domain_values example_externals [] (fun _ _ => Abort) INT false
           [(ColumnVar BOOL false 7 1 0,
             UOper (SQLTypeInfo2 kBIGINT false) false kCAST
               (Some (Constant INT false false (intval 1))))]
           (Some (UOper (SQLTypeInfo2 kBIGINT false) false kCAST
                    (Some (Constant INT false false (intval 2))))) []).
  - repeat constructor.
  - reflexivity.
Defined.

(** The values of the witness: the THEN result is recorded as the CAST
    node, the ELSE result as the literal under its CAST. *)
Example get_domain_cast_then_else :
  get_domain example_externals [] (fun _ _ => Abort)
    (CaseExpr INT false
       [(ColumnVar BOOL false 7 1 0,
         UOper (SQLTypeInfo2 kBIGINT false) false kCAST
           (Some (Constant INT false false (intval 1))))]
       (Some (UOper (SQLTypeInfo2 kBIGINT false) false kCAST
                (Some (Constant INT false false (intval 2))))))
    []
  = Ok [UOper (SQLTypeInfo2 kBIGINT false) false kCAST
          (Some (Constant INT false false (intval 1)));
        Constant INT false false (intval 2)].
Proof. reflexivity. Qed.

(** X30.  The short cut of [CaseExpr::get_domain]: when the THEN results before
    a pair are literals, column references or CASTs of a literal, the THEN
    result of the pair is none of these, and its own [get_domain] leaves
    the domain set empty, then the domain set of the CASE is empty: the
    pairs after it and the ELSE result are not looked at. *)
Theorem get_domain_short_cut (X : Externals) (h : heap)
    (Expr_get_domain : Expr -> list Expr -> result (list Expr))
    (type_info : SQLTypeInfo) (contains_agg : bool)
    (before after : list (Expr * Expr)) (first second : Expr)
    (else_expr : option Expr) (domain_set domain_set1 : list Expr) :
  Forall (fun p => is_plain_value (snd p) || is_cast_of_literal (snd p) = true)
    before ->
  is_plain_value second || is_cast_of_literal second = false ->
  add_all_unique X h (map snd before) domain_set = Ok domain_set1 ->
  get_domain X h Expr_get_domain second domain_set1 = Ok [] ->
  get_domain X h Expr_get_domain
    (CaseExpr type_info contains_agg (before ++ (first, second) :: after) else_expr)
    domain_set
  = Ok [].
Proof.
  intros Hbefore Hsecond Hds1 Hempty. cbn [get_domain].
  assert (Hloop : domain_of_pairs X h (get_domain X h Expr_get_domain)
                    (before ++ (first, second) :: after) domain_set
                  = Ok ([], false)).
  { clear type_info contains_agg else_expr.
    revert domain_set Hds1. induction Hbefore as [| [f s] l Hp Hl IH];
      intros domain_set Hds1.
    - simpl in Hds1. inversion Hds1; subst domain_set1. simpl.
      assert (Hthen : domain_of_then X h (get_domain X h Expr_get_domain) second
                        domain_set
                      = Ok ([], false)).
      { unfold domain_of_then, is_plain_value in *.
        apply orb_false_iff in Hsecond. destruct Hsecond as [Hplain Hcast].
        apply orb_false_iff in Hplain. destruct Hplain as [Hc Hv].
        rewrite Hc, Hv, Hempty. simpl.
        destruct second; try reflexivity. simpl in Hcast.
        destruct (bool_decide (optype = kCAST)); [| reflexivity].
        destruct operand as [[] |]; try reflexivity. discriminate Hcast. }
      rewrite Hthen. reflexivity.
    - simpl in *. rewrite (domain_of_then_value X h _ s domain_set Hp).
      destruct (add_unique X h s domain_set) as [ds2 | | |]; simpl in *;
        try discriminate Hds1.
      apply IH. exact Hds1. }
  rewrite Hloop. reflexivity.
Qed.

Lemma get_domain_short_cut_witness :
  get_domain example_externals [] (fun _ _ => Ok [])
    (CaseExpr INT false
       ([] ++ (ColumnVar BOOL false 7 1 0,
               BinOper INT false kPLUS kONE (ColumnVar INT false 7 2 0)
                 (Constant INT false false (intval 1)))
           :: [(ColumnVar BOOL false 7 3 0, Constant INT false false (intval 5))])
       (Some (Constant INT false false (intval 7))))
    []
  = Ok [].
Proof.
  apply (get_domain_short_cut example_externals [] (fun _ _ => Ok []) INT false []
           [(ColumnVar BOOL false 7 3 0, Constant INT false false (intval 5))]
           (ColumnVar BOOL false 7 1 0)
           (BinOper INT false kPLUS kONE (ColumnVar INT false 7 2 0)
              (Constant INT false false (intval 1)))
           (Some (Constant INT false false (intval 7))) [] []);
    [constructor | reflexivity | reflexivity | reflexivity].
Defined.
